(** * scentmatch hybrid pipeline: normalisation, scoring, deduplication,
      validation and batch import

    A shallow embedding of the Python scripts under
    [data/hybrid-pipeline/scripts] and theorems about them.

    Conventions of the embedding.
    - Python [str] is [string]: a sequence of 8-bit characters read as
      Latin-1 code points (the Kaggle CSV is read with
      [encoding='latin-1']).
    - A JSON/dict record is a [gmap string value].
    - An insertion-ordered [dict] whose iteration order matters is an
      association list.
    - A raised exception is the [Raise] branch of [result].
    - Python floats are idealised: decimal inputs are exact rationals,
      and the result of [math.log] is a real number. *)

From Stdlib Require Import ZArith QArith Qcanon Reals Lra Lia.
From Stdlib Require Import String Ascii List DecimalString DecimalNat.
From stdpp Require Import gmap strings list.

Local Open Scope string_scope.

(** ** Python string primitives *)

Module PyStr.

Definition code (c : ascii) : nat := nat_of_ascii c.

Definition in_range (lo hi : nat) (c : ascii) : bool :=
  Nat.leb lo (code c) && Nat.leb (code c) hi.

(** [[a-z0-9]] *)
Definition is_alnum (c : ascii) : bool :=
  in_range 97 122 c || in_range 48 57 c.

(** [\d] on Latin-1 text: the decimal digits. *)
Definition is_digit (c : ascii) : bool := in_range 48 57 c.

(** [str.isspace] and [\s] on Latin-1 text. *)
Definition is_space (c : ascii) : bool :=
  in_range 9 13 c || in_range 28 32 c
  || Nat.eqb (code c) 133 || Nat.eqb (code c) 160.

Definition is_cased_upper (c : ascii) : bool :=
  in_range 65 90 c || (in_range 192 222 c && negb (Nat.eqb (code c) 215)).

Definition is_cased_lower (c : ascii) : bool :=
  in_range 97 122 c || (in_range 223 255 c && negb (Nat.eqb (code c) 247))
  || Nat.eqb (code c) 170 || Nat.eqb (code c) 181 || Nat.eqb (code c) 186.

Definition lower_char (c : ascii) : ascii :=
  if is_cased_upper c then ascii_of_nat (code c + 32) else c.

(** Upper-casing inside Latin-1; [ß], [ÿ], [µ], [ª], [º] have no
    single Latin-1 upper-case form and are only ever applied to ASCII here. *)
Definition upper_char (c : ascii) : ascii :=
  if in_range 97 122 c then ascii_of_nat (code c - 32) else c.

Fixpoint map_str (f : ascii -> ascii) (s : string) : string :=
  match s with
  | "" => ""
  | String c s' => String (f c) (map_str f s')
  end.

(** [s.lower()] *)
Definition lower (s : string) : string := map_str lower_char s.

Fixpoint lstrip_by (p : ascii -> bool) (s : string) : string :=
  match s with
  | "" => ""
  | String c s' => if p c then lstrip_by p s' else s
  end.

Fixpoint rstrip_by (p : ascii -> bool) (s : string) : string :=
  match s with
  | "" => ""
  | String c s' =>
      match rstrip_by p s' with
      | "" => if p c then "" else String c ""
      | r => String c r
      end
  end.

Definition strip_by (p : ascii -> bool) (s : string) : string :=
  rstrip_by p (lstrip_by p s).

(** [s.strip()] *)
Definition strip (s : string) : string := strip_by is_space s.

Definition is_hyphen (c : ascii) : bool := Ascii.eqb c "-".

(** [s.strip('-')] *)
Definition strip_hyphens (s : string) : string := strip_by is_hyphen s.

(** [s.startswith(pre)] *)
Fixpoint startswith (pre s : string) : bool :=
  match pre, s with
  | "", _ => true
  | String _ _, "" => false
  | String a pre', String b s' => Ascii.eqb a b && startswith pre' s'
  end.

(** [needle in hay] *)
Fixpoint contains (needle hay : string) : bool :=
  startswith needle hay
  || match hay with
     | "" => false
     | String _ hay' => contains needle hay'
     end.

(** [re.sub(r'C+', repl, s)] for a character class [C] and a one-character
    replacement: every maximal run of class characters becomes [repl]. *)
Fixpoint re_sub_runs (p : ascii -> bool) (repl : ascii) (in_run : bool)
    (s : string) : string :=
  match s with
  | "" => ""
  | String c s' =>
      if p c then
        if in_run then re_sub_runs p repl true s'
        else String repl (re_sub_runs p repl true s')
      else String c (re_sub_runs p repl false s')
  end.

(** [s.replace(a, b)] for single characters. *)
Definition replace_char (a b : ascii) (s : string) : string :=
  map_str (fun c => if Ascii.eqb c a then b else c) s.

(** [s.replace(a, '')] for a single character. *)
Fixpoint remove_char (a : ascii) (s : string) : string :=
  match s with
  | "" => ""
  | String c s' =>
      if Ascii.eqb c a then remove_char a s' else String c (remove_char a s')
  end.

(** [s.replace(old, new)] for a non-empty [old]: non-overlapping
    occurrences, scanned left to right.  [skip] counts the characters of
    the occurrence just replaced that are still to be passed over. *)
Fixpoint replace_sub_aux (skip : nat) (old new s : string) : string :=
  match s with
  | "" => ""
  | String c s' =>
      match skip with
      | S k => replace_sub_aux k old new s'
      | O =>
          if startswith old s
          then new +:+ replace_sub_aux (String.length old - 1) old new s'
          else String c (replace_sub_aux 0 old new s')
      end
  end.

Definition replace_sub (old new s : string) : string :=
  replace_sub_aux 0 old new s.

(** [s.split('__')]: non-overlapping occurrences, scanned left to right.
    [cur] is the piece being read, reversed. *)
Fixpoint rev_str (acc s : string) : string :=
  match s with
  | "" => acc
  | String c s' => rev_str (String c acc) s'
  end.

Fixpoint split_dunder_aux (cur : string) (s : string) : list string :=
  match s with
  | "" => [rev_str "" cur]
  | String c s' =>
      match s' with
      | String c' s'' =>
          if Ascii.eqb c "_" && Ascii.eqb c' "_"
          then rev_str "" cur :: split_dunder_aux "" s''
          else split_dunder_aux (String c cur) s'
      | "" => [rev_str "" (String c cur)]
      end
  end.

Definition split_dunder (s : string) : list string := split_dunder_aux "" s.

(** [str(n)] for a natural number. *)
Definition str_of_nat (n : nat) : string :=
  NilEmpty.string_of_uint (Nat.to_uint n).

(** [s.title()] on Latin-1 text: a cased character is upper-cased when
    the previous character is uncased, lower-cased otherwise. *)
Fixpoint title_aux (prev_cased : bool) (s : string) : string :=
  match s with
  | "" => ""
  | String c s' =>
      let cased := is_cased_upper c || is_cased_lower c in
      String (if prev_cased then lower_char c else upper_char c)
             (title_aux cased s')
  end.

Definition title (s : string) : string := title_aux false s.

(** The regular expression [^[a-z0-9]+(-[a-z0-9]+)*$] as a matcher.
    [slug_tail] recognises [[a-z0-9]*(-[a-z0-9]+)*$]. *)
Fixpoint slug_tail (s : string) : bool :=
  match s with
  | "" => true
  | String c s' =>
      if is_alnum c then slug_tail s'
      else if is_hyphen c then
        match s' with
        | String c' s'' => is_alnum c' && slug_tail s''
        | "" => false
        end
      else false
  end.

Definition slug_re (s : string) : bool :=
  match s with
  | "" => false
  | String c s' => is_alnum c && slug_tail s'
  end.

(** The complement of [[a-z0-9]]. *)
Definition nonalnum (c : ascii) : bool := negb (is_alnum c).

(** A character of a slug body: [[a-z0-9]] or a hyphen. *)
Definition slug_char (c : ascii) : bool := is_alnum c || is_hyphen c.

(** Slug bodies: slug characters only, every hyphen followed by nothing
    or by an alphanumeric. *)
Fixpoint slug_body (s : string) : bool :=
  match s with
  | "" => true
  | String c s' =>
      if is_alnum c then slug_body s'
      else is_hyphen c
           && match s' with
              | String c' _ => is_alnum c'
              | "" => true
              end
           && slug_body s'
  end.

Fixpoint all_chars (p : ascii -> bool) (s : string) : bool :=
  match s with
  | "" => true
  | String c s' => p c && all_chars p s'
  end.

Fixpoint no_double_hyphen (s : string) : bool :=
  match s with
  | "" => true
  | String c s' =>
      match s' with
      | String c' _ => negb (is_hyphen c && is_hyphen c')
      | "" => true
      end && no_double_hyphen s'
  end.

Definition first_char (s : string) : option ascii :=
  match s with "" => None | String c _ => Some c end.

Fixpoint last_char (s : string) : option ascii :=
  match s with
  | "" => None
  | String c "" => Some c
  | String _ s' => last_char s'
  end.

End PyStr.
Import PyStr.

(** ** Python values, dicts and exceptions *)

Module Py.

Inductive exn : Type := KeyError | TypeError | AttributeError | ValueError.

Inductive result (A : Type) : Type :=
| Ok (a : A)
| Raise (e : exn).
Arguments Ok {A} a.
Arguments Raise {A} e.

(** Sequencing: the first exception raised ends the computation.  The
    notation [x ← c; k] is stdpp's. *)
#[global] Instance result_bind : MBind result := fun A B k r =>
  match r with
  | Ok a => k a
  | Raise e => Raise e
  end.

(** The values found in the pipeline's JSON files: [null], numbers,
    strings and lists of strings.  A JSON boolean is the number 0 or 1
    ([bool] is a subclass of [int]: same [==], hash, truth value and
    ordering).  Numbers are finite. *)
Inductive value : Type :=
| VNone
| VNum (q : Qc)
| VStr (s : string)
| VList (l : list string).

Abbreviation record := (gmap string value).

Definition num (q : Q) : value := VNum (Q2Qc q).

(** Truth value of an object, as in [if v] / [not v]. *)
Definition truthy (v : value) : bool :=
  match v with
  | VNone => false
  | VNum q => negb (Qeq_bool q 0)
  | VStr s => negb (String.eqb s "")
  | VList l => match l with [] => false | _ => true end
  end.

Fixpoint list_eqb (l1 l2 : list string) : bool :=
  match l1, l2 with
  | [], [] => true
  | a :: l1', b :: l2' => String.eqb a b && list_eqb l1' l2'
  | _, _ => false
  end.

(** [a == b] *)
Definition py_eqb (a b : value) : bool :=
  match a, b with
  | VNone, VNone => true
  | VNum p, VNum q => Qeq_bool p q
  | VStr s, VStr t => String.eqb s t
  | VList l, VList m => list_eqb l m
  | _, _ => false
  end.

(** [hash(v)]: lists are unhashable. *)
Definition hashable (v : value) : result value :=
  match v with
  | VList _ => Raise TypeError
  | _ => Ok v
  end.

(** [d[k]] *)
Definition getitem (d : record) (k : string) : result value :=
  match d !! k with
  | Some v => Ok v
  | None => Raise KeyError
  end.

(** [d.get(k, dflt)] and [d.get(k)] *)
Definition get_default (d : record) (k : string) (dflt : value) : value :=
  match d !! k with
  | Some v => v
  | None => dflt
  end.

Definition get (d : record) (k : string) : value := get_default d k VNone.

(** [max(first :: rest, key=f)]: the first element whose key is maximal. *)
Fixpoint max_by {A : Type} (f : A -> Z) (best : A) (l : list A) : A :=
  match l with
  | [] => best
  | x :: l' => if (f best <? f x)%Z then max_by f x l' else max_by f best l'
  end.

(** Appending to [groups[k]] in a [defaultdict(list)]: the keys keep the
    order of their first insertion. *)
Fixpoint group_insert {K A : Type} (eqb : K -> K -> bool) (k : K) (a : A)
    (groups : list (K * list A)) : list (K * list A) :=
  match groups with
  | [] => [(k, [a])]
  | (k', g) :: rest =>
      if eqb k k' then (k', (g ++ [a])%list) :: rest
      else (k', g) :: group_insert eqb k a rest
  end.

Fixpoint group_by {K A : Type} (eqb : K -> K -> bool) (key : A -> result K)
    (l : list A) (groups : list (K * list A)) : result (list (K * list A)) :=
  match l with
  | [] => Ok groups
  | a :: l' =>
      k ← key a;
      group_by eqb key l' (group_insert eqb k a groups)
  end.

(** A [for] loop whose body may raise, collecting one result per item. *)
Fixpoint mapM {A B : Type} (f : A -> result B) (l : list A) : result (list B) :=
  match l with
  | [] => Ok []
  | a :: l' => b ← f a; bs ← mapM f l'; Ok (b :: bs)
  end.

(** [enumerate(l)] starting at [i]. *)
Fixpoint enumerate_from {A : Type} (i : nat) (l : list A) : list (nat * A) :=
  match l with
  | [] => []
  | a :: l' => (i, a) :: enumerate_from (S i) l'
  end.

Section Grouping.
Context {K A : Type} (eqb : K -> K -> bool) (key : A -> result K).

(** The records with a given key. *)
Definition has_key (k : K) (a : A) : bool :=
  match key a with
  | Ok k' => eqb k' k
  | Raise _ => false
  end.

(** Groups are well-formed for the records read so far: distinct keys, each
    group the non-empty list of the records with its key, in reading order,
    and every record read in some group. *)
Definition grouped (done : list A) (groups : list (K * list A)) : Prop :=
  List.NoDup (map fst groups)
  /\ (forall k g, In (k, g) groups -> g <> [] /\ g = List.filter (has_key k) done)
  /\ (forall a k, In a done -> key a = Ok k -> In k (map fst groups)).

End Grouping.

(** A record from its items. *)
Definition rec_of (l : list (string * value)) : record := list_to_map l.

End Py.
Import Py.

(** ** [kaggle_processor.py] *)

Module KaggleProcessor.

(** A CSV row.  [Perfume], [Brand] and [Gender] hold [str(row[...])];
    [Rating_Value] and [Rating_Count] hold the number the cell text
    parses to, [None] standing for the text ['nan'] of a missing cell;
    [Year] holds the integer cell, [None] for a missing one. *)
Record row : Type := {
  Perfume : string;
  Brand : string;
  Gender : string;
  Rating_Value : option Q;
  Rating_Count : option Z;
  Year : option Z
}.

(** One entry of the configuration that is a dict with a ['brands'] key. *)
Record tier : Type := {
  brands : list string;
  boost_multiplier : Q
}.

(** The configuration [load_config] returns.  [tiers] lists, in the order
    of [config.items()], the entries with a ['brands'] key.
    [true_bestsellers] is the list of names under
    [config['research'][...]['true_bestsellers']], [None] when the
    ['research'] key is absent.  [proven_bestsellers_boost] is
    [config['proven_bestsellers_2025']['manual_boost']], [None] when looking
    it up raises [KeyError].  [classic_fragrances] is the pair of
    [config['classic_fragrances']['fragrances']] and its ['manual_boost']. *)
Record config : Type := {
  tiers : list tier;
  true_bestsellers : option (list string);
  proven_bestsellers_boost : option Q;
  classic_fragrances : option (list string * Q)
}.

Definition brand_boost (cfg : config) (brand : string) : Q :=
  match List.find (fun t => existsb (String.eqb brand) (brands t)) (tiers cfg) with
  | Some t => boost_multiplier t
  | None => 1%Q
  end.

Definition recency_boost (year : Z) : Q :=
  if (2020 <=? year)%Z then 12 # 10
  else if (2015 <=? year)%Z then 11 # 10
  else if (2010 <=? year)%Z then 105 # 100
  else 1%Q.

(** [s.replace('-', '').replace(' ', '')] *)
Definition squash (s : string) : string :=
  remove_char " " (remove_char "-" s).

Definition bestseller_matches (perfume_name bestseller : string) : bool :=
  let bestseller_name := replace_char " " "-" (lower bestseller) in
  contains (remove_char "-" bestseller_name) (squash perfume_name).

(** [None] when the lookup of the boost raises [KeyError]. *)
Definition bestseller_boost (cfg : config) (perfume_name : string) : option Q :=
  match true_bestsellers cfg with
  | None => Some 1%Q
  | Some bestsellers =>
      if existsb (bestseller_matches perfume_name) bestsellers
      then proven_bestsellers_boost cfg
      else Some 1%Q
  end.

Definition classic_matches (perfume_name classic : string) : bool :=
  contains (squash classic) (squash perfume_name).

Definition classic_boost (cfg : config) (perfume_name : string) : Q :=
  match classic_fragrances cfg with
  | None => 1%Q
  | Some (fragrances, manual_boost) =>
      if existsb (classic_matches perfume_name) fragrances
      then manual_boost
      else 1%Q
  end.

Definition parse_year (y : option Z) : Z :=
  match y with
  | Some y => if (0 <? y)%Z then y else 2000
  | None => 2000
  end.

Definition calculate_priority_score (r : row) (cfg : config) : R :=
  let rating := default 0%Q (Rating_Value r) in
  let reviews := default 0%Z (Rating_Count r) in
  let year := parse_year (Year r) in
  let brand := strip (lower (Brand r)) in
  let perfume_name := lower (Perfume r) in
  if (0 <? reviews)%Z && negb (Qle_bool rating 0) then
    let base_score := (Q2R rating * ln (IZR (reviews + 1)))%R in
    match bestseller_boost cfg perfume_name with
    | Some bestseller =>
        (base_score * Q2R (brand_boost cfg brand)
         * Q2R (recency_boost year) * Q2R bestseller
         * Q2R (classic_boost cfg perfume_name))%R
    | None => 0%R
    end
  else 0%R.

(** The identity fields of the dict [clean_fragrance_data] returns. *)
Record cleaned : Type := {
  id : string;
  brand_id : string;
  brand_name : string;
  name : string;
  slug : string;
  gender : string
}.

(** Case-insensitive match of a literal at the start of [s]
    ([re.escape(brand)] under [re.IGNORECASE]); returns what follows. *)
Fixpoint match_literal_ci (lit s : string) : option string :=
  match lit, s with
  | "", _ => Some s
  | String _ _, "" => None
  | String a lit', String b s' =>
      if Ascii.eqb (lower_char a) (lower_char b)
      then match_literal_ci lit' s'
      else None
  end.

(** [re.sub(rf'^{re.escape(brand)}\s*[-:]?\s*', '', name, flags=re.IGNORECASE)] *)
Definition remove_brand (brand name : string) : string :=
  match match_literal_ci brand name with
  | None => name
  | Some rest =>
      let rest1 := lstrip_by is_space rest in
      let rest2 :=
        match rest1 with
        | String c r => if Ascii.eqb c "-" || Ascii.eqb c ":" then r else rest1
        | "" => rest1
        end in
      lstrip_by is_space rest2
  end.

(** [re.sub(r'[^a-z0-9]+', '-', s.lower()).strip('-')] *)
Definition slugify (s : string) : string :=
  strip_hyphens (re_sub_runs nonalnum "-" false (lower s)).

Definition normalize_gender (g : string) : string :=
  let gender := strip (lower g) in
  if contains "women" gender && negb (contains "men" gender) then "women"
  else if contains "men" gender && negb (contains "women" gender) then "men"
  else "unisex".

Definition clean_fragrance_data (r : row) : cleaned :=
  let name := strip (Perfume r) in
  let brand := strip (Brand r) in
  let name_cleaned := remove_brand brand name in
  let name_cleaned := strip (re_sub_runs is_space " " false name_cleaned) in
  let gender_normalized := normalize_gender (Gender r) in
  let brand_id := slugify brand in
  let fragrance_slug := slugify name_cleaned in
  let fragrance_id := brand_id +:+ "__" +:+ fragrance_slug in
  {| id := fragrance_id;
     brand_id := brand_id;
     brand_name := brand;
     name := name_cleaned;
     slug := fragrance_slug;
     gender := gender_normalized |}.

(** A row with the given texts and no rating, review count or year. *)
Definition row_of (perfume brand gender : string) : row :=
  {| Perfume := perfume; Brand := brand; Gender := gender;
     Rating_Value := None; Rating_Count := None; Year := None |}.

(** A value agrees with [target] to two decimal places. *)
Definition to_2_places (x target : R) : Prop := (Rabs (x - target) < 5 / 1000)%R.

(** Neither the brand nor the perfume name matches anything in the
    configuration: no tier lists the brand, no bestseller and no classic
    matches the name. *)
Definition unboosted (cfg : config) (brand perfume_name : string) : Prop :=
  Forall (fun t => ~ In brand (brands t)) (tiers cfg)
  /\ (forall names, true_bestsellers cfg = Some names ->
        Forall (fun n => bestseller_matches perfume_name n = false) names)
  /\ (forall names boost, classic_fragrances cfg = Some (names, boost) ->
        Forall (fun c => classic_matches perfume_name c = false) names).

(** A rating or review count that is missing or zero. *)
Definition missing_or_zero_Q (q : option Q) : Prop :=
  match q with
  | None => True
  | Some q => (q == 0)%Q
  end.

Definition missing_or_zero_Z (z : option Z) : Prop :=
  match z with
  | None => True
  | Some z => z = 0%Z
  end.

(** The record of Scenario D and a configuration with no tier and no
    curated list. *)
Definition scenario_D : row :=
  {| Perfume := "Missing Person"; Brand := "phlur"; Gender := "unisex";
     Rating_Value := Some (42 # 10); Rating_Count := Some 850%Z;
     Year := Some 2024%Z |}.

Definition no_boosts : config :=
  {| tiers := []; true_bestsellers := None;
     proven_bestsellers_boost := None; classic_fragrances := None |}.

End KaggleProcessor.


(** ** [fragrantica_spider.py] *)

Module FragranticaSpider.

(** [normalize_gender], the scraper's version of the same normalisation. *)
Definition normalize_gender (gender_text : string) : string :=
  if String.eqb gender_text "" then "unisex"
  else
    let gender_lower := lower gender_text in
    if contains "women" gender_lower
       && negb (contains "men" (replace_sub "women" "" gender_lower))
    then "women"
    else if contains "men" gender_lower && negb (contains "women" gender_lower)
    then "men"
    else "unisex".

End FragranticaSpider.

(** ** Fixed-point arithmetic used to bound logarithms *)

Module FixedPoint.

(** Truncated repeated squaring in fixed point at scale [scale]. *)
Definition sq_down (scale c : Z) : Z := (c * c / scale)%Z.

Fixpoint iter_sq (m : nat) (scale c : Z) : Z :=
  match m with
  | O => c
  | S m' => iter_sq m' scale (sq_down scale c)
  end.

Definition scale30 : Z := (10 ^ 30)%Z.

End FixedPoint.
(** ** [fix_data_for_import.py] *)

Module FixDataForImport.

(** [record_quality_score], the local function of [remove_duplicates]. *)
Definition record_quality_score (r : record) : Z :=
  (if truthy (get r "rating_value") then 10 else 0)
  + (if truthy (get r "rating_count") then 10 else 0)
  + (if truthy (get r "top_notes") then 5 else 0)
  + (if truthy (get r "middle_notes") then 5 else 0)
  + (if truthy (get r "base_notes") then 5 else 0)
  + (if truthy (get r "perfumers") then 3 else 0)
  + (if truthy (get r "fragrantica_url") then 1 else 0).

(** The key of [id_groups[fragrance['id']]]: the lookup raises [KeyError]
    on a record without an id, hashing raises [TypeError] on a list. *)
Definition id_key (fragrance : record) : result value :=
  v ← getitem fragrance "id"; hashable v.

(** The body of the loop over [id_groups.items()]. *)
Definition best_of_group (group : list record) : result record :=
  match group with
  | [] => Raise ValueError
  | [r] => Ok r
  | r :: rest => Ok (max_by record_quality_score r rest)
  end.

Definition remove_duplicates (fragrances : list record) : result (list record) :=
  id_groups ← group_by py_eqb id_key fragrances [];
  mapM (fun kg => best_of_group (snd kg)) id_groups.

(** Records that have an id that can be hashed. *)
Definition has_id (r : record) : Prop :=
  exists v, r !! "id" = Some v /\ forall l, v <> VList l.

(** "Present", read literally: the field is there and is not null. *)
Definition present (v : value) : bool :=
  match v with
  | VNone => false
  | _ => true
  end.

(** The quality heuristic as the specification words it. *)
Definition stated_quality_score (r : record) : Z :=
  (if present (get r "rating_value") then 10 else 0)
  + (if present (get r "rating_count") then 10 else 0)
  + (if truthy (get r "top_notes") then 5 else 0)
  + (if truthy (get r "middle_notes") then 5 else 0)
  + (if truthy (get r "base_notes") then 5 else 0)
  + (if truthy (get r "perfumers") then 3 else 0)
  + (if present (get r "fragrantica_url") then 1 else 0).

Definition sauvage_plain : record :=
  rec_of [ ("id", VStr "dior__sauvage"); ("name", VStr "Sauvage") ].

Definition sauvage_zero_count : record :=
  <["rating_count" := num 0]> sauvage_plain.

(** Sample records. *)
Definition sauvage_rated : record :=
  rec_of [ ("id", VStr "dior__sauvage"); ("name", VStr "Sauvage");
           ("rating_value", num (42 # 10)); ("rating_count", num 19581) ].

Definition sauvage_unrated : record :=
  rec_of [ ("id", VStr "dior__sauvage"); ("name", VStr "Sauvage");
           ("rating_value", num (42 # 10)) ].

Definition aventus : record :=
  rec_of [ ("id", VStr "creed__aventus"); ("name", VStr "Aventus") ].

End FixDataForImport.

(** ** [fix_duplicate_names.py] *)

Module FixDuplicateNames.

Definition concentrations : list (string * string) :=
  [ ("eau-de-toilette", "EDT");
    ("eau-de-parfum", "EDP");
    ("parfum", "Parfum");
    ("extrait", "Extrait");
    ("cologne", "Cologne");
    ("eau-fraiche", "Eau Fraiche") ].

Definition version_words : list string :=
  [ "intense"; "extreme"; "absolu"; "noir"; "sport"; "aqua"; "fresh";
    "cologne"; "elixir" ].

(** [re.search(r'(19|20)\d{2}', s)]: the leftmost match, if any. *)
Fixpoint re_search_year (s : string) : option string :=
  match s with
  | "" => None
  | String a s' =>
      match s' with
      | String b (String c (String d _)) =>
          if ((Ascii.eqb a "1" && Ascii.eqb b "9")
              || (Ascii.eqb a "2" && Ascii.eqb b "0"))
             && is_digit c && is_digit d
          then Some (String a (String b (String c (String d ""))))
          else re_search_year s'
      | _ => None
      end
  end.

(** The three searches made on [name_part], in order. *)
Definition find_distinguisher (name_part : string) : option string :=
  match List.find (fun c => contains (fst c) name_part) concentrations with
  | Some (_, conc_name) => Some conc_name
  | None =>
      match re_search_year name_part with
      | Some year => Some year
      | None =>
          match List.find (fun word => contains word name_part) version_words with
          | Some word => Some (title word)
          | None => None
          end
      end
  end.

Section Formatting.

(** [str(v)] of a value that is not a string, as an f-string renders it.
    The rendering of numbers and lists is Python's own; the scripts only
    ever format names, which are strings. *)
Variable str_other : value -> string.

Definition format_value (v : value) : string :=
  match v with
  | VStr s => s
  | _ => str_other v
  end.

(** [distinguisher not in fixed['name']] *)
Definition not_in_name (distinguisher : string) (name : value) : result bool :=
  match name with
  | VStr s => Ok (negb (contains distinguisher s))
  | VList l => Ok (negb (existsb (String.eqb distinguisher) l))
  | _ => Raise TypeError
  end.

(** The body of [for i, fragrance in enumerate(group)]. *)
Definition fix_member (i : nat) (fragrance : record) : result record :=
  let fixed := fragrance in
  match get_default fragrance "id" (VStr "") with
  | VStr original_id =>
      match split_dunder original_id with
      | [brand_part; name_part] =>
          match find_distinguisher name_part with
          | Some distinguisher =>
              name ← getitem fixed "name";
              absent ← not_in_name distinguisher name;
              if (absent : bool)
              then Ok (<["name" := VStr (format_value name +:+ " " +:+ distinguisher)]> fixed)
              else Ok fixed
          | None =>
              if Nat.ltb 0 i then
                name ← getitem fixed "name";
                Ok (<["name" := VStr (format_value name +:+ " (" +:+ str_of_nat (i + 1) +:+ ")")]> fixed)
              else Ok fixed
          end
      | _ => Ok fixed
      end
  | _ => Raise AttributeError
  end.

(** The key [(fragrance.get('brand_id', ''), fragrance.get('name', ''))];
    hashing the tuple raises [TypeError] when a component is a list. *)
Definition name_key (fragrance : record) : result (value * value) :=
  b ← hashable (get_default fragrance "brand_id" (VStr ""));
  n ← hashable (get_default fragrance "name" (VStr ""));
  Ok (b, n).

Definition key_eqb (k1 k2 : value * value) : bool :=
  py_eqb (fst k1) (fst k2) && py_eqb (snd k1) (snd k2).

(** The body of the loop over [name_groups.items()]. *)
Definition fix_group (group : list record) : result (list record) :=
  match group with
  | [_] => Ok group
  | _ => mapM (fun p => fix_member (fst p) (snd p)) (enumerate_from 0 group)
  end.

(** The verification loop: how many records repeat the key of an earlier one. *)
Fixpoint count_remaining (final_keys : list (value * value)) (fixed : list record)
    : result nat :=
  match fixed with
  | [] => Ok 0
  | fragrance :: rest =>
      key ← name_key fragrance;
      if existsb (key_eqb key) final_keys
      then n ← count_remaining final_keys rest; Ok (S n)
      else count_remaining (key :: final_keys) rest
  end.

(** [fix_duplicate_names] on the list loaded from the input file; returns
    the list written to the output file and [remaining_duplicates]. *)
Definition fix_duplicate_names (fragrances : list record)
    : result (list record * nat) :=
  name_groups ← group_by key_eqb name_key fragrances [];
  fixed_groups ← mapM (fun kg => fix_group (snd kg)) name_groups;
  let fixed_fragrances := concat fixed_groups in
  remaining_duplicates ← count_remaining [] fixed_fragrances;
  Ok (fixed_fragrances, remaining_duplicates).

End Formatting.






(** Sample records. *)
Definition sauvage_edp : record :=
  rec_of [ ("id", VStr "dior__sauvage-eau-de-parfum");
           ("brand_id", VStr "dior"); ("name", VStr "Sauvage") ].

Definition sauvage_edp_2018 : record :=
  rec_of [ ("id", VStr "dior__sauvage-eau-de-parfum-2018");
           ("brand_id", VStr "dior"); ("name", VStr "Sauvage") ].



(** A rendering of non-string values for closed examples, which format none. *)
Definition no_repr (v : value) : string := "".

End FixDuplicateNames.

(** ** [04_database_importer.py] *)

Module DatabaseImporter.

Inductive validation_error : Type :=
| MissingRequired (field : string)
| MissingAccords
| InvalidGender (gender : value)
| InvalidRating (rating : value)
| InvalidPrice (price : value)
| IdFormatMismatch (id brand_id : string).

Definition required_fields : list string :=
  ["id"; "brand_id"; "name"; "slug"; "gender"].

Definition valid_genders : list value :=
  [VStr "men"; VStr "women"; VStr "unisex"].

(** [field not in fragrance or not fragrance[field]] *)
Definition missing (fragrance : record) (field : string) : bool :=
  match fragrance !! field with
  | None => true
  | Some v => negb (truthy v)
  end.

Definition check_required (fragrance : record) : list validation_error :=
  MissingRequired <$> List.filter (missing fragrance) required_fields.

Definition check_accords (fragrance : record) : list validation_error :=
  match fragrance !! "main_accords", fragrance !! "accords" with
  | None, None => [MissingAccords]
  | _, _ => []
  end.

Definition check_gender (fragrance : record) : list validation_error :=
  match fragrance !! "gender" with
  | Some g => if existsb (py_eqb g) valid_genders then [] else [InvalidGender g]
  | None => []
  end.

(** [not (lo <= v <= hi)]; ordering a string or a list against a number
    raises [TypeError]. *)
Definition out_of_range (lo hi : Q) (v : value) : result bool :=
  match v with
  | VNum q => Ok (negb (Qle_bool lo q && Qle_bool q hi))
  | _ => Raise TypeError
  end.

Definition check_range (field : string) (lo hi : Q)
    (err : value -> validation_error) (fragrance : record)
    : result (list validation_error) :=
  match fragrance !! field with
  | None | Some VNone => Ok []
  | Some v => bad ← out_of_range lo hi v; Ok (if (bad : bool) then [err v] else [])
  end.

(** [fragrance['id'].startswith(fragrance['brand_id'] + '__')] *)
Definition check_id_format (fragrance : record) : result (list validation_error) :=
  match fragrance !! "id", fragrance !! "brand_id" with
  | Some i, Some b =>
      match i with
      | VStr id =>
          match b with
          | VStr brand_id =>
              Ok (if startswith (brand_id +:+ "__") id then []
                  else [IdFormatMismatch id brand_id])
          | _ => Raise TypeError
          end
      | _ => Raise AttributeError
      end
  | _, _ => Ok []
  end.

Definition validate_fragrance_data (fragrance : record)
    : result (bool * list validation_error) :=
  let errors := (check_required fragrance ++ check_accords fragrance
                 ++ check_gender fragrance)%list in
  e_rating ← check_range "rating_value" 0 5 InvalidRating fragrance;
  let errors := (errors ++ e_rating)%list in
  e_price ← check_range "sample_price_usd" 0 100 InvalidPrice fragrance;
  let errors := (errors ++ e_price)%list in
  e_id ← check_id_format fragrance;
  let errors := (errors ++ e_id)%list in
  Ok (Nat.eqb (length errors) 0, errors).

(** The constraints the validator checks, one per kind of error. *)
Inductive constraint : Type :=
| CRequired (field : string)
| CAccords
| CGender
| CRating
| CPrice
| CIdFormat.

Definition in_range_Q (lo hi : Q) (q : Qc) : Prop := (lo <= q)%Q /\ (q <= hi)%Q.

(** When a record violates a constraint. *)
Definition violated (f : record) (c : constraint) : Prop :=
  match c with
  | CRequired field =>
      In field required_fields
      /\ (f !! field = None \/ exists v, f !! field = Some v /\ truthy v = false)
  | CAccords => f !! "accords" = None /\ f !! "main_accords" = None
  | CGender =>
      exists g, f !! "gender" = Some g
                /\ g <> VStr "men" /\ g <> VStr "women" /\ g <> VStr "unisex"
  | CRating =>
      exists q, f !! "rating_value" = Some (VNum q) /\ ~ in_range_Q 0 5 q
  | CPrice =>
      exists q, f !! "sample_price_usd" = Some (VNum q) /\ ~ in_range_Q 0 100 q
  | CIdFormat =>
      exists id brand_id,
        f !! "id" = Some (VStr id) /\ f !! "brand_id" = Some (VStr brand_id)
        /\ startswith (brand_id +:+ "__") id = false
  end.

(** The constraint an error reports. *)
Definition constraint_of (e : validation_error) : constraint :=
  match e with
  | MissingRequired field => CRequired field
  | MissingAccords => CAccords
  | InvalidGender _ => CGender
  | InvalidRating _ => CRating
  | InvalidPrice _ => CPrice
  | IdFormatMismatch _ _ => CIdFormat
  end.

(** Records whose optional numeric fields are numbers or [None] and whose
    [id] and [brand_id] are strings: on these the validator raises nothing. *)
Definition numeric_or_none (f : record) (field : string) : Prop :=
  match f !! field with
  | None | Some VNone | Some (VNum _) => True
  | _ => False
  end.

Definition string_or_absent (f : record) (field : string) : Prop :=
  match f !! field with
  | None | Some (VStr _) => True
  | _ => False
  end.

Definition well_typed (f : record) : Prop :=
  numeric_or_none f "rating_value" /\ numeric_or_none f "sample_price_usd"
  /\ string_or_absent f "id" /\ string_or_absent f "brand_id".

(** The record [test_11_data_validation_functions] expects to be valid. *)
Definition test_valid_fragrance : record :=
  rec_of [ ("id", VStr "test-validation-brand__valid_fragrance");
           ("brand_id", VStr "test-validation-brand");
           ("name", VStr "Valid Test Fragrance");
           ("slug", VStr "valid-test-fragrance");
           ("gender", VStr "men");
           ("main_accords", VList ["woody"; "spicy"]);
           ("rating_value", num (42 # 10));
           ("rating_count", num 150) ].

(** A record with three violations: no [gender], a rating of 7.0, and an
    [id] that does not start with the [brand_id]. *)
Definition three_violations : record :=
  rec_of [ ("id", VStr "chanel__sauvage");
           ("brand_id", VStr "dior");
           ("name", VStr "Sauvage");
           ("slug", VStr "sauvage");
           ("accords", VList []);
           ("rating_value", num 7) ].

(** A record that is valid in every respect except that it has neither an
    [accords] nor a [main_accords] key. *)
Definition no_accords_key : record :=
  rec_of [ ("id", VStr "dior__sauvage");
           ("brand_id", VStr "dior");
           ("name", VStr "Sauvage");
           ("slug", VStr "sauvage");
           ("gender", VStr "men") ].

(** What [requests.post] yields: a response with a status code, or an
    exception. *)
Inductive response : Type :=
| Status (status_code : Z)
| RequestException.

Definition batch_size : nat := 100.

(** [range(0, n, step)] *)
Definition range_step (n step : nat) : list nat :=
  (fun k => k * step) <$> seq 0 ((n + step - 1) / step).

(** [records[i:i + self.batch_size]] *)
Definition slice (records : list record) (i : nat) : list record :=
  take batch_size (drop i records).

(** The batches of a record list: the slices at 0, 100, 200, ... *)
Definition batches (records : list record) : list (list record) :=
  slice records <$> range_step (length records) batch_size.

Definition accepted (resp : response) : bool :=
  match resp with
  | Status code => (code =? 200)%Z || (code =? 201)%Z
  | RequestException => false
  end.

Section Store.

(** The Store behind the REST endpoint: a state and the effect of one POST
    of a batch to a table. *)
Context {store : Type}.
Variable post : store -> string -> list record -> store * response.

(** The state of the loop of [batch_upsert]: the Store, [inserted], and the
    log, one entry per request made: its body and what came back (the code
    logs one line per batch, success or failure). *)
Definition upsert_batch_at (table : string) (records : list record)
    (st : store * nat * list (list record * response)) (i : nat)
    : store * nat * list (list record * response) :=
  let '(s, inserted, log) := st in
  let batch := slice records i in
  let '(s', resp) := post s table batch in
  let inserted' :=
    if accepted resp then inserted + length batch else inserted in
  (s', inserted', (log ++ [(batch, resp)])%list).

(** Returns the Store after the run, the pair [(inserted, updated)], and the
    log. *)
Definition batch_upsert (s : store) (table : string) (records : list record)
    : store * (nat * nat) * list (list record * response) :=
  match records with
  | [] => (s, (0, 0), [])
  | _ =>
      let '(s', inserted, log) :=
        fold_left (upsert_batch_at table records)
                  (range_step (length records) batch_size) (s, 0, []) in
      (s', (inserted, 0), log)
  end.

(** Posting each batch of a list exactly once, in order, whatever the
    responses: the Store afterwards and the responses. *)
Fixpoint post_each (s : store) (table : string) (batches : list (list record))
    : store * list response :=
  match batches with
  | [] => (s, [])
  | batch :: rest =>
      let '(s1, resp) := post s table batch in
      let '(s2, resps) := post_each s1 table rest in
      (s2, resp :: resps)
  end.

End Store.

(** The number of records in the batches of a log that were accepted. *)
Definition accepted_count (log : list (list record * response)) : nat :=
  list_sum ((fun e => if accepted (snd e) then length (fst e) else 0) <$> log).

(** A Store that records every body it receives and answers by a fixed
    policy on the number of requests seen so far. *)
Definition recording_post (policy : nat -> response)
    (s : list (list record)) (table : string) (batch : list record)
    : list (list record) * response :=
  ((s ++ [batch])%list, policy (length s)).

(** A policy that fails the second request only. *)
Definition fail_second (n : nat) : response :=
  if Nat.eqb n 1 then Status 500 else Status 201.

End DatabaseImporter.

(** ** [04_database_importer.py]: brand validation, transformation and
       the import run *)

Module ImportRun.
Import DatabaseImporter.

Inductive brand_error : Type :=
| BrandMissingRequired (field : string)
| InvalidBrandTier (tier : value)
| InvalidAvailabilityScore (score : value).

Definition brand_required_fields : list string := ["id"; "name"; "slug"].

Definition valid_tiers : list value :=
  [VStr "luxury"; VStr "premium"; VStr "designer"; VStr "mass";
   VStr "niche"; VStr "celebrity"].

Definition check_brand_required (brand : record) : list brand_error :=
  BrandMissingRequired <$> List.filter (missing brand) brand_required_fields.

Definition check_brand_tier (brand : record) : list brand_error :=
  match brand !! "brand_tier" with
  | None | Some VNone => []
  | Some tier =>
      if existsb (py_eqb tier) valid_tiers then [] else [InvalidBrandTier tier]
  end.

Definition check_availability (brand : record) : result (list brand_error) :=
  match brand !! "sample_availability_score" with
  | None | Some VNone => Ok []
  | Some score =>
      bad ← out_of_range 0 100 score;
      Ok (if (bad : bool) then [InvalidAvailabilityScore score] else [])
  end.

Definition validate_brand_data (brand : record)
    : result (bool * list brand_error) :=
  let errors := (check_brand_required brand ++ check_brand_tier brand)%list in
  e_score ← check_availability brand;
  let errors := (errors ++ e_score)%list in
  Ok (Nat.eqb (length errors) 0, errors).

(** [if old in d and new not in d: d[new] = d[old]; del d[old]] *)
Definition rename_key (old new : string) (d : record) : record :=
  match d !! old, d !! new with
  | Some v, None => delete old (<[new := v]> d)
  | _, _ => d
  end.

(** [if k not in d: d[k] = v] *)
Definition set_default (k : string) (v : value) (d : record) : record :=
  match d !! k with
  | None => <[k := v]> d
  | Some _ => d
  end.

Definition perfected_fields : list string :=
  [ "concentration"; "enhanced_description"; "brand_tier"; "bayesian_rating";
    "full_bottle_price"; "retail_price"; "discount_percent"; "price_per_ml";
    "format_version" ].

(** The loop over [perfected_fields]. *)
Definition keep_perfected (fragrance db : record) : record :=
  fold_left
    (fun db field =>
       match fragrance !! field, db !! field with
       | Some v, None => <[field := v]> db
       | _, _ => db
       end)
    perfected_fields db.

(** [s.split(',')]; [cur] is the piece being read, reversed. *)
Fixpoint split_comma_aux (cur : string) (s : string) : list string :=
  match s with
  | "" => [rev_str "" cur]
  | String c s' =>
      if Ascii.eqb c ","
      then rev_str "" cur :: split_comma_aux "" s'
      else split_comma_aux (String c cur) s'
  end.

Definition split_comma (s : string) : list string := split_comma_aux "" s.

(** [[note.strip() for note in s.split(',') if note.strip()]] *)
Definition notes_of_string (s : string) : list string :=
  List.filter (fun note => negb (String.eqb note ""))
              (strip <$> split_comma s).

Definition not_comma (c : ascii) : bool := negb (Ascii.eqb c ",").

(** [if field in d and isinstance(d[field], str): d[field] = [...]] *)
Definition notes_to_list (field : string) (d : record) : record :=
  match d !! field with
  | Some (VStr s) => <[field := VList (notes_of_string s)]> d
  | _ => d
  end.

Definition perfumers_to_list (d : record) : record :=
  match d !! "perfumers" with
  | Some (VStr s) => <["perfumers" := VList [s]]> d
  | _ => d
  end.

Definition transform_fragrance_for_db (fragrance : record) : record :=
  let db := fragrance in
  let db := rename_key "accords" "main_accords" db in
  let db := rename_key "year" "launch_year" db in
  let db := rename_key "priority_score" "popularity_score" db in
  let db := delete "brand_name" db in
  let db := set_default "sample_available" (num 1) db in
  let db := set_default "data_source" (VStr "hybrid_pipeline") db in
  let db := set_default "is_verified" (num 1) db in
  let db := keep_perfected fragrance db in
  let db := notes_to_list "top_notes" db in
  let db := notes_to_list "middle_notes" db in
  let db := notes_to_list "base_notes" db in
  perfumers_to_list db.

(** The record just before the loop over the perfected fields. *)
Definition before_perfected (f : record) : record :=
  set_default "is_verified" (num 1)
    (set_default "data_source" (VStr "hybrid_pipeline")
       (set_default "sample_available" (num 1)
          (delete "brand_name"
             (rename_key "priority_score" "popularity_score"
                (rename_key "year" "launch_year"
                   (rename_key "accords" "main_accords" f)))))).

(** The keys [transform_fragrance_for_db] may write or delete. *)
Definition transform_keys : list string :=
  [ "accords"; "main_accords"; "year"; "launch_year"; "priority_score";
    "popularity_score"; "brand_name"; "sample_available"; "data_source";
    "is_verified"; "top_notes"; "middle_notes"; "base_notes"; "perfumers" ].

(** [isinstance(d.get(k), str)] *)
Definition is_string (v : option value) : bool :=
  match v with
  | Some (VStr _) => true
  | _ => false
  end.

(** What the GET of [check_existing_records] yields: a response with a
    status code and a JSON body, a list of objects, or an exception (a body
    of another shape makes the set comprehension raise, which the code
    treats like any other exception). *)
Inductive query_response : Type :=
| QueryStatus (status_code : Z) (body : list record)
| QueryException.

(** [{record['id'] for record in existing_records}], as the list of its
    members; a record without id or with an unhashable id raises. *)
Definition ids_of_body (body : list record) : result (list value) :=
  mapM (fun r => v ← getitem r "id"; hashable v) body.

(** The counters of [self.import_stats]. *)
Record import_stats : Type := {
  brands_processed : nat;
  brands_imported : nat;
  brands_skipped : nat;
  fragrances_processed : nat;
  fragrances_imported : nat;
  fragrances_skipped : nat;
  duplicates_detected : nat;
  validation_errors : nat
}.

Definition zero_stats : import_stats :=
  {| brands_processed := 0; brands_imported := 0; brands_skipped := 0;
     fragrances_processed := 0; fragrances_imported := 0;
     fragrances_skipped := 0; duplicates_detected := 0;
     validation_errors := 0 |}.

Definition count_processed (st : import_stats) : import_stats :=
  {| brands_processed := brands_processed st;
     brands_imported := brands_imported st;
     brands_skipped := brands_skipped st;
     fragrances_processed := fragrances_processed st + 1;
     fragrances_imported := fragrances_imported st;
     fragrances_skipped := fragrances_skipped st;
     duplicates_detected := duplicates_detected st;
     validation_errors := validation_errors st |}.

Definition count_validation_error (st : import_stats) : import_stats :=
  {| brands_processed := brands_processed st;
     brands_imported := brands_imported st;
     brands_skipped := brands_skipped st;
     fragrances_processed := fragrances_processed st;
     fragrances_imported := fragrances_imported st;
     fragrances_skipped := fragrances_skipped st;
     duplicates_detected := duplicates_detected st;
     validation_errors := validation_errors st + 1 |}.

Definition count_skipped (st : import_stats) : import_stats :=
  {| brands_processed := brands_processed st;
     brands_imported := brands_imported st;
     brands_skipped := brands_skipped st;
     fragrances_processed := fragrances_processed st;
     fragrances_imported := fragrances_imported st;
     fragrances_skipped := fragrances_skipped st + 1;
     duplicates_detected := duplicates_detected st + 1;
     validation_errors := validation_errors st |}.

Definition set_imported (inserted : nat) (st : import_stats) : import_stats :=
  {| brands_processed := brands_processed st;
     brands_imported := brands_imported st;
     brands_skipped := brands_skipped st;
     fragrances_processed := fragrances_processed st;
     fragrances_imported := inserted;
     fragrances_skipped := fragrances_skipped st;
     duplicates_detected := duplicates_detected st;
     validation_errors := validation_errors st |}.

(** The first loop of [import_fragrances]: validate and transform. *)
Fixpoint validate_and_transform (data : list record) (st : import_stats)
    (valid_fragrances : list record) : result (import_stats * list record) :=
  match data with
  | [] => Ok (st, valid_fragrances)
  | fragrance :: rest =>
      let st := count_processed st in
      r ← validate_fragrance_data fragrance;
      if (fst r : bool)
      then validate_and_transform rest st
             (valid_fragrances ++ [transform_fragrance_for_db fragrance])%list
      else validate_and_transform rest (count_validation_error st)
             valid_fragrances
  end.

(** The second loop: leave out what the Store already has. *)
Fixpoint filter_existing (existing : list value) (valid : list record)
    (st : import_stats) (new_fragrances : list record)
    : result (import_stats * list record) :=
  match valid with
  | [] => Ok (st, new_fragrances)
  | fragrance :: rest =>
      i ← getitem fragrance "id";
      k ← hashable i;
      if existsb (py_eqb k) existing
      then filter_existing existing rest (count_skipped st) new_fragrances
      else filter_existing existing rest st (new_fragrances ++ [fragrance])%list
  end.

(** The validator returns and accepts. *)
Definition is_accepted (fragrance : record) : bool :=
  match validate_fragrance_data fragrance with
  | Ok (ok, _) => ok
  | Raise _ => false
  end.

(** The id of a record is among the existing ones. *)
Definition known (existing : list value) (fragrance : record) : bool :=
  match fragrance !! "id" with
  | Some i => existsb (py_eqb i) existing
  | None => false
  end.

Section Store.

Context {store : Type}.
Variable post : store -> string -> list record -> store * response.
Variable query : store -> string -> list value -> store * query_response.

Definition check_existing_records (s : store) (table : string)
    (ids : list value) : store * list value :=
  match ids with
  | [] => (s, [])
  | _ =>
      let '(s', resp) := query s table ids in
      match resp with
      | QueryStatus code body =>
          if (code =? 200)%Z then
            match ids_of_body body with
            | Ok existing => (s', existing)
            | Raise _ => (s', [])
            end
          else (s', [])
      | QueryException => (s', [])
      end
  end.

(** Returns the Store and the counters after the run, the returned
    [len(new_fragrances)], and the log of the POST requests made. *)
Definition import_fragrances (s : store) (st : import_stats)
    (fragrances_data : list record)
    : result (store * import_stats * nat * list (list record * response)) :=
  v ← validate_and_transform fragrances_data st [];
  let '(st, valid_fragrances) := v in
  fragrance_ids ← mapM (fun frag => getitem frag "id") valid_fragrances;
  let '(s, existing) := check_existing_records s "fragrances" fragrance_ids in
  n ← filter_existing existing valid_fragrances st [];
  let '(st, new_fragrances) := n in
  match new_fragrances with
  | [] => Ok (s, st, 0, [])
  | _ =>
      let '(s, (inserted, _), log) :=
        batch_upsert post s "fragrances" new_fragrances in
      Ok (s, set_imported inserted st, length new_fragrances, log)
  end.

End Store.

(** A Store holding the ids it has: it answers a query with the records
    whose id it holds and accepts every POST. *)
Definition holding_query (s : list value) (table : string) (ids : list value)
    : list value * query_response :=
  (s, QueryStatus 200
        ((fun i => rec_of [("id", i)])
           <$> List.filter (fun i => existsb (py_eqb i) s) ids)).

Definition holding_post (s : list value) (table : string)
    (batch : list record) : list value * response :=
  ((s ++ ((fun r => get r "id") <$> batch))%list, Status 201).

(** Three records for a run: one valid and new, one with three violations,
    one valid whose id the Store already holds. *)
Definition import_sample : list record :=
  [ test_valid_fragrance; three_violations;
    <["accords" := VList []]> no_accords_key ].

Definition import_sample_store : list value := [VStr "dior__sauvage"].

End ImportRun.
(** ** [fix_data_for_import.py]: normalisation, repair and the steps of [main] *)

Module FixDataSteps.
Import FixDataForImport.

(** The first match of [brand_name] / [brand] / [brand_id] and of
    [accords] / [main_accords]: [d[k1]] if [k1 in d], else [d[k2]] if
    [k2 in d], else the default. *)
Definition first_of (d : record) (k1 k2 : string) (dflt : value) : value :=
  match d !! k1 with
  | Some v => v
  | None => get_default d k2 dflt
  end.

(** [x or 0] *)
Definition or_zero (v : value) : value := if truthy v then v else num 0.

(** A number of magnitude at most [10^300].  Within this range neither
    [rating * 10], nor [reviews / 1000], nor their sum leaves the doubles,
    whether the number is an [int] or a [float]; on an [int] beyond the
    range of a double Python raises [OverflowError], which the arithmetic
    on exact numbers below does not show. *)
Definition in_float_range (v : value) : Prop :=
  match v with
  | VNum q =>
      (inject_Z (- 10 ^ 300) <= q)%Q /\ (q <= inject_Z (10 ^ 300))%Q
  | _ => True
  end.

(** [rating * 10 + (reviews / 1000)]: the division raises [TypeError] on
    anything but a number, and so does adding its result to the repetition
    of a string or a list.  The numbers are exact: what is said of this
    function is said for numbers [in_float_range]. *)
Definition basic_priority (rating reviews : value) : result value :=
  match rating, reviews with
  | VNum a, VNum b => Ok (VNum (a * Q2Qc 10 + b / Q2Qc 1000))
  | _, _ => Raise TypeError
  end.

Definition priority_of (fragrance : record) : result value :=
  match fragrance !! "priority_score" with
  | Some v => Ok v
  | None =>
      match fragrance !! "popularity_score" with
      | Some v => Ok v
      | None =>
          let rating := or_zero (get_default fragrance "rating_value" (num 0)) in
          let reviews := or_zero (get_default fragrance "rating_count" (num 0)) in
          basic_priority rating reviews
      end
  end.

(** The items of [normalized], in the order of their insertion; nothing
    but the priority score can raise. *)
Definition normalized_items (fragrance : record) (priority : value)
    : list (string * value) :=
  [ ("id", get_default fragrance "id" (VStr ""));
    ("brand_id", get_default fragrance "brand_id" (VStr ""));
    ("name", get_default fragrance "name" (VStr ""));
    ("slug", get_default fragrance "slug" (VStr ""));
    ("gender", get_default fragrance "gender" (VStr "unisex"));
    ("brand_name",
       match fragrance !! "brand_name" with
       | Some v => v
       | None => first_of fragrance "brand" "brand_id" (VStr "")
       end);
    ("accords", first_of fragrance "accords" "main_accords" (VList []));
    ("top_notes", get_default fragrance "top_notes" (VStr ""));
    ("middle_notes", get_default fragrance "middle_notes" (VStr ""));
    ("base_notes", get_default fragrance "base_notes" (VStr ""));
    ("perfumers", get_default fragrance "perfumers" (VList []));
    ("rating_value", get fragrance "rating_value");
    ("rating_count", get fragrance "rating_count");
    ("year", get fragrance "year");
    ("priority_score", priority);
    ("sample_available", get_default fragrance "sample_available" (num 1));
    ("sample_price_usd", get_default fragrance "sample_price_usd" (num 15));
    ("fragrantica_url", get_default fragrance "fragrantica_url" (VStr "")) ].

Definition normalize_fragrance_record (fragrance : record) : result record :=
  priority ← priority_of fragrance;
  Ok (rec_of (normalized_items fragrance priority)).

(** The value a dict built from a list of items has at a key; the items
    here have distinct keys. *)
Fixpoint assoc (k : string) (items : list (string * value)) : option value :=
  match items with
  | [] => None
  | (k', v) :: rest => if String.eqb k k' then Some v else assoc k rest
  end.

(** A value on which [x or 0] is a number. *)
Definition number_or_falsy (v : value) : bool :=
  match v with
  | VNum _ => true
  | _ => negb (truthy v)
  end.

(** The keys of a normalized record. *)
Definition normalized_keys : list string :=
  [ "id"; "brand_id"; "name"; "slug"; "gender"; "brand_name"; "accords";
    "top_notes"; "middle_notes"; "base_notes"; "perfumers"; "rating_value";
    "rating_count"; "year"; "priority_score"; "sample_available";
    "sample_price_usd"; "fragrantica_url" ].

(** [v.split('__')] and [v.lower().replace(' ', '-')]: only a string has
    these methods. *)
Definition split_of (v : value) : result (list string) :=
  match v with
  | VStr s => Ok (PyStr.split_dunder s)
  | _ => Raise AttributeError
  end.

Definition slug_of_name (v : value) : result value :=
  match v with
  | VStr s => Ok (VStr (PyStr.replace_char " " "-" (PyStr.lower s)))
  | _ => Raise AttributeError
  end.

(** The name recovered from the id: [Some None] stands for [continue]. *)
Definition fix_name (fragrance : record) : result (option record) :=
  if negb (truthy (get fragrance "name")) && truthy (get fragrance "id") then
    v ← getitem fragrance "id";
    id_parts ← split_of v;
    match id_parts with
    | [brand_part; name_part] =>
        if negb (String.eqb name_part "") then
          Ok (Some (<["slug" := VStr name_part]>
                      (<["name" := VStr name_part]> fragrance)))
        else Ok None
    | _ => Ok (Some fragrance)
    end
  else Ok (Some fragrance).

Definition fix_slug (fragrance : record) : result record :=
  if negb (truthy (get fragrance "slug")) && truthy (get fragrance "name") then
    v ← getitem fragrance "name";
    slug ← slug_of_name v;
    Ok (<["slug" := slug]> fragrance)
  else Ok fragrance.

(** The body of the loop of [fix_validation_errors]: [None] when the record
    is skipped. *)
Definition fix_record (fragrance : record) : result (option record) :=
  if negb (truthy (get fragrance "name")) && negb (truthy (get fragrance "id"))
  then Ok None
  else
    named ← fix_name fragrance;
    match named with
    | None => Ok None
    | Some fragrance => r ← fix_slug fragrance; Ok (Some r)
    end.

(** What the body of the loop does to one record. *)
Definition record_repaired (r : record) (o : option record) : Prop :=
  match o with
  | None =>
      truthy (get r "name") = false
      /\ (truthy (get r "id") = false
          \/ exists s brand_part,
               r !! "id" = Some (VStr s)
               /\ PyStr.split_dunder s = [brand_part; ""])
  | Some r' =>
      (forall k, k <> "name" -> k <> "slug" -> r' !! k = r !! k)
      /\ (forall k, is_Some (r !! k) -> is_Some (r' !! k))
      /\ (truthy (get r' "name") = true -> truthy (get r' "slug") = true)
      /\ (truthy (get r "name") = true -> r' !! "name" = r !! "name")
      /\ (truthy (get r "name") = false ->
          exists s,
            r !! "id" = Some (VStr s) /\ s <> ""
            /\ match PyStr.split_dunder s with
               | [brand_part; name_part] =>
                   name_part <> ""
                   /\ r' = <["slug" := VStr name_part]>
                             (<["name" := VStr name_part]> r)
               | _ => r' = r
               end)
  end.

Fixpoint fix_validation_errors (fragrances : list record)
    : result (list record) :=
  match fragrances with
  | [] => Ok []
  | fragrance :: rest =>
      fixed ← fix_record fragrance;
      fixed_rest ← fix_validation_errors rest;
      Ok (match fixed with
          | Some r => r :: fixed_rest
          | None => fixed_rest
          end)
  end.

(** Steps 1 to 3 of [main], between loading the input file and saving the
    output file. *)
Definition main_steps (fragrances : list record) : result (list record) :=
  normalized_fragrances ← mapM normalize_fragrance_record fragrances;
  deduplicated_fragrances ← remove_duplicates normalized_fragrances;
  fix_validation_errors deduplicated_fragrances.

(** The distinct members of a list of ids, in the order of their first
    occurrence. *)
Fixpoint first_ids (ids : list value) : list value :=
  match ids with
  | [] => []
  | v :: rest => v :: List.filter (fun w => negb (py_eqb w v)) (first_ids rest)
  end.

(** A record to which the loop has nothing to do, or cannot do anything
    but skip it. *)
Definition string_or_falsy (v : value) : bool :=
  match v with
  | VStr _ => true
  | _ => negb (truthy v)
  end.

Definition repairable (r : record) : bool :=
  if truthy (get r "name")
  then truthy (get r "slug") || string_or_falsy (get r "name")
  else string_or_falsy (get r "id").

(** A record without a name whose id has no separator. *)
Definition no_separator : record :=
  rec_of [ ("id", VStr "sauvage"); ("name", VStr "") ].

(** A record as the Kaggle export has it, without a name but with an id. *)
Definition nameless : record :=
  rec_of [ ("id", VStr "dior__sauvage"); ("brand_id", VStr "dior");
           ("name", VStr "") ].

End FixDataSteps.
(** ** [kaggle_processor.py]: sample price and the brand table of [main] *)

Module KaggleMain.

(** The letter [è], code point 232. *)
Definition e_grave : ascii := ascii_of_nat 232.

Definition luxury_brands : list string :=
  [ "dior"; "chanel"; "tom-ford"; "creed"; "herm" +:+ String e_grave "s" ].

(** [sample_price] as [clean_fragrance_data] computes it; a missing
    rating counts as 3.0. *)
Definition sample_price (r : KaggleProcessor.row) : Z :=
  let rating := default (3 : Q) (KaggleProcessor.Rating_Value r) in
  let brand_id := KaggleProcessor.brand_id (KaggleProcessor.clean_fragrance_data r) in
  if existsb (String.eqb brand_id) luxury_brands then 20
  else if Qle_bool (45 # 10) rating then 18
  else if Qle_bool 4 rating then 16
  else 15.

(** A configuration all of whose multipliers are positive. *)
Definition positive_boosts (cfg : KaggleProcessor.config) : Prop :=
  Forall (fun t => (0 < KaggleProcessor.boost_multiplier t)%Q)
         (KaggleProcessor.tiers cfg)
  /\ (forall b, KaggleProcessor.proven_bestsellers_boost cfg = Some b ->
                (0 < b)%Q)
  /\ (forall names b,
        KaggleProcessor.classic_fragrances cfg = Some (names, b) -> (0 < b)%Q).

(** A configuration with one tier, one bestseller and one classic. *)
Definition sample_config : KaggleProcessor.config :=
  {| KaggleProcessor.tiers :=
       [ {| KaggleProcessor.brands := ["dior"; "chanel"];
            KaggleProcessor.boost_multiplier := 15 # 10 |} ];
     KaggleProcessor.true_bestsellers := Some ["Sauvage"];
     KaggleProcessor.proven_bestsellers_boost := Some (2 # 1);
     KaggleProcessor.classic_fragrances := Some (["chanel no 5"], 13 # 10) |}.

(** The same row with another review count. *)
Definition with_reviews (r : KaggleProcessor.row) (reviews : Z)
    : KaggleProcessor.row :=
  {| KaggleProcessor.Perfume := KaggleProcessor.Perfume r;
     KaggleProcessor.Brand := KaggleProcessor.Brand r;
     KaggleProcessor.Gender := KaggleProcessor.Gender r;
     KaggleProcessor.Rating_Value := KaggleProcessor.Rating_Value r;
     KaggleProcessor.Rating_Count := Some reviews;
     KaggleProcessor.Year := KaggleProcessor.Year r |}.

(** An entry of [brand_data]. *)
Record brand : Type := {
  id : string;
  name : string;
  slug : string;
  fragrance_count : nat
}.

(** [brand_data[brand_id]['fragrance_count'] += 1] *)
Definition increment (brand_id : string) (brand_data : list (string * brand))
    : list (string * brand) :=
  map (fun kv =>
         if String.eqb (fst kv) brand_id
         then (fst kv,
               {| id := id (snd kv); name := name (snd kv);
                  slug := slug (snd kv);
                  fragrance_count := S (fragrance_count (snd kv)) |})
         else kv)
      brand_data.

(** [brand_id in brand_data] *)
Definition tracked (brand_id : string) (brand_data : list (string * brand))
    : bool :=
  existsb (fun kv => String.eqb (fst kv) brand_id) brand_data.

(** The brand tracking of one iteration of the loop of [main];
    [brand_data] keeps its keys in the order of their insertion. *)
Definition track_brand (brand_data : list (string * brand))
    (cleaned : KaggleProcessor.cleaned) : list (string * brand) :=
  let brand_id := KaggleProcessor.brand_id cleaned in
  let brand_data :=
    if tracked brand_id brand_data then brand_data
    else (brand_data
          ++ [(brand_id,
               {| id := brand_id;
                  name := KaggleProcessor.brand_name cleaned;
                  slug := brand_id;
                  fragrance_count := 0 |})])%list in
  increment brand_id brand_data.

(** The loop over the selected rows: [cleaned_data] and [brand_data]. *)
Definition clean_rows (rows : list KaggleProcessor.row)
    : list KaggleProcessor.cleaned * list (string * brand) :=
  let cleaned_data := map KaggleProcessor.clean_fragrance_data rows in
  (cleaned_data, fold_left track_brand cleaned_data []).

(** The records of a brand among the cleaned records. *)
Definition of_brand (brand_id : string) (c : KaggleProcessor.cleaned) : bool :=
  String.eqb (KaggleProcessor.brand_id c) brand_id.

(** The brand table after the records [done]: one entry per brand id, in
    the order of first appearance, counting the records of the brand and
    named after the first of them. *)
Definition table_of (done : list KaggleProcessor.cleaned)
    (brand_data : list (string * brand)) : Prop :=
  List.NoDup (map fst brand_data)
  /\ (forall k e, In (k, e) brand_data ->
        id e = k /\ slug e = k
        /\ fragrance_count e = length (List.filter (of_brand k) done)
        /\ exists c, head (List.filter (of_brand k) done) = Some c
                     /\ name e = KaggleProcessor.brand_name c)
  /\ (forall c, In c done ->
        In (KaggleProcessor.brand_id c) (map fst brand_data))
  /\ list_sum (map (fun kv => fragrance_count (snd kv)) brand_data)
     = length done.

End KaggleMain.
(** ** [04_database_importer.py]: [transform_brand_for_db] *)

Module BrandTransform.
Import DatabaseImporter ImportRun.

Definition prestige_scores : list (string * Q) :=
  [ ("luxury", 120 # 100); ("premium", 115 # 100); ("niche", 118 # 100);
    ("designer", 110 # 100); ("celebrity", 95 # 100); ("mass", 1%Q) ].

(** [prestige_scores.get(tier, 1.0)]: looking up a list raises
    [TypeError]; nothing but a string is a key of the table. *)
Definition prestige_of (tier : value) : result value :=
  match tier with
  | VList _ => Raise TypeError
  | VStr s =>
      Ok (num (match List.find (fun kv => String.eqb (fst kv) s)
                               prestige_scores with
               | Some kv => snd kv
               | None => 1%Q
               end))
  | _ => Ok (num 1)
  end.

Section Title.

(** [str.title], which the transformation applies to the name of a brand
    that has no display name. *)
Variable str_title : string -> string.

(** [v.title()]: only a string has the method. *)
Definition title_of (v : value) : result value :=
  match v with
  | VStr s => Ok (VStr (str_title s))
  | _ => Raise AttributeError
  end.

Definition display_name (brand db_brand : record) : result record :=
  match db_brand !! "display_name" with
  | Some _ => Ok db_brand
  | None =>
      match brand !! "brand_name" with
      | Some v => Ok (<["display_name" := v]> db_brand)
      | None =>
          v ← title_of (get_default brand "name"
                          (get_default brand "id" (VStr "")));
          Ok (<["display_name" := v]> db_brand)
      end
  end.

Definition transform_brand_for_db (brand : record) : result record :=
  let db_brand := brand in
  let db_brand := delete "fragrance_count" db_brand in
  let db_brand := set_default "is_active" (num 1) db_brand in
  let db_brand := set_default "affiliate_supported" (num 0) db_brand in
  let db_brand := set_default "sample_availability_score" (num 50) db_brand in
  db_brand ← display_name brand db_brand;
  match brand !! "brand_tier" with
  | Some tier =>
      let db_brand := <["brand_tier" := tier]> db_brand in
      prestige ← prestige_of tier;
      Ok (<["prestige_score" := prestige]> db_brand)
  | None => Ok db_brand
  end.

End Title.

(** A brand as [main] of the Kaggle processor writes it. *)
Definition dior_brand : record :=
  rec_of [ ("id", VStr "dior"); ("name", VStr "Dior"); ("slug", VStr "dior");
           ("fragrance_count", num 12) ].

End BrandTransform.
(** * Theorems *)

(** ** Facts about the Python primitives *)

Module PyFacts.

Lemma list_eqb_eq (l m : list string) : list_eqb l m = true <-> l = m.
Proof.
  revert m. induction l as [|a l IH]; intros [|b m]; simpl;
    try (split; [discriminate|intros [=]]); [tauto|].
  rewrite andb_true_iff, String.eqb_eq, IH.
  split; [intros [-> ->]; reflexivity|intros [= -> ->]; auto].
Qed.

(** On this value type [==] is equality. *)
Lemma py_eqb_eq (a b : value) : py_eqb a b = true <-> a = b.
Proof.
  destruct a, b; simpl; try (split; [discriminate|intros [=]]); try tauto.
  - rewrite Qeq_bool_iff. split.
    + intros H. f_equal. apply Qc_is_canon, H.
    + intros [= ->]. reflexivity.
  - rewrite String.eqb_eq. split; [intros ->|intros [= ->]]; reflexivity.
  - rewrite list_eqb_eq. split; [intros ->|intros [= ->]]; reflexivity.
Qed.

Lemma mapM_Ok {A B : Type} (f : A -> result B) (l : list A) (bs : list B) :
  mapM f l = Ok bs -> Forall2 (fun a b => f a = Ok b) l bs.
Proof.
  revert bs. induction l as [|a l IH]; simpl; intros bs H.
  - injection H as <-. constructor.
  - destruct (f a) as [b|] eqn:Hb; [|discriminate]. simpl in H.
    destruct (mapM f l) as [bs'|]; [|discriminate]. simpl in H.
    injection H as <-. constructor; [exact Hb|apply IH; reflexivity].
Qed.

Lemma mapM_total {A B : Type} (f : A -> result B) (g : A -> B) (l : list A) :
  Forall (fun a => f a = Ok (g a)) l -> mapM f l = Ok (map g l).
Proof.
  induction 1 as [|a l Ha _ IH]; simpl; [reflexivity|].
  rewrite Ha. simpl. rewrite IH. reflexivity.
Qed.

Section MaxBy.
Context {A : Type} (f : A -> Z).

(** [max] returns the first element whose key is maximal. *)
Lemma max_by_first (best : A) (l : list A) :
  exists l1 l2,
    best :: l = (l1 ++ max_by f best l :: l2)%list
    /\ Forall (fun x => (f x < f (max_by f best l))%Z) l1
    /\ Forall (fun x => (f x <= f (max_by f best l))%Z) l2.
Proof.
  enough (forall before pre,
            Forall (fun x => (f x < f best)%Z) before ->
            Forall (fun x => (f x <= f best)%Z) pre ->
            exists l1 l2,
              (before ++ best :: pre ++ l = l1 ++ max_by f best l :: l2)%list
              /\ Forall (fun x => (f x < f (max_by f best l))%Z) l1
              /\ Forall (fun x => (f x <= f (max_by f best l))%Z) l2) as H.
  { apply (H [] []); constructor. }
  revert best. induction l as [|x l IH]; intros best before pre Hb Hpre; simpl.
  - exists before, pre. rewrite app_nil_r. auto.
  - destruct (f best <? f x)%Z eqn:E.
    + apply Z.ltb_lt in E.
      destruct (IH x (before ++ best :: pre)%list []) as (l1 & l2 & H1 & H2 & H3).
      * apply Forall_app. split.
        { eapply Forall_impl; [exact Hb|]. simpl. intros; lia. }
        { constructor; [exact E|].
          eapply Forall_impl; [exact Hpre|]. simpl. intros; lia. }
      * constructor.
      * exists l1, l2. rewrite <- H1, <- app_assoc. auto.
    + apply Z.ltb_ge in E.
      destruct (IH best before (pre ++ [x])%list Hb) as (l1 & l2 & H1 & H2 & H3).
      * apply Forall_app. split; [exact Hpre|]. constructor; [exact E|constructor].
      * exists l1, l2. rewrite <- app_assoc in H1. auto.
Qed.

Lemma max_by_in (best : A) (l : list A) :
  In (max_by f best l) (best :: l).
Proof.
  destruct (max_by_first best l) as (l1 & l2 & -> & _). apply in_elt.
Qed.

End MaxBy.

Lemma filter_split {A : Type} (p : A -> bool) (l g1 g2 : list A) (x : A) :
  List.filter p l = (g1 ++ x :: g2)%list ->
  exists l1 l2,
    l = (l1 ++ x :: l2)%list
    /\ List.filter p l1 = g1 /\ List.filter p l2 = g2.
Proof.
  revert g1. induction l as [|a l IH]; simpl; intros g1 H.
  - destruct g1; discriminate.
  - destruct (p a) eqn:Hp.
    + destruct g1 as [|b g1]; simpl in H.
      * injection H as -> H. exists [], l. simpl. auto.
      * injection H as -> H. destruct (IH _ H) as (l1 & l2 & -> & H1 & H2).
        exists (b :: l1), l2. simpl. rewrite Hp, H1. auto.
    + destruct (IH _ H) as (l1 & l2 & -> & H1 & H2).
      exists (a :: l1), l2. simpl. rewrite Hp. auto.
Qed.

Lemma Forall2_in_right {A B : Type} (R : A -> B -> Prop) l1 l2 (y : B) :
  Forall2 R l1 l2 -> In y l2 -> exists x, In x l1 /\ R x y.
Proof.
  induction 1 as [|x y' l1 l2 HR _ IH]; intros Hin; [destruct Hin|].
  destruct Hin as [<-|Hin].
  - exists x. split; [left; reflexivity|exact HR].
  - destruct (IH Hin) as (x' & Hx & HR'). exists x'. split; [right|]; assumption.
Qed.

Lemma Forall2_in_left {A B : Type} (R : A -> B -> Prop) l1 l2 (x : A) :
  Forall2 R l1 l2 -> In x l1 -> exists y, In y l2 /\ R x y.
Proof.
  induction 1 as [|x' y l1 l2 HR _ IH]; intros Hin; [destruct Hin|].
  destruct Hin as [<-|Hin].
  - exists y. split; [left; reflexivity|exact HR].
  - destruct (IH Hin) as (y' & Hy & HR'). exists y'. split; [right|]; assumption.
Qed.

Lemma Forall2_map_eq {A B C : Type} (R : A -> B -> Prop)
    (f : B -> C) (g : A -> C) l1 l2 :
  Forall2 R l1 l2 -> (forall x y, In x l1 -> R x y -> f y = g x) ->
  map f l2 = map g l1.
Proof.
  induction 1 as [|x y l1 l2 HR _ IH]; intros H; [reflexivity|].
  simpl. f_equal; [apply H; [left; reflexivity|exact HR]|].
  apply IH. intros; apply H; [right|]; assumption.
Qed.

Lemma group_insert_length {K A : Type} (eqb : K -> K -> bool) (k : K) (a : A)
    (groups : list (K * list A)) :
  length (concat (map snd (group_insert eqb k a groups)))
  = S (length (concat (map snd groups))).
Proof.
  induction groups as [|[k' g] groups IH]; simpl; [reflexivity|].
  destruct (eqb k k'); simpl.
  - rewrite !length_app. simpl. lia.
  - rewrite !length_app, IH. lia.
Qed.

Lemma group_by_length {K A : Type} (eqb : K -> K -> bool) (key : A -> result K)
    (l : list A) (groups0 groups : list (K * list A)) :
  group_by eqb key l groups0 = Ok groups ->
  length (concat (map snd groups))
  = length (concat (map snd groups0)) + length l.
Proof.
  revert groups0. induction l as [|a l IH]; simpl; intros groups0 H.
  - injection H as <-. lia.
  - destruct (key a) as [k|]; [|discriminate]. simpl in H.
    rewrite (IH _ H), group_insert_length. lia.
Qed.


Section Grouping.
Context {K A : Type} (eqb : K -> K -> bool) (key : A -> result K).
Hypothesis eqb_eq : forall x y, eqb x y = true <-> x = y.

#[local] Abbreviation has_key := (has_key eqb key).
#[local] Abbreviation grouped := (grouped eqb key).

Lemma group_insert_keys (k : K) (a : A) (groups : list (K * list A)) :
  map fst (group_insert eqb k a groups)
  = (map fst groups
     ++ if existsb (eqb k) (map fst groups) then [] else [k])%list.
Proof.
  induction groups as [|[k' g] groups IH]; simpl; [reflexivity|].
  destruct (eqb k k'); simpl.
  - rewrite app_nil_r. reflexivity.
  - rewrite IH. reflexivity.
Qed.

Lemma existsb_eqb (k : K) (ks : list K) :
  existsb (eqb k) ks = true <-> In k ks.
Proof.
  rewrite existsb_exists. split.
  - intros (x & Hx & E). apply eqb_eq in E. subst. exact Hx.
  - intros H. exists k. split; [exact H|]. apply eqb_eq. reflexivity.
Qed.

Lemma in_group_insert (k : K) (a : A) (groups : list (K * list A)) k' g' :
  List.NoDup (map fst groups) ->
  In (k', g') (group_insert eqb k a groups) ->
  (In (k', g') groups /\ k' <> k)
  \/ (k' = k /\ exists g, g' = (g ++ [a])%list
                         /\ (In (k, g) groups
                             \/ (g = [] /\ ~ In k (map fst groups)))).
Proof.
  induction groups as [|[k0 g0] groups IH]; simpl; intros Hnd Hin.
  - destruct Hin as [[= <- <-]|[]]. right. split; [reflexivity|].
    exists []. split; [reflexivity|]. right. split; [reflexivity|tauto].
  - apply List.NoDup_cons_iff in Hnd as [Hk0 Hnd].
    destruct (eqb k k0) eqn:E.
    + apply eqb_eq in E. subst k0.
      destruct Hin as [[= <- <-]|Hin].
      * right. split; [reflexivity|]. exists g0. auto.
      * left. split; [right; exact Hin|].
        intros ->. apply Hk0. apply (in_map fst) in Hin. exact Hin.
    + assert (k0 <> k) as Hne.
      { intros ->. assert (eqb k k = true) as E' by (apply eqb_eq; reflexivity).
        congruence. }
      destruct Hin as [[= <- <-]|Hin].
      * left. auto.
      * destruct (IH Hnd Hin) as [[H1 H2]|(-> & g & -> & H)].
        { left. auto. }
        { right. split; [reflexivity|]. exists g. split; [reflexivity|].
          destruct H as [H|[-> H]]; [left; right; exact H|].
          right. split; [reflexivity|]. intros [?|?]; [congruence|tauto]. }
Qed.

Lemma filter_none (p : A -> bool) (l : list A) :
  (forall x, In x l -> p x = false) -> List.filter p l = [].
Proof.
  induction l as [|x l IH]; simpl; intros H; [reflexivity|].
  rewrite (H x) by auto. apply IH. auto.
Qed.

Lemma filter_has_key_snoc (k k' : K) (a : A) (done : list A) :
  key a = Ok k ->
  List.filter (has_key k') (done ++ [a])
  = (List.filter (has_key k') done ++ if eqb k k' then [a] else [])%list.
Proof.
  intros Hk. rewrite List.filter_app. simpl. unfold has_key at 2. rewrite Hk.
  destruct (eqb k k'); reflexivity.
Qed.

Lemma grouped_insert (done : list A) (groups : list (K * list A)) (a : A) (k : K) :
  key a = Ok k -> grouped done groups ->
  grouped (done ++ [a]) (group_insert eqb k a groups).
Proof.
  intros Hk (Hnd & Hgr & Hall). split; [|split].
  - rewrite group_insert_keys.
    destruct (existsb (eqb k) (map fst groups)) eqn:E.
    + rewrite app_nil_r. exact Hnd.
    + apply List.NoDup_app; [exact Hnd| |].
      * constructor; [simpl; tauto|constructor].
      * intros x Hx [<-|[]].
        apply existsb_eqb in Hx. congruence.
  - intros k' g' Hin.
    destruct (in_group_insert _ _ _ _ _ Hnd Hin) as [[H Hne]|(-> & g & -> & H)].
    + destruct (Hgr _ _ H) as [Hg ->]. split; [exact Hg|].
      rewrite (filter_has_key_snoc k k' a done Hk).
      destruct (eqb k k') eqn:E; [apply eqb_eq in E; congruence|].
      rewrite app_nil_r. reflexivity.
    + split; [destruct g; discriminate|].
      rewrite (filter_has_key_snoc k k a done Hk).
      assert (eqb k k = true) as -> by (apply eqb_eq; reflexivity).
      f_equal. destruct H as [H|[-> H]]; [apply Hgr, H|].
      symmetry. apply filter_none. intros x Hx.
      unfold has_key. destruct (key x) as [kx|] eqn:Hkx; [|reflexivity].
      destruct (eqb kx k) eqn:E; [|reflexivity].
      apply eqb_eq in E. subst kx. destruct H. apply (Hall x k Hx Hkx).
  - intros x kx Hx Hkx. rewrite group_insert_keys.
    apply in_or_app. apply in_app_or in Hx as [Hx|[<-|[]]].
    + left. apply (Hall x kx Hx Hkx).
    + assert (kx = k) as -> by congruence.
      destruct (existsb (eqb k) (map fst groups)) eqn:E.
      * left. apply existsb_eqb, E.
      * right. left. reflexivity.
Qed.

Lemma group_by_grouped (l done : list A) (groups0 groups : list (K * list A)) :
  group_by eqb key l groups0 = Ok groups ->
  grouped done groups0 ->
  grouped (done ++ l) groups /\ Forall (fun a => exists k, key a = Ok k) l.
Proof.
  revert done groups0. induction l as [|a l IH]; simpl; intros done groups0 H Hg.
  - injection H as <-. rewrite app_nil_r. split; [exact Hg|constructor].
  - destruct (key a) as [k|] eqn:Hk; [|discriminate]. simpl in H.
    destruct (IH (done ++ [a])%list _ H (grouped_insert _ _ _ _ Hk Hg)) as [H1 H2].
    rewrite <- app_assoc in H1. split; [exact H1|].
    constructor; [eauto|exact H2].
Qed.

Lemma group_by_total (l : list A) (groups0 : list (K * list A)) :
  Forall (fun a => exists k, key a = Ok k) l ->
  exists groups, group_by eqb key l groups0 = Ok groups.
Proof.
  intros H. revert groups0. induction H as [|a l [k Hk] _ IH]; intros groups0; simpl.
  - eauto.
  - rewrite Hk. simpl. apply IH.
Qed.

Lemma grouped_nil : grouped [] [].
Proof.
  split; [constructor|]. split; [intros ? ? []|intros ? ? []].
Qed.

End Grouping.

End PyFacts.

(** ** Facts about the string primitives *)

Module PyStrFacts.

Lemma startswith_app (p r : string) : startswith p (p +:+ r) = true.
Proof.
  induction p as [|a p IH]; simpl.
  - reflexivity.
  - rewrite Ascii.eqb_refl. exact IH.
Qed.

Lemma startswith_inv (p s : string) :
  startswith p s = true -> exists r, s = p +:+ r.
Proof.
  revert s. induction p as [|a p IH]; intros s H.
  - exists s. reflexivity.
  - destruct s as [|b s]; simpl in H; [discriminate|].
    apply andb_true_iff in H as [Hab Hs].
    apply Ascii.eqb_eq in Hab. subst b.
    destruct (IH _ Hs) as [r ->]. exists r. reflexivity.
Qed.

Lemma contains_cons (n : string) (c : ascii) (s : string) :
  contains n s = true -> contains n (String c s) = true.
Proof.
  intros H. simpl. rewrite H. apply orb_true_r.
Qed.

(** Every string that contains ["women"] contains ["men"]. *)
Lemma contains_women_men (s : string) :
  contains "women" s = true -> contains "men" s = true.
Proof.
  induction s as [|c s IH]; intros H.
  - discriminate.
  - change (contains "women" (String c s))
      with (startswith "women" (String c s) || contains "women" s) in H.
    apply orb_true_iff in H as [H|H].
    + apply startswith_inv in H as [r Hr].
      rewrite Hr. reflexivity.
    + apply contains_cons, IH, H.
Qed.

Lemma is_alnum_hyphen : is_alnum "-" = false.
Proof. reflexivity. Qed.

Lemma is_hyphen_eq (c : ascii) : is_hyphen c = true <-> c = "-"%char.
Proof. apply Ascii.eqb_eq. Qed.

Lemma is_alnum_not_hyphen (c : ascii) : is_alnum c = true -> is_hyphen c = false.
Proof.
  intros H. destruct (is_hyphen c) eqn:E; [|reflexivity].
  apply is_hyphen_eq in E. subst c. rewrite is_alnum_hyphen in H. discriminate.
Qed.

#[local] Arguments is_alnum : simpl never.
#[local] Arguments is_hyphen : simpl never.

Lemma re_sub_runs_body (in_run : bool) (s : string) :
  let t := re_sub_runs (fun c => negb (is_alnum c)) "-" in_run s in
  slug_body t = true
  /\ (in_run = true -> match t with String c _ => is_alnum c = true | "" => True end).
Proof.
  revert in_run. induction s as [|c s IH]; intros in_run; simpl.
  - split; [reflexivity|trivial].
  - destruct (is_alnum c) eqn:Hc; simpl.
    + rewrite Hc. destruct (IH false) as [Hb _]. split; [exact Hb|trivial].
    + destruct (IH true) as [Hb Hh]. specialize (Hh eq_refl).
      destruct in_run; simpl.
      * split; [exact Hb|intros _; exact Hh].
      * split; [|discriminate].
        rewrite Hb, andb_true_r.
        destruct (re_sub_runs _ _ true s); [reflexivity|exact Hh].
Qed.

Lemma lstrip_hyphens_body (s : string) :
  slug_body s = true ->
  slug_body (lstrip_by is_hyphen s) = true
  /\ match lstrip_by is_hyphen s with
     | String c _ => is_alnum c = true
     | "" => True
     end.
Proof.
  induction s as [|c s IH]; simpl; intros H.
  - split; [reflexivity|trivial].
  - destruct (is_alnum c) eqn:Hc.
    + rewrite (is_alnum_not_hyphen _ Hc).
      simpl. rewrite Hc. split; [exact H|reflexivity].
    + apply andb_true_iff in H as [H Hs].
      apply andb_true_iff in H as [Hh _].
      rewrite Hh. apply IH, Hs.
Qed.

Lemma rstrip_hyphens_tail (s : string) :
  slug_body s = true -> slug_tail (rstrip_by is_hyphen s) = true.
Proof.
  induction s as [|c s IH]; simpl; intros H; [reflexivity|].
  destruct (is_alnum c) eqn:Hc.
  - specialize (IH H).
    destruct (rstrip_by is_hyphen s) as [|d r] eqn:Hr.
    + rewrite (is_alnum_not_hyphen _ Hc). simpl. rewrite Hc. reflexivity.
    + simpl. rewrite Hc. exact IH.
  - apply andb_true_iff in H as [H Hs].
    apply andb_true_iff in H as [Hh Hnext].
    specialize (IH Hs).
    destruct (rstrip_by is_hyphen s) as [|d r] eqn:Hr.
    + rewrite Hh. reflexivity.
    + destruct s as [|c' s']; [discriminate|].
      assert (d = c') as ->.
      { simpl in Hr. destruct (rstrip_by is_hyphen s').
        - destruct (is_hyphen c'); [discriminate|]. congruence.
        - congruence. }
      simpl. rewrite Hc, Hh, Hnext. simpl.
      simpl in IH. rewrite Hnext in IH. exact IH.
Qed.

Lemma rstrip_head (p : ascii -> bool) (c : ascii) (s : string) :
  p c = false -> exists r, rstrip_by p (String c s) = String c r
                           /\ r = rstrip_by p s.
Proof.
  intros Hp. simpl. destruct (rstrip_by p s) eqn:Hr.
  - rewrite Hp. eexists; split; reflexivity.
  - eexists; split; reflexivity.
Qed.

(** The result of stripping the hyphens of a slug body is empty or matches
    the slug expression. *)
Lemma strip_hyphens_slug (s : string) :
  slug_body s = true ->
  strip_hyphens s = "" \/ slug_re (strip_hyphens s) = true.
Proof.
  intros H. unfold strip_hyphens, strip_by.
  destruct (lstrip_hyphens_body s H) as [Hb Hh].
  destruct (lstrip_by is_hyphen s) as [|c t] eqn:Hl.
  - left. reflexivity.
  - right. pose proof (rstrip_hyphens_tail _ Hb) as Ht.
    destruct (rstrip_head is_hyphen c t) as [r [Hr _]].
    { apply is_alnum_not_hyphen, Hh. }
    rewrite Hr in *. simpl in *. rewrite Hh in *. exact Ht.
Qed.

(** Stripping leaves the empty string exactly when no character survives. *)
Lemma strip_by_empty (p : ascii -> bool) (s : string) :
  strip_by p s = "" <-> all_chars p s = true.
Proof.
  unfold strip_by. induction s as [|c s IH]; simpl.
  - tauto.
  - destruct (p c) eqn:Hp; simpl.
    + exact IH.
    + split; [|discriminate].
      destruct (rstrip_by p s); rewrite ?Hp; discriminate.
Qed.

Lemma re_sub_runs_all_hyphens (in_run : bool) (s : string) :
  all_chars is_hyphen
    (re_sub_runs (fun c => negb (is_alnum c)) "-" in_run s)
  = all_chars (fun c => negb (is_alnum c)) s.
Proof.
  revert in_run. induction s as [|c s IH]; intros in_run; simpl.
  - reflexivity.
  - destruct (is_alnum c) eqn:Hc; simpl.
    + rewrite (is_alnum_not_hyphen _ Hc). reflexivity.
    + destruct in_run; simpl; apply IH.
Qed.

(** The matcher agrees with the prose reading of the expression: non-empty,
    only [[a-z0-9-]], no leading, trailing or doubled hyphen. *)
Lemma slug_tail_cons (c : ascii) (s : string) :
  slug_tail (String c s) =
  if is_alnum c then slug_tail s
  else is_hyphen c && match s with String c' _ => is_alnum c' | "" => false end && slug_tail s.
Proof.
  simpl. destruct (is_alnum c); [reflexivity|].
  destruct (is_hyphen c); [|reflexivity]. simpl.
  destruct s as [|c' s']; [reflexivity|].
  simpl. destruct (is_alnum c'); reflexivity.
Qed.

Lemma slug_char_cases (c : ascii) :
  slug_char c = true <-> is_alnum c = true \/ c = "-"%char.
Proof.
  unfold slug_char. rewrite orb_true_iff, is_hyphen_eq. tauto.
Qed.

Lemma slug_tail_spec (s : string) :
  slug_tail s = true <->
  all_chars slug_char s = true /\ no_double_hyphen s = true
  /\ last_char s <> Some "-"%char.
Proof.
  induction s as [|c s IH].
  - simpl. split; [intros _; repeat split; discriminate|reflexivity].
  - rewrite slug_tail_cons.
    change (all_chars slug_char (String c s))
      with (slug_char c && all_chars slug_char s).
    rewrite andb_true_iff, slug_char_cases.
    destruct s as [|c' s'].
    + simpl. destruct (is_alnum c) eqn:Hc.
      * split; [|reflexivity]. intros _. repeat split; auto.
        intros [= ->]. rewrite is_alnum_hyphen in Hc. discriminate.
      * rewrite andb_false_r. split; [discriminate|].
        intros ([[H|H] _] & _ & Hl); congruence.
    + change (last_char (String c (String c' s')))
        with (last_char (String c' s')).
      change (no_double_hyphen (String c (String c' s')))
        with (negb (is_hyphen c && is_hyphen c') && no_double_hyphen (String c' s')).
      rewrite andb_true_iff, negb_true_iff.
      destruct (is_alnum c) eqn:Hc.
      * rewrite (is_alnum_not_hyphen _ Hc). simpl. rewrite IH. tauto.
      * rewrite !andb_true_iff, IH, is_hyphen_eq.
        change (all_chars slug_char (String c' s'))
          with (slug_char c' && all_chars slug_char s').
        rewrite andb_true_iff, slug_char_cases.
        split.
        { intros [[-> Hc'] (Ha & Hn & Hl)].
          split; [split; [right; reflexivity|exact Ha]|].
          split; [|exact Hl]. split; [|exact Hn].
          rewrite (is_alnum_not_hyphen _ Hc'). apply andb_false_r. }
        { intros ([[H| ->] Ha] & [Hd Hn] & Hl); [congruence|].
          split; [split; [reflexivity|]|tauto].
          destruct Ha as [[Ha| ->] _]; [exact Ha|].
          discriminate. }
Qed.

Lemma slug_re_spec (s : string) :
  slug_re s = true <->
  s <> "" /\ all_chars slug_char s = true /\ no_double_hyphen s = true
  /\ first_char s <> Some "-"%char /\ last_char s <> Some "-"%char.
Proof.
  destruct s as [|c s].
  - simpl. split; [discriminate|]. intros [H _]. congruence.
  - pose proof (slug_tail_spec (String c s)) as Ht.
    rewrite slug_tail_cons in Ht.
    change (slug_re (String c s)) with (is_alnum c && slug_tail s).
    change (first_char (String c s)) with (Some c).
    destruct (is_alnum c) eqn:Hc.
    + rewrite andb_true_l, Ht. split.
      * intros (H1 & H2 & H3). repeat split; try assumption; try discriminate.
        intros [= ->]. rewrite is_alnum_hyphen in Hc. discriminate.
      * intros (_ & H1 & H2 & _ & H3). auto.
    + rewrite andb_false_l. split; [discriminate|].
      intros (_ & H1 & _ & H2 & _).
      change (all_chars slug_char (String c s))
        with (slug_char c && all_chars slug_char s) in H1.
      apply andb_true_iff in H1 as [H1 _].
      apply slug_char_cases in H1 as [H1|H1]; congruence.
Qed.

End PyStrFacts.

(** ** [kaggle_processor.py]: identity fields *)

Module KaggleProcessorFacts.
Import KaggleProcessor PyStrFacts.

Lemma slugify_cases (s : string) :
  if all_chars nonalnum (lower s)
  then slugify s = ""
  else slug_re (slugify s) = true.
Proof.
  unfold slugify, nonalnum.
  pose proof (re_sub_runs_body false (lower s)) as [Hb _].
  pose proof (re_sub_runs_all_hyphens false (lower s)) as Hall.
  destruct (all_chars (fun c => negb (is_alnum c)) (lower s)) eqn:E.
  - apply strip_by_empty. exact Hall.
  - destruct (strip_hyphens_slug _ Hb) as [H|H]; [|exact H].
    apply strip_by_empty in H. congruence.
Qed.

Lemma normalize_gender_not_women (g : string) : normalize_gender g <> "women".
Proof.
  unfold normalize_gender.
  destruct (contains "women" (strip (lower g))) eqn:Hw.
  - rewrite (contains_women_men _ Hw). simpl. discriminate.
  - simpl. destruct (contains "men" (strip (lower g))); simpl; discriminate.
Qed.

(** C1.  The gender normaliser tests plain substrings, not words: since
    ["women"] contains ["men"], the [women] branch can never be taken.
    The input ["for women only"] is classified [unisex], and no input at
    all is classified [women]; an input with both tokens is [unisex].  The
    scraper's normaliser, which removes ["women"] before it looks for
    ["men"], classifies the same input [women]. *)
Theorem C1_gender_substring_never_women :
  gender (clean_fragrance_data (row_of "Sauvage" "Dior" "for women only")) = "unisex"
  /\ normalize_gender "women" = "unisex"
  /\ normalize_gender "men's and women's" = "unisex"
  /\ normalize_gender "for men" = "men"
  /\ (forall r : row, gender (clean_fragrance_data r) <> "women")
  /\ FragranticaSpider.normalize_gender "for women only" = "women".
Proof.
  split; [reflexivity|]. split; [reflexivity|]. split; [reflexivity|].
  split; [reflexivity|]. split; [|reflexivity].
  intros r. apply normalize_gender_not_women.
Qed.

(** C8, as stated, fails: a perfume named exactly like its brand gets the
    empty slug, which the slug expression does not match. *)
Lemma C8_empty_slug_counterexample :
  slug (clean_fragrance_data (row_of "Dior" "Dior" "men")) = ""
  /\ slug_re (slug (clean_fragrance_data (row_of "Dior" "Dior" "men"))) = false
  /\ slug_re (brand_id (clean_fragrance_data (row_of "Sauvage" "***" "men"))) = false.
Proof. repeat split; reflexivity. Qed.

(** C8, amended.  For every row, [brand_id] and [slug] are empty when the
    lower-cased brand (respectively cleaned name) has no character in
    [[a-z0-9]], and match [^[a-z0-9]+(-[a-z0-9]+)*$] otherwise; and [id] is
    the two joined by ["__"]. *)
Theorem C8_slug_empty_or_well_formed (r : row) :
  let c := clean_fragrance_data r in
  (if all_chars nonalnum (lower (brand_name c))
   then brand_id c = ""
   else slug_re (brand_id c) = true)
  /\ (if all_chars nonalnum (lower (name c))
      then slug c = ""
      else slug_re (slug c) = true)
  /\ id c = brand_id c +:+ "__" +:+ slug c.
Proof.
  simpl. split; [apply slugify_cases|]. split; [apply slugify_cases|reflexivity].
Qed.

End KaggleProcessorFacts.

(** ** [04_database_importer.py]: the validator *)

Module DatabaseImporterFacts.
Import DatabaseImporter.

Lemma validate_inv (f : record) (ok : bool) (errs : list validation_error) :
  validate_fragrance_data f = Ok (ok, errs) ->
  exists e1 e2 e3,
    check_range "rating_value" 0 5 InvalidRating f = Ok e1
    /\ check_range "sample_price_usd" 0 100 InvalidPrice f = Ok e2
    /\ check_id_format f = Ok e3
    /\ errs = (check_required f ++ check_accords f ++ check_gender f
               ++ e1 ++ e2 ++ e3)%list
    /\ ok = Nat.eqb (length errs) 0.
Proof.
  unfold validate_fragrance_data. intros H.
  destruct (check_range "rating_value" 0 5 InvalidRating f) as [e1|] eqn:H1;
    [|discriminate].
  destruct (check_range "sample_price_usd" 0 100 InvalidPrice f) as [e2|] eqn:H2;
    [|discriminate].
  destruct (check_id_format f) as [e3|] eqn:H3; [|discriminate].
  simpl in H. injection H as <- <-.
  exists e1, e2, e3. repeat split; try reflexivity.
  rewrite <- !app_assoc. reflexivity.
Qed.

Lemma validate_total (f : record) :
  well_typed f -> exists ok errs, validate_fragrance_data f = Ok (ok, errs).
Proof.
  intros (Hr & Hp & Hi & Hb). unfold validate_fragrance_data.
  assert (forall field lo hi err, numeric_or_none f field ->
            exists e, check_range field lo hi err f = Ok e) as Hrange.
  { intros field lo hi err Hn. unfold check_range, numeric_or_none in *.
    destruct (f !! field) as [[]|]; try contradiction; simpl; eauto. }
  destruct (Hrange "rating_value" 0%Q 5%Q InvalidRating Hr) as [e1 ->].
  destruct (Hrange "sample_price_usd" 0%Q 100%Q InvalidPrice Hp) as [e2 ->].
  assert (exists e3, check_id_format f = Ok e3) as [e3 ->].
  { unfold check_id_format, string_or_absent in *.
    destruct (f !! "id") as [[]|]; try contradiction;
      destruct (f !! "brand_id") as [[]|]; try contradiction; eauto. }
  simpl. eauto.
Qed.

Lemma py_eqb_str (v : value) (s : string) : py_eqb v (VStr s) = true <-> v = VStr s.
Proof.
  destruct v; simpl; try (split; [discriminate|intros [=]]).
  rewrite String.eqb_eq. split; [intros ->; reflexivity|intros [= ->]; reflexivity].
Qed.

Lemma out_of_range_num (lo hi : Q) (q : Qc) :
  out_of_range lo hi (VNum q) = Ok (negb (Qle_bool lo q && Qle_bool q hi))
  /\ (negb (Qle_bool lo q && Qle_bool q hi) = true <-> ~ in_range_Q lo hi q).
Proof.
  split; [reflexivity|]. unfold in_range_Q.
  rewrite negb_true_iff, <- not_true_iff_false, andb_true_iff, !Qle_bool_iff.
  tauto.
Qed.

Lemma check_range_violated (field : string) (lo hi : Q)
    (err : value -> validation_error) (f : record) (q : Qc) e :
  f !! field = Some (VNum q) -> ~ in_range_Q lo hi q ->
  check_range field lo hi err f = Ok e -> e = [err (VNum q)].
Proof.
  intros Hf Hq. unfold check_range. rewrite Hf.
  destruct (out_of_range_num lo hi q) as [-> Hiff]. simpl.
  apply Hiff in Hq. rewrite Hq. congruence.
Qed.

(** Every violated constraint is reported by an error of its own kind. *)
Lemma violated_reported (f : record) ok errs (c : constraint) :
  validate_fragrance_data f = Ok (ok, errs) -> violated f c ->
  exists e, In e errs /\ constraint_of e = c.
Proof.
  intros H Hv. apply validate_inv in H as (e1 & e2 & e3 & H1 & H2 & H3 & -> & _).
  destruct c; simpl in Hv.
  - exists (MissingRequired field). split; [|reflexivity].
    apply in_or_app. left. unfold check_required.
    apply in_map, filter_In. destruct Hv as [Hin Hm]. split; [exact Hin|].
    unfold missing. destruct Hm as [->|(v & -> & ->)]; reflexivity.
  - exists MissingAccords. split; [|reflexivity].
    apply in_or_app. right. apply in_or_app. left.
    unfold check_accords. destruct Hv as [-> ->]. left. reflexivity.
  - destruct Hv as (g & Hg & Hm & Hw & Hu).
    exists (InvalidGender g). split; [|reflexivity].
    do 2 (apply in_or_app; right). apply in_or_app. left.
    unfold check_gender. rewrite Hg. simpl.
    destruct (py_eqb g (VStr "men")) eqn:E1; [apply py_eqb_str in E1; contradiction|].
    destruct (py_eqb g (VStr "women")) eqn:E2; [apply py_eqb_str in E2; contradiction|].
    destruct (py_eqb g (VStr "unisex")) eqn:E3; [apply py_eqb_str in E3; contradiction|].
    left. reflexivity.
  - destruct Hv as (q & Hq & Hr).
    exists (InvalidRating (VNum q)). split; [|reflexivity].
    rewrite (check_range_violated _ _ _ _ _ _ _ Hq Hr H1).
    do 3 (apply in_or_app; right). apply in_or_app. left. left. reflexivity.
  - destruct Hv as (q & Hq & Hr).
    exists (InvalidPrice (VNum q)). split; [|reflexivity].
    rewrite (check_range_violated _ _ _ _ _ _ _ Hq Hr H2).
    do 4 (apply in_or_app; right). apply in_or_app. left. left. reflexivity.
  - destruct Hv as (i & b & Hi & Hb & Hs).
    exists (IdFormatMismatch i b). split; [|reflexivity].
    unfold check_id_format in H3. rewrite Hi, Hb, Hs in H3.
    injection H3 as <-.
    do 5 (apply in_or_app; right). left. reflexivity.
Qed.

(** C6, as stated, fails: the record the repository's own test expects to be
    valid is accepted although its [id] is not [brand_id], ["__"], [slug]. *)
Lemma C6_prefix_only_counterexample :
  validate_fragrance_data test_valid_fragrance = Ok (true, [])
  /\ test_valid_fragrance !! "id"
     = Some (VStr "test-validation-brand__valid_fragrance")
  /\ test_valid_fragrance !! "brand_id" = Some (VStr "test-validation-brand")
  /\ test_valid_fragrance !! "slug" = Some (VStr "valid-test-fragrance")
  /\ "test-validation-brand__valid_fragrance"
     <> "test-validation-brand" +:+ "__" +:+ "valid-test-fragrance".
Proof. repeat split; try (vm_compute; reflexivity). discriminate. Qed.

Lemma missing_false (f : record) (field : string) :
  missing f field = false -> exists v, f !! field = Some v /\ truthy v = true.
Proof.
  unfold missing. destruct (f !! field) as [v|]; [|discriminate].
  intros H. exists v. split; [reflexivity|]. apply negb_false_iff, H.
Qed.

(** C6, amended.  Every accepted record has string [id] and [brand_id],
    both non-empty, and the [id] starts with the [brand_id] followed by
    ["__"]; a record whose [id] does not start so is rejected with an
    id-format error. *)
Theorem C6_accepted_id_starts_with_brand (f : record) ok errs
    (H : validate_fragrance_data f = Ok (ok, errs)) :
  (ok = true ->
   errs = []
   /\ exists id brand_id,
        f !! "id" = Some (VStr id) /\ f !! "brand_id" = Some (VStr brand_id)
        /\ id <> "" /\ brand_id <> ""
        /\ startswith (brand_id +:+ "__") id = true)
  /\ (forall id brand_id,
        f !! "id" = Some (VStr id) -> f !! "brand_id" = Some (VStr brand_id) ->
        startswith (brand_id +:+ "__") id = false ->
        ok = false /\ In (IdFormatMismatch id brand_id) errs).
Proof.
  split.
  - intros ->.
    apply validate_inv in H as (e1 & e2 & e3 & H1 & H2 & H3 & -> & Hok).
    symmetry in Hok. apply Nat.eqb_eq, length_zero_iff_nil in Hok.
    split; [exact Hok|].
    apply app_eq_nil in Hok as [Hreq Hok].
    do 4 apply app_eq_nil in Hok as [_ Hok]. subst e3.
    unfold check_required in Hreq. apply map_eq_nil in Hreq.
    assert (forall field, In field required_fields -> missing f field = false) as Hm.
    { intros field Hin. destruct (missing f field) eqn:E; [|reflexivity].
      assert (In field (List.filter (missing f) required_fields)) as Hf
        by (apply filter_In; auto).
      rewrite Hreq in Hf. destruct Hf. }
    destruct (missing_false f "id") as (vi & Hi & Ti); [apply Hm; simpl; auto|].
    destruct (missing_false f "brand_id") as (vb & Hb & Tb); [apply Hm; simpl; auto|].
    unfold check_id_format in H3. rewrite Hi, Hb in H3.
    destruct vi as [| |id|]; try discriminate.
    destruct vb as [| |b|]; try discriminate.
    exists id, b. split; [exact Hi|]. split; [exact Hb|].
    split; [intros ->; discriminate Ti|]. split; [intros ->; discriminate Tb|].
    destruct (startswith (b +:+ "__") id); [reflexivity|discriminate].
  - intros id b Hi Hb Hs.
    destruct (violated_reported f ok errs CIdFormat H) as (e & He & Hc).
    { simpl. eauto. }
    apply validate_inv in H as (e1 & e2 & e3 & H1 & H2 & H3 & -> & ->).
    unfold check_id_format in H3. rewrite Hi, Hb, Hs in H3. injection H3 as <-.
    split.
    + rewrite !length_app. simpl. apply Nat.eqb_neq. lia.
    + do 5 (apply in_or_app; right). left. reflexivity.
Qed.

Lemma C6_accepted_witness :
  exists id brand_id,
    test_valid_fragrance !! "id" = Some (VStr id)
    /\ test_valid_fragrance !! "brand_id" = Some (VStr brand_id)
    /\ id <> "" /\ brand_id <> ""
    /\ startswith (brand_id +:+ "__") id = true.
Proof.
  assert (validate_fragrance_data test_valid_fragrance = Ok (true, [])) as H
    by (vm_compute; reflexivity).
  exact (proj2 (proj1 (C6_accepted_id_starts_with_brand _ _ _ H) eq_refl)).
Defined.




(** C10.  A record with neither an [accords] nor a [main_accords] key is
    never accepted: whenever the validator returns, it returns [False] with
    the missing-accords error in the list, and it does return on every
    well-typed record.  A record with an empty [accords] list, by contrast,
    can be accepted. *)
Theorem C10_missing_accords_rejected (f : record)
    (Ha : f !! "accords" = None) (Hm : f !! "main_accords" = None) :
  (forall ok errs, validate_fragrance_data f = Ok (ok, errs) ->
                   ok = false /\ In MissingAccords errs)
  /\ (well_typed f ->
      exists errs, validate_fragrance_data f = Ok (false, errs)
                   /\ In MissingAccords errs)
  /\ validate_fragrance_data (<["accords" := VList []]> no_accords_key)
     = Ok (true, []).
Proof.
  assert (forall ok errs, validate_fragrance_data f = Ok (ok, errs) ->
                          ok = false /\ In MissingAccords errs) as Hrej.
  { intros ok errs H.
    destruct (violated_reported f ok errs CAccords H) as (e & He & Hc).
    { simpl. auto. }
    destruct e; try discriminate. split; [|exact He].
    apply validate_inv in H as (_ & _ & _ & _ & _ & _ & _ & ->).
    apply Nat.eqb_neq. destruct errs; [destruct He|simpl; lia]. }
  split; [exact Hrej|]. split; [|vm_compute; reflexivity].
  intros Hwt. destruct (validate_total f Hwt) as (ok & errs & H).
  destruct (Hrej ok errs H) as [-> Hin]. eauto.
Qed.

Lemma C10_missing_accords_witness :
  exists errs, validate_fragrance_data no_accords_key = Ok (false, errs)
               /\ In MissingAccords errs.
Proof.
  apply (proj1 (proj2 (C10_missing_accords_rejected no_accords_key
                         ltac:(vm_compute; reflexivity)
                         ltac:(vm_compute; reflexivity)))).
  unfold well_typed, numeric_or_none, string_or_absent.
  repeat split; vm_compute; exact I.
Defined.

End DatabaseImporterFacts.

(** ** [04_database_importer.py]: batch upsert *)

Module BatchUpsertFacts.
Import DatabaseImporter.

Section Store.
Context {store : Type}.
Variable post : store -> string -> list record -> store * response.

Lemma fold_upsert (table : string) (records : list record) (idx : list nat) :
  forall s inserted log,
    fold_left (upsert_batch_at post table records) idx (s, inserted, log)
    = let pe := post_each post s table (slice records <$> idx) in
      let entries := zip (slice records <$> idx) (snd pe) in
      (fst pe, inserted + accepted_count entries, (log ++ entries)%list).
Proof.
  induction idx as [|i idx IH]; intros s inserted log.
  - simpl. rewrite app_nil_r. unfold accepted_count. simpl.
    rewrite Nat.add_0_r. reflexivity.
  - cbn [fold_left fmap list_fmap post_each]. unfold upsert_batch_at at 2.
    destruct (post s table (slice records i)) as [s1 resp] eqn:Hp.
    rewrite IH. cbn zeta.
    destruct (post_each post s1 table (slice records <$> idx)) as [s2 resps].
    cbn [fst snd zip zip_with]. rewrite <- app_assoc. cbn [app].
    do 2 f_equal.
    unfold accepted_count. cbn [fmap list_fmap fst snd].
    change (list_sum (?x :: ?l)) with (x + list_sum l).
    destruct (accepted resp); lia.
Qed.

End Store.

Lemma range_step_slices (b : nat) (l : list record) (k : nat) :
  concat ((fun i => take b (drop i l)) <$> ((fun j => j * b) <$> seq 0 k))
  = take (k * b) l.
Proof.
  induction k as [|k IH].
  - reflexivity.
  - rewrite seq_S, !fmap_app, concat_app, IH. simpl.
    rewrite app_nil_r, take_take_drop. f_equal. lia.
Qed.

Lemma div_up_covers (n : nat) : n <= (n + 100 - 1) / 100 * 100.
Proof.
  pose proof (Nat.div_mod_eq (n + 100 - 1) 100) as H.
  pose proof (Nat.mod_upper_bound (n + 100 - 1) 100) as Hm. lia.
Qed.

Lemma div_up_tight (n k : nat) : k < (n + 100 - 1) / 100 -> k * 100 < n.
Proof.
  intros Hk.
  pose proof (Nat.div_mod_eq (n + 100 - 1) 100) as H.
  pose proof (Nat.mod_upper_bound (n + 100 - 1) 100) as Hm. lia.
Qed.


Lemma concat_batches (records : list record) : concat (batches records) = records.
Proof.
  unfold batches, range_step, slice, batch_size.
  rewrite (range_step_slices 100). apply take_ge, div_up_covers.
Qed.

Lemma batches_bounded (records : list record) :
  Forall (fun b => 0 < length b <= batch_size) (batches records).
Proof.
  unfold batches, range_step. rewrite <- list_fmap_compose.
  apply Forall_fmap, Forall_forall. intros k Hk.
  apply elem_of_seq in Hk as [_ Hk]. simpl in Hk.
  apply div_up_tight in Hk. unfold batch_size in *.
  cbn [compose]. unfold slice.
  rewrite length_take, length_drop. unfold batch_size. lia.
Qed.

Lemma length_batches (records : list record) :
  length (batches records) = (length records + batch_size - 1) / batch_size.
Proof.
  unfold batches, range_step. rewrite !length_fmap, length_seq. reflexivity.
Qed.

Lemma length_post_each {store : Type}
    (post : store -> string -> list record -> store * response)
    (table : string) (bs : list (list record)) :
  forall s, length (snd (post_each post s table bs)) = length bs.
Proof.
  induction bs as [|b bs IH]; intros s; simpl; [reflexivity|].
  destruct (post s table b) as [s1 resp]. specialize (IH s1).
  destruct (post_each post s1 table bs). simpl in *. lia.
Qed.

Lemma status_200_201 (code : Z) (n : nat) :
  match code with
  | 200%Z | 201%Z => n
  | _ => 0
  end = if ((code =? 200) || (code =? 201))%Z then n else 0.
Proof.
  destruct (Z.eqb_spec code 200) as [->|H200]; [reflexivity|].
  destruct (Z.eqb_spec code 201) as [->|H201]; [reflexivity|].
  destruct code as [|p|p]; try reflexivity.
  do 8 (destruct p as [p|p|]; try reflexivity); congruence.
Qed.

(** The accepted batches of a log are those answered with status 200 or
    201. *)
Lemma accepted_count_statuses (log : list (list record * response)) :
  accepted_count log
  = list_sum ((fun e => match snd e with
                        | Status 200 | Status 201 => length (fst e)
                        | _ => 0
                        end) <$> log).
Proof.
  unfold accepted_count. f_equal. apply list_fmap_ext. intros i [b r] _.
  cbn [fst snd]. destruct r as [code|]; [|reflexivity].
  cbn [accepted]. symmetry. apply (status_200_201 code (length b)).
Qed.

(** C9.  Whatever the Store answers, [batch_upsert] makes exactly one
    request per batch, in order, where the batches are consecutive slices
    of at most 100 records (none empty) whose concatenation is the input.
    A batch counts as inserted, whole, exactly when its request is answered
    with status 200 or 201; any other status, or an exception, leaves the
    whole batch out of the [inserted] count and nothing else: the following
    batches are still sent and nothing is sent twice. *)
Theorem C9_batch_upsert_partitions {store : Type}
    (post : store -> string -> list record -> store * response)
    (s : store) (table : string) (records : list record) :
  let '(s', (inserted, updated), log) := batch_upsert post s table records in
  let sent := fst <$> log in
  concat sent = records
  /\ Forall (fun b => 0 < length b <= 100) sent
  /\ sent = batches records
  /\ (s', snd <$> log) = post_each post s table sent
  /\ inserted = accepted_count log
  /\ inserted = list_sum ((fun e => match snd e with
                                    | Status 200 | Status 201 => length (fst e)
                                    | _ => 0
                                    end) <$> log)
  /\ updated = 0.
Proof.
  assert (batch_upsert post s table records
          = let pe := post_each post s table (batches records) in
            (fst pe, (accepted_count (zip (batches records) (snd pe)), 0),
             zip (batches records) (snd pe))) as ->.
  { unfold batch_upsert. destruct records as [|r records]; [reflexivity|].
    rewrite fold_upsert. reflexivity. }
  cbn zeta.
  pose proof (length_post_each post table (batches records) s) as Hlen.
  destruct (post_each post s table (batches records)) as [s' resps] eqn:Hpe.
  cbn [fst snd] in *.
  rewrite fst_zip by lia. rewrite snd_zip by lia.
  split; [apply concat_batches|]. split; [apply batches_bounded|].
  split; [reflexivity|]. split; [congruence|]. split; [reflexivity|].
  split; [apply accepted_count_statuses|reflexivity].
Qed.

(** C9 on one record, against a Store that answers 500 and against one
    that answers 201: the request is made in both runs, and the record counts
    as inserted in the second only. *)
Lemma C9_status_witness :
  (let '(s', (inserted, updated), log) :=
     batch_upsert (recording_post (fun _ => Status 500)) [] "fragrances"
                  [(∅ : record)] in
   (snd <$> log) = [Status 500] /\ inserted = 0)
  /\ (let '(s', (inserted, updated), log) :=
        batch_upsert (recording_post (fun _ => Status 201)) [] "fragrances"
                     [(∅ : record)] in
      (snd <$> log) = [Status 201] /\ inserted = 1).
Proof.
  split.
  - pose proof (C9_batch_upsert_partitions
                  (recording_post (fun _ => Status 500)) [] "fragrances"
                  [(∅ : record)]) as H.
    destruct (batch_upsert (recording_post (fun _ => Status 500)) []
                           "fragrances" [(∅ : record)])
      as [[s' [inserted updated]] log].
    destruct H as (_ & _ & Hsent & Hposts & _ & Hsum & _).
    cbv zeta in Hposts. rewrite Hsent in Hposts.
    injection Hposts as _ Hresps. rewrite Hsum.
    destruct log as [|[b r] [|e log]]; try discriminate Hresps.
    injection Hresps as ->. split; reflexivity.
  - pose proof (C9_batch_upsert_partitions
                  (recording_post (fun _ => Status 201)) [] "fragrances"
                  [(∅ : record)]) as H.
    destruct (batch_upsert (recording_post (fun _ => Status 201)) []
                           "fragrances" [(∅ : record)])
      as [[s' [inserted updated]] log].
    destruct H as (Hcat & _ & Hsent & Hposts & _ & Hsum & _).
    cbv zeta in Hposts. rewrite Hsent in Hposts.
    injection Hposts as _ Hresps. rewrite Hsum.
    destruct log as [|[b r] [|e log]]; try discriminate Hresps.
    injection Hresps as ->. injection Hsent as ->. split; reflexivity.
Defined.

(** A run of 250 records against a Store that fails the second request:
    three requests are made, of 100, 100 and 50 records, and 150 records
    count as inserted. *)
Example batch_upsert_second_fails :
  let records := repeat (∅ : record) 250 in
  let '(s', (inserted, updated), log) :=
    batch_upsert (recording_post fail_second) [] "fragrances" records in
  (length <$> s') = [100; 100; 50] /\ inserted = 150 /\ updated = 0
  /\ (snd <$> log) = [Status 201; Status 500; Status 201].
Proof. vm_compute. repeat split; reflexivity. Qed.

End BatchUpsertFacts.
(** ** [fix_data_for_import.py]: deduplication *)

Module FixDataForImportFacts.
Import FixDataForImport PyFacts.

Lemma id_key_Ok (r : record) (k : value) :
  id_key r = Ok k <-> r !! "id" = Some k /\ (forall l, k <> VList l).
Proof.
  unfold id_key, getitem. destruct (r !! "id") as [v|]; simpl.
  - destruct v; simpl; split;
      try (intros [= <-]; split; [reflexivity|discriminate]);
      try (intros [[= <-] _]; reflexivity).
    + discriminate.
    + intros [[= <-] H]. destruct (H l). reflexivity.
  - split; [discriminate|intros [[=] _]].
Qed.

Lemma has_key_id (k : value) (r : record) :
  has_key py_eqb id_key k r = true <-> id_key r = Ok k.
Proof.
  unfold has_key. destruct (id_key r) as [k'|e].
  - rewrite py_eqb_eq. split; [intros ->; reflexivity|intros [= ->]; reflexivity].
  - split; discriminate.
Qed.

Lemma best_of_group_Ok (g : list record) :
  g <> [] ->
  exists first rest,
    g = first :: rest
    /\ best_of_group g = Ok (max_by record_quality_score first rest).
Proof.
  destruct g as [|first rest]; [congruence|]. intros _.
  exists first, rest. split; [reflexivity|]. destruct rest; reflexivity.
Qed.

(** What [remove_duplicates] returns: one record per group, the first of
    maximal quality in the group. *)
Lemma remove_duplicates_inv (fragrances out : list record) :
  remove_duplicates fragrances = Ok out ->
  exists groups,
    grouped py_eqb id_key fragrances groups
    /\ Forall2 (fun kg r =>
                  exists first rest,
                    snd kg = first :: rest
                    /\ r = max_by record_quality_score first rest)
               groups out
    /\ Forall (fun r => exists k, id_key r = Ok k) fragrances.
Proof.
  unfold remove_duplicates. intros H.
  destruct (group_by py_eqb id_key fragrances []) as [groups|] eqn:Hg;
    [|discriminate].
  simpl in H. exists groups.
  destruct (group_by_grouped py_eqb id_key py_eqb_eq _ [] _ _ Hg (grouped_nil _ _))
    as [Hgr Hkeys].
  simpl in Hgr. split; [exact Hgr|]. split; [|exact Hkeys].
  apply mapM_Ok in H. destruct Hgr as (_ & Hgr & _).
  assert (forall kg, In kg groups -> snd kg <> []) as Hne.
  { intros [k g] Hin. apply (Hgr k g Hin). }
  clear Hgr Hg. induction H as [|kg r groups out Hb _ IH]; [constructor|].
  constructor; [|apply IH; intros; apply Hne; right; assumption].
  destruct (best_of_group_Ok (snd kg)) as (first & rest & E & Hbest).
  { apply Hne. left. reflexivity. }
  exists first, rest. split; [exact E|]. congruence.
Qed.

(** The winner of a group is one of the input records with the group's key. *)
Lemma winner_in_group (fragrances : list record) groups k g first rest :
  grouped py_eqb id_key fragrances groups ->
  In (k, g) groups -> g = first :: rest ->
  let r := max_by record_quality_score first rest in
  In r fragrances /\ r !! "id" = Some k.
Proof.
  intros (_ & Hgr & _) Hin E.
  destruct (Hgr k g Hin) as [_ Hg].
  pose proof (max_by_in record_quality_score first rest) as Hm.
  rewrite <- E, Hg in Hm. apply filter_In in Hm as [Hm1 Hm2].
  apply has_key_id, id_key_Ok in Hm2 as [Hm2 _]. auto.
Qed.

Lemma remove_duplicates_total (fragrances : list record) :
  Forall has_id fragrances -> exists out, remove_duplicates fragrances = Ok out.
Proof.
  intros H. unfold remove_duplicates.
  destruct (group_by_total py_eqb id_key fragrances []) as [groups Hg].
  { eapply Forall_impl; [exact H|]. intros r (v & Hv). exists v.
    apply id_key_Ok. exact Hv. }
  rewrite Hg. simpl.
  destruct (group_by_grouped py_eqb id_key py_eqb_eq _ [] _ _ Hg (grouped_nil _ _))
    as [(_ & Hgr & _) _].
  rewrite (mapM_total _ (fun kg => match snd kg with
                                   | first :: rest => max_by record_quality_score first rest
                                   | [] => ∅
                                   end)); [eauto|].
  apply Forall_forall. intros [k g] Hin. apply list_elem_of_In in Hin.
  simpl.
  destruct (best_of_group_Ok g) as (first & rest & -> & ->); [apply (Hgr k g Hin)|].
  reflexivity.
Qed.

(** C2.  For every input list, whenever [remove_duplicates] returns, no
    two records of the output have the same id, every output record is one
    of the input and every input id is kept; and it does return as soon as
    every input record has an id that can be hashed. *)
Theorem C2_remove_duplicates_unique_ids (fragrances : list record) :
  (Forall has_id fragrances ->
   exists out, remove_duplicates fragrances = Ok out)
  /\ (forall out, remove_duplicates fragrances = Ok out ->
       List.NoDup (map (fun r : record => r !! "id") out)
       /\ (forall r, In r out -> In r fragrances)
       /\ (forall r, In r fragrances ->
                     exists r', In r' out /\ r' !! "id" = r !! "id")).
Proof.
  split; [apply remove_duplicates_total|]. intros out H.
  destruct (remove_duplicates_inv _ _ H) as (groups & Hgr & Hout & Hkeys).
  assert (forall kg r, In kg groups ->
            (exists first rest, snd kg = first :: rest
               /\ r = max_by record_quality_score first rest) ->
            In r fragrances /\ r !! "id" = Some (fst kg)) as Hwin.
  { intros [k g] r Hin (first & rest & E & ->).
    apply (winner_in_group fragrances groups k g first rest Hgr Hin E). }
  split; [|split].
  - rewrite (Forall2_map_eq _ _ (fun kg => Some (fst kg)) _ _ Hout)
      by (intros kg r Hin HR; apply (Hwin kg r Hin HR)).
    rewrite <- (map_map fst Some).
    apply Finite.Injective_map_NoDup; [|apply Hgr].
    intros x y [=]. assumption.
  - intros r Hr.
    destruct (Forall2_in_right _ _ _ _ Hout Hr) as (kg & Hin & HR).
    apply (Hwin kg r Hin HR).
  - intros r Hr. destruct Hgr as (_ & _ & Hall).
    apply List.Forall_forall with (x := r) in Hkeys as [k Hk]; [|exact Hr].
    pose proof (Hall r k Hr Hk) as Hin.
    apply in_map_iff in Hin as ([k' g] & <- & Hin).
    destruct (Forall2_in_left _ _ _ _ Hout Hin) as (r' & Hr' & HR).
    exists r'. split; [exact Hr'|].
    apply id_key_Ok in Hk as [-> _]. apply (Hwin _ _ Hin HR).
Qed.

Lemma C2_unique_ids_witness :
  List.NoDup [Some (VStr "dior__sauvage"); Some (VStr "creed__aventus")].
Proof.
  assert (remove_duplicates [sauvage_unrated; aventus; sauvage_rated]
          = Ok [sauvage_rated; aventus]) as H by (vm_compute; reflexivity).
  exact (proj1 (proj2 (C2_remove_duplicates_unique_ids _) _ H)).
Defined.


(** C3, as stated, fails: a review count of 0 is present but earns nothing,
    so of two records identical except that one has [rating_count = 0] and
    the other has none, the first seen is kept, not the one with the
    count; the kept record does not maximise the heuristic as worded. *)
Lemma C3_zero_count_counterexample :
  remove_duplicates [sauvage_plain; sauvage_zero_count] = Ok [sauvage_plain]
  /\ sauvage_plain !! "rating_count" = None
  /\ sauvage_zero_count !! "rating_count" = Some (num 0)
  /\ (stated_quality_score sauvage_plain < stated_quality_score sauvage_zero_count)%Z.
Proof. repeat split; vm_compute; reflexivity. Qed.

Lemma score_without_count (a : record) :
  truthy (get a "rating_count") = true ->
  record_quality_score (delete "rating_count" a)
  = (record_quality_score a - 10)%Z.
Proof.
  intros Ht. unfold record_quality_score, get, get_default.
  rewrite lookup_delete_eq.
  rewrite !lookup_delete_ne by discriminate.
  unfold get, get_default in Ht. rewrite Ht. simpl. lia.
Qed.

(** C3, amended.  Whenever [remove_duplicates] returns, each output record
    is, among the input records with its id, the first of maximal quality
    score, where the score adds 10 for a non-zero [rating_value], 10 for a
    non-zero [rating_count], 5 for each non-empty notes field, 3 for a
    non-empty perfumer list and 1 for a non-empty URL.  In particular, of
    two records identical except that one has a non-zero [rating_count] and
    the other has none, the one with the count is kept, in either order. *)
Theorem C3_first_of_maximal_quality :
  (forall fragrances out, remove_duplicates fragrances = Ok out ->
     forall r, In r out ->
       exists before after,
         fragrances = (before ++ r :: after)%list
         /\ (forall r', In r' before -> r' !! "id" = r !! "id" ->
                        (record_quality_score r' < record_quality_score r)%Z)
         /\ (forall r', In r' after -> r' !! "id" = r !! "id" ->
                        (record_quality_score r' <= record_quality_score r)%Z))
  /\ (forall a : record, has_id a -> truthy (get a "rating_count") = true ->
       remove_duplicates [a; delete "rating_count" a] = Ok [a]
       /\ remove_duplicates [delete "rating_count" a; a] = Ok [a]).
Proof.
  split.
  - intros fragrances out H r Hr.
    destruct (remove_duplicates_inv _ _ H) as (groups & Hgr & Hout & Hkeys).
    destruct (Forall2_in_right _ _ _ _ Hout Hr) as ([k g] & Hin & first & rest & E & ->).
    simpl in E.
    destruct (winner_in_group fragrances groups k g first rest Hgr Hin E) as [_ Hid].
    destruct Hgr as (_ & Hgr & _). destruct (Hgr k g Hin) as [_ Hg].
    destruct (max_by_first record_quality_score first rest) as (g1 & g2 & Hsplit & H1 & H2).
    rewrite <- E, Hg in Hsplit.
    destruct (filter_split _ _ _ _ _ Hsplit) as (l1 & l2 & -> & <- & <-).
    exists l1, l2. split; [reflexivity|].
    assert (forall r' : record, In r' (l1 ++ max_by record_quality_score first rest :: l2) ->
              r' !! "id" = Some k -> has_key py_eqb id_key k r' = true) as Hkey.
    { intros r' Hr' Hid'.
      apply List.Forall_forall with (x := r') in Hkeys as [k' Hk']; [|exact Hr'].
      apply has_key_id. rewrite Hk'. apply id_key_Ok in Hk' as [Hk' _]. congruence. }
    rewrite Hid. split; intros r' Hr' Hid'.
    + apply (proj1 (List.Forall_forall _ _) H1). apply filter_In. split; [exact Hr'|].
      apply Hkey; [apply in_or_app; left; exact Hr'|exact Hid'].
    + apply (proj1 (List.Forall_forall _ _) H2). apply filter_In. split; [exact Hr'|].
      apply Hkey; [apply in_or_app; right; right; exact Hr'|exact Hid'].
  - intros a (v & Hv & Hl) Ht.
    assert (id_key a = Ok v) as Ha by (apply id_key_Ok; auto).
    assert (id_key (delete "rating_count" a) = Ok v) as Hb.
    { apply id_key_Ok. split; [|exact Hl].
      rewrite lookup_delete_ne by discriminate. exact Hv. }
    assert (py_eqb v v = true) as Hvv by (apply py_eqb_eq; reflexivity).
    pose proof (score_without_count a Ht) as Hs.
    unfold remove_duplicates. simpl. rewrite Ha, Hb. simpl. rewrite Hvv. simpl.
    split.
    + destruct (Z.ltb_spec (record_quality_score a)
                           (record_quality_score (delete "rating_count" a)));
        [lia|reflexivity].
    + destruct (Z.ltb_spec (record_quality_score (delete "rating_count" a))
                           (record_quality_score a)); [reflexivity|lia].
Qed.

Lemma C3_rating_count_kept_witness :
  remove_duplicates [sauvage_rated; delete "rating_count" sauvage_rated]
  = Ok [sauvage_rated]
  /\ remove_duplicates [delete "rating_count" sauvage_rated; sauvage_rated]
     = Ok [sauvage_rated].
Proof.
  apply (proj2 C3_first_of_maximal_quality sauvage_rated).
  - exists (VStr "dior__sauvage"). split; [vm_compute; reflexivity|discriminate].
  - vm_compute; reflexivity.
Defined.

End FixDataForImportFacts.
(** ** [fix_duplicate_names.py]: name-collision disambiguation *)

Module FixDuplicateNamesFacts.
Import FixDuplicateNames PyFacts.


(** Two records of one group whose ids both name the same concentration get
    the same name, and the function counts one repeated key. *)
Lemma same_token_same_name :
  fix_duplicate_names no_repr [sauvage_edp; sauvage_edp_2018]
  = Ok ([ <["name" := VStr "Sauvage EDP"]> sauvage_edp;
          <["name" := VStr "Sauvage EDP"]> sauvage_edp_2018 ], 1).
Proof. vm_compute; reflexivity. Qed.

Section Formatting.
Variable str_other : value -> string.

Lemma key_eqb_eq (k1 k2 : value * value) : key_eqb k1 k2 = true <-> k1 = k2.
Proof.
  destruct k1 as [a b], k2 as [c d]. unfold key_eqb. simpl.
  rewrite andb_true_iff, !py_eqb_eq.
  split; [intros [-> ->]; reflexivity|intros [= -> ->]; auto].
Qed.











End Formatting.


End FixDuplicateNamesFacts.
(** ** Bounds on [exp] and [ln] by truncated squaring *)

Module LogBounds.
Import FixedPoint.

Local Open Scope R_scope.

Lemma one_plus_pow_le_exp (x : R) (n : nat) :
  0 <= 1 + x -> (1 + x) ^ n <= exp (INR n * x).
Proof.
  intros Hx. induction n as [|n IH].
  - simpl. rewrite Rmult_0_l, exp_0. lra.
  - rewrite S_INR. replace ((INR n + 1) * x) with (x + INR n * x) by ring.
    rewrite exp_plus. simpl.
    apply Rmult_le_compat; [exact Hx|apply pow_le; exact Hx
                           |apply exp_ineq1_le|exact IH].
Qed.

Lemma sq_down_le (scale c : Z) :
  (0 < scale)%Z ->
  IZR (sq_down scale c) / IZR scale <= (IZR c / IZR scale) * (IZR c / IZR scale).
Proof.
  intros Hs. unfold sq_down.
  assert (0 < IZR scale) as Hs' by (apply IZR_lt; exact Hs).
  assert (IZR (c * c / scale) * IZR scale <= IZR c * IZR c) as H.
  { rewrite <- !mult_IZR. apply IZR_le. rewrite Z.mul_comm.
    apply Z.mul_div_le. exact Hs. }
  apply Rmult_le_reg_r with (r := IZR scale * IZR scale).
  - apply Rmult_lt_0_compat; assumption.
  - field_simplify; [|lra|lra]. 
    replace (IZR (c * c / scale) * IZR scale ^ 2 / IZR scale)
      with (IZR (c * c / scale) * IZR scale) by (field; lra).
    replace (IZR c ^ 2) with (IZR c * IZR c) by ring. 
    lra.
Qed.

Lemma iter_sq_le (m : nat) (scale : Z) :
  (0 < scale)%Z ->
  forall (c : Z) (r : R),
    (0 <= c)%Z -> IZR c / IZR scale <= r ->
    IZR (iter_sq m scale c) / IZR scale <= r ^ (2 ^ m).
Proof.
  intros Hs. assert (0 < IZR scale) as Hs' by (apply IZR_lt; exact Hs).
  induction m as [|m IH]; intros c r Hc Hr.
  - simpl. lra.
  - simpl iter_sq.
    assert (0 <= IZR c / IZR scale) as H0.
    { apply Rmult_le_pos; [apply IZR_le; exact Hc|].
      apply Rlt_le, Rinv_0_lt_compat, Hs'. }
    replace (r ^ (2 ^ S m)) with ((r * r) ^ (2 ^ m)).
    + apply IH.
      * unfold sq_down. apply Z.div_pos; [apply Z.mul_nonneg_nonneg; exact Hc|exact Hs].
      * eapply Rle_trans; [apply sq_down_le; exact Hs|].
        apply Rmult_le_compat; assumption.
    + change (2 ^ S m)%nat with (2 * 2 ^ m)%nat. rewrite pow_mult.
      f_equal. simpl. ring.
Qed.

(** If the truncated power of [1 + x / 2^m] exceeds [y], so does [exp x]. *)
Lemma exp_lower_bound (m : nat) (scale c : Z) (x y : R) :
  (0 < scale)%Z -> (0 <= c)%Z ->
  IZR c / IZR scale <= 1 + x / 2 ^ m ->
  y < IZR (iter_sq m scale c) / IZR scale ->
  y < exp x.
Proof.
  intros Hs Hc Hc0 Hy.
  assert (0 < IZR scale) as Hs' by (apply IZR_lt; exact Hs).
  assert (0 < 2 ^ m) as Hn by (apply pow_lt; lra).
  assert (0 <= 1 + x / 2 ^ m) as Hpos.
  { eapply Rle_trans; [|exact Hc0].
    apply Rmult_le_pos; [apply IZR_le; exact Hc|].
    apply Rlt_le, Rinv_0_lt_compat, Hs'. }
  eapply Rlt_le_trans; [exact Hy|].
  eapply Rle_trans; [apply (iter_sq_le m scale Hs c _ Hc Hc0)|].
  eapply Rle_trans; [apply one_plus_pow_le_exp; exact Hpos|].
  right. f_equal. rewrite pow_INR.
  replace (INR 2) with 2 by (simpl; lra).
  set (n := 2 ^ m) in *. field. lra.
Qed.

Lemma IZR_div_le (a b : Z) : (0 < b)%Z -> IZR (a / b) <= IZR a / IZR b.
Proof.
  intros Hb. assert (0 < IZR b) as Hb' by (apply IZR_lt; exact Hb).
  apply Rmult_le_reg_r with (r := IZR b); [exact Hb'|].
  replace (IZR a / IZR b * IZR b) with (IZR a) by (field; lra).
  rewrite <- mult_IZR. apply IZR_le. rewrite Z.mul_comm.
  apply Z.mul_div_le. exact Hb.
Qed.

(** [ln 851] lies between 6.74504 and 6.74702. *)
Lemma ln_851_upper : ln 851 < 674702 / 100000.
Proof.
  apply exp_lt_inv. rewrite exp_ln by lra.
  apply (exp_lower_bound 20 scale30
           (scale30 + 674702 * scale30 / (100000 * 2 ^ 20))%Z).
  - reflexivity.
  - vm_compute. discriminate.
  - rewrite plus_IZR.
    pose proof (IZR_div_le (674702 * scale30) (100000 * 2 ^ 20) eq_refl) as H.
    rewrite !mult_IZR in H.
    assert (0 < IZR scale30) as Hs by (apply IZR_lt; reflexivity).
    change (IZR (2 ^ 20)) with (IZR 1048576) in H.
    replace (2 ^ 20) with 1048576 by (simpl; lra).
    set (s := IZR scale30) in *.
    set (q := IZR (674702 * scale30 / (100000 * 2 ^ 20))) in *.
    apply Rmult_le_reg_r with (r := s); [exact Hs|].
    replace ((s + q) / s * s) with (s + q) by (field; lra).
    lra.
  - apply Rmult_lt_reg_r with (r := IZR scale30); [apply IZR_lt; reflexivity|].
    unfold Rdiv. rewrite Rmult_assoc, Rinv_l, Rmult_1_r
      by (apply not_0_IZR; discriminate).
    rewrite <- mult_IZR. apply IZR_lt. vm_compute. reflexivity.
Qed.

Lemma IZR_div_gt (a b : Z) : (0 < b)%Z -> IZR a / IZR b < IZR (a / b + 1).
Proof.
  intros Hb. assert (0 < IZR b) as Hb' by (apply IZR_lt; exact Hb).
  apply Rmult_lt_reg_r with (r := IZR b); [exact Hb'|].
  replace (IZR a / IZR b * IZR b) with (IZR a) by (field; lra).
  rewrite <- mult_IZR. apply IZR_lt. rewrite Z.mul_comm.
  apply Z.mul_succ_div_gt. exact Hb.
Qed.

Lemma ln_851_lower : 674504 / 100000 < ln 851.
Proof.
  rewrite <- (ln_exp (674504 / 100000)).
  apply ln_increasing; [apply exp_pos|].
  assert (/ 851 < exp (- (674504 / 100000))) as H; [|
    rewrite exp_Ropp in H; apply Rnot_le_lt; intros Hle;
    apply Rinv_le_contravar in Hle; lra].
  apply (exp_lower_bound 20 scale30
           (scale30 - (674504 * scale30 / (100000 * 2 ^ 20) + 1))%Z).
  - reflexivity.
  - vm_compute. discriminate.
  - rewrite minus_IZR.
    pose proof (IZR_div_gt (674504 * scale30) (100000 * 2 ^ 20) eq_refl) as H.
    rewrite !mult_IZR in H.
    assert (0 < IZR scale30) as Hs by (apply IZR_lt; reflexivity).
    change (IZR (2 ^ 20)) with (IZR 1048576) in H.
    replace (2 ^ 20) with 1048576 by (simpl; lra).
    set (s := IZR scale30) in *.
    set (q := IZR (674504 * scale30 / (100000 * 2 ^ 20) + 1)) in *.
    apply Rmult_le_reg_r with (r := s); [exact Hs|].
    replace ((s - q) / s * s) with (s - q) by (field; lra).
    lra.
  - apply Rmult_lt_reg_r with (r := IZR scale30 * 851);
      [apply Rmult_lt_0_compat; [apply IZR_lt; reflexivity|lra]|].
    replace (/ 851 * (IZR scale30 * 851)) with (IZR scale30) by (field; lra).
    match goal with |- _ < IZR ?c / _ * _ =>
      replace (IZR c / IZR scale30 * (IZR scale30 * 851)) with (IZR c * 851)
        by (field; apply not_0_IZR; discriminate)
    end.
    rewrite <- mult_IZR. apply IZR_lt. vm_compute. reflexivity.
Qed.

End LogBounds.

(** ** [kaggle_processor.py]: the priority score *)

Module KaggleScoreFacts.
Import KaggleProcessor FixedPoint LogBounds.

Lemma existsb_false_Forall {A : Type} (p : A -> bool) (l : list A) :
  Forall (fun a => p a = false) l -> existsb p l = false.
Proof.
  induction 1 as [|a l Ha _ IH]; simpl; [reflexivity|].
  rewrite Ha, IH. reflexivity.
Qed.

Lemma unboosted_boosts (cfg : config) (brand perfume_name : string) :
  unboosted cfg brand perfume_name ->
  brand_boost cfg brand = 1%Q
  /\ bestseller_boost cfg perfume_name = Some 1%Q
  /\ classic_boost cfg perfume_name = 1%Q.
Proof.
  intros (Ht & Hb & Hc). split; [|split].
  - unfold brand_boost.
    assert (List.find (fun t => existsb (String.eqb brand) (brands t)) (tiers cfg)
            = None) as ->; [|reflexivity].
    induction Ht as [|t ts Hnot _ IH]; simpl; [reflexivity|].
    destruct (existsb (String.eqb brand) (brands t)) eqn:E; [|exact IH].
    apply existsb_exists in E as (x & Hx & E). apply String.eqb_eq in E.
    subst x. contradiction.
  - unfold bestseller_boost. destruct (true_bestsellers cfg) as [names|]; [|reflexivity].
    rewrite (existsb_false_Forall _ _ (Hb names eq_refl)). reflexivity.
  - unfold classic_boost. destruct (classic_fragrances cfg) as [[names boost]|];
      [|reflexivity].
    rewrite (existsb_false_Forall _ _ (Hc names boost eq_refl)). reflexivity.
Qed.

Local Open Scope R_scope.

Lemma scenario_value_bounds :
  33995 / 1000 < 42 / 10 * ln 851 * (12 / 10) < 34005 / 1000.
Proof.
  pose proof ln_851_lower. pose proof ln_851_upper. lra.
Qed.

Lemma score_scenario (r : row) (cfg : config) :
  Rating_Value r = Some (42 # 10)%Q -> Rating_Count r = Some 850%Z ->
  Year r = Some 2024%Z -> Brand r = "phlur" ->
  unboosted cfg "phlur" (lower (Perfume r)) ->
  calculate_priority_score r cfg = 42 / 10 * ln 851 * (12 / 10).
Proof.
  intros Hv Hc Hy Hb Hu. unfold calculate_priority_score.
  rewrite Hv, Hc, Hy, Hb.
  change (strip (lower "phlur")) with "phlur".
  destruct (unboosted_boosts _ _ _ Hu) as (-> & -> & ->).
  simpl. unfold Q2R. simpl. change (850 + 1)%Z with 851%Z. field.
Qed.

(** C5, as stated, fails: the score of the Scenario D record is below
    34.01, so it does not agree with 34.5 to two decimal places. *)
Lemma C5_scenario_D_counterexample :
  calculate_priority_score scenario_D no_boosts < 3401 / 100
  /\ ~ to_2_places (calculate_priority_score scenario_D no_boosts) (345 / 10).
Proof.
  assert (calculate_priority_score scenario_D no_boosts
          = 42 / 10 * ln 851 * (12 / 10)) as ->.
  { apply score_scenario; try reflexivity.
    split; [constructor|]. split; [intros ? [=]|intros ? ? [=]]. }
  pose proof scenario_value_bounds as [Hlo Hhi].
  split; [lra|]. unfold to_2_places. intros H.
  apply Rabs_def2 in H. lra.
Qed.

(** C5, amended.  With a positive rating and a positive review count the
    score is [rating * ln (reviews + 1)] times the brand-tier, recency,
    bestseller and classic boosts; with a rating or a review count that is
    missing or zero it is exactly 0; and the Scenario D record, with no tier
    or curated-list match, scores [4.2 * ln 851 * 1.2], which is 34.00 to two
    decimal places. *)
Theorem C5_priority_score_formula (r : row) (cfg : config) :
  (forall rating reviews bestseller,
     Rating_Value r = Some rating -> Rating_Count r = Some reviews ->
     (0 < rating)%Q -> (0 < reviews)%Z ->
     bestseller_boost cfg (lower (Perfume r)) = Some bestseller ->
     calculate_priority_score r cfg
     = Q2R rating * ln (IZR (reviews + 1))
       * Q2R (brand_boost cfg (strip (lower (Brand r))))
       * Q2R (recency_boost (parse_year (Year r)))
       * Q2R bestseller
       * Q2R (classic_boost cfg (lower (Perfume r))))
  /\ (missing_or_zero_Q (Rating_Value r) \/ missing_or_zero_Z (Rating_Count r) ->
      calculate_priority_score r cfg = 0)
  /\ (Rating_Value r = Some (42 # 10)%Q -> Rating_Count r = Some 850%Z ->
      Year r = Some 2024%Z -> Brand r = "phlur" ->
      unboosted cfg "phlur" (lower (Perfume r)) ->
      calculate_priority_score r cfg = 42 / 10 * ln 851 * (12 / 10)
      /\ to_2_places (calculate_priority_score r cfg) 34).
Proof.
  split; [|split].
  - intros rating reviews b Hv Hc Hpos Hrev Hb.
    unfold calculate_priority_score. rewrite Hv, Hc, Hb. simpl.
    apply Z.ltb_lt in Hrev. rewrite Hrev.
    assert (Qle_bool rating 0 = false) as ->.
    { apply not_true_iff_false. rewrite Qle_bool_iff.
      apply Qlt_not_le, Hpos. }
    reflexivity.
  - unfold calculate_priority_score, missing_or_zero_Q, missing_or_zero_Z.
    intros [H|H].
    + assert (Qle_bool (default 0%Q (Rating_Value r)) 0 = true) as ->.
      { apply Qle_bool_iff. destruct (Rating_Value r) as [q|]; simpl.
        - rewrite H. apply Qle_refl.
        - apply Qle_refl. }
      rewrite andb_false_r. reflexivity.
    + assert ((0 <? default 0 (Rating_Count r))%Z = false) as ->.
      { apply Z.ltb_ge. destruct (Rating_Count r) as [z|]; simpl; lia. }
      reflexivity.
  - intros Hv Hc Hy Hb Hu.
    rewrite (score_scenario r cfg Hv Hc Hy Hb Hu). split; [reflexivity|].
    pose proof scenario_value_bounds as [Hlo Hhi].
    unfold to_2_places. apply Rabs_def1; lra.
Qed.

Lemma C5_scenario_D_witness :
  to_2_places (calculate_priority_score scenario_D no_boosts) 34.
Proof.
  apply (proj2 (proj2 (C5_priority_score_formula scenario_D no_boosts)));
    try reflexivity.
  split; [constructor|]. split; [intros ? [=]|intros ? ? [=]].
Defined.

End KaggleScoreFacts.
(** ** [04_database_importer.py]: what the validators accept *)

Module ValidatorAcceptance.
Import DatabaseImporter DatabaseImporterFacts ImportRun PyFacts.

Lemma check_required_nil (f : record) :
  check_required f = [] <->
  forall field, In field required_fields -> missing f field = false.
Proof.
  unfold check_required. split.
  - intros H field Hin. apply map_eq_nil in H.
    destruct (missing f field) eqn:E; [|reflexivity].
    assert (In field (List.filter (missing f) required_fields)) as Hf
      by (apply filter_In; auto).
    rewrite H in Hf. destruct Hf.
  - intros H. rewrite (filter_none _ _ H). reflexivity.
Qed.

Lemma check_range_nil (field : string) (lo hi : Q)
    (err : value -> validation_error) (f : record) :
  check_range field lo hi err f = Ok [] <->
  f !! field = None \/ f !! field = Some VNone
  \/ exists q, f !! field = Some (VNum q) /\ in_range_Q lo hi q.
Proof.
  unfold check_range.
  destruct (f !! field) as [[|q|s|l]|]; simpl.
  - split; auto.
  - destruct (out_of_range_num lo hi q) as [_ Hiff].
    destruct (negb (Qle_bool lo q && Qle_bool q hi)) eqn:E.
    + split; [discriminate|]. intros [H|[H|(q' & [= <-] & Hq)]]; try discriminate.
      destruct (proj1 Hiff eq_refl Hq).
    + split; [|reflexivity]. intros _. right. right. exists q.
      split; [reflexivity|].
      unfold in_range_Q. apply negb_false_iff, andb_true_iff in E as [E1 E2].
      apply Qle_bool_iff in E1, E2. auto.
  - split; [discriminate|]. intros [H|[H|(q' & [=] & _)]]; discriminate.
  - split; [discriminate|]. intros [H|[H|(q' & [=] & _)]]; discriminate.
  - split; auto.
Qed.

Lemma check_id_format_nil (f : record) :
  check_id_format f = Ok [] <->
  f !! "id" = None \/ f !! "brand_id" = None
  \/ exists id brand_id,
       f !! "id" = Some (VStr id) /\ f !! "brand_id" = Some (VStr brand_id)
       /\ startswith (brand_id +:+ "__") id = true.
Proof.
  unfold check_id_format.
  destruct (f !! "id") as [i|]; [|split; auto].
  destruct (f !! "brand_id") as [b|]; [|split; auto].
  destruct i as [|q|id|l];
    try (split; [discriminate|intros [H|[H|(? & ? & [=] & _)]]; discriminate]).
  destruct b as [|q|brand_id|l];
    try (split; [discriminate|intros [H|[H|(? & ? & _ & [=] & _)]]; discriminate]).
  destruct (startswith (brand_id +:+ "__") id) eqn:E.
  - split; [|reflexivity]. intros _. right. right. eauto.
  - split; [discriminate|].
    intros [H|[H|(? & ? & [= <-] & [= <-] & H)]]; try discriminate. congruence.
Qed.

(** The conditions under which the fragrance validator reports nothing. *)
Lemma accepted_conditions (f : record) :
  validate_fragrance_data f = Ok (true, []) <->
  (forall field, In field required_fields ->
     exists v, f !! field = Some v /\ truthy v = true)
  /\ (f !! "accords" <> None \/ f !! "main_accords" <> None)
  /\ (f !! "gender" = Some (VStr "men") \/ f !! "gender" = Some (VStr "women")
      \/ f !! "gender" = Some (VStr "unisex"))
  /\ (f !! "rating_value" = None \/ f !! "rating_value" = Some VNone
      \/ exists q, f !! "rating_value" = Some (VNum q) /\ in_range_Q 0 5 q)
  /\ (f !! "sample_price_usd" = None \/ f !! "sample_price_usd" = Some VNone
      \/ exists q, f !! "sample_price_usd" = Some (VNum q) /\ in_range_Q 0 100 q)
  /\ (exists id brand_id,
        f !! "id" = Some (VStr id) /\ f !! "brand_id" = Some (VStr brand_id)
        /\ startswith (brand_id +:+ "__") id = true).
Proof.
  split.
  - intros H.
    apply validate_inv in H as (e1 & e2 & e3 & H1 & H2 & H3 & Herrs & _).
    symmetry in Herrs. apply app_eq_nil in Herrs as [Hreq Herrs].
    apply app_eq_nil in Herrs as [Hacc Herrs].
    apply app_eq_nil in Herrs as [Hgen Herrs].
    apply app_eq_nil in Herrs as [-> Herrs].
    apply app_eq_nil in Herrs as [-> ->].
    pose proof (proj1 (check_required_nil f) Hreq) as Hm.
    assert (forall field, In field required_fields ->
              exists v, f !! field = Some v /\ truthy v = true) as Hreq'.
    { intros field Hin. apply missing_false, Hm, Hin. }
    split; [exact Hreq'|].
    split.
    { unfold check_accords in Hacc.
      destruct (f !! "main_accords"); [right; discriminate|].
      destruct (f !! "accords"); [left; discriminate|discriminate]. }
    split.
    { destruct (Hreq' "gender") as (g & Hg & _); [simpl; tauto|].
      unfold check_gender in Hgen. rewrite Hg in Hgen. rewrite Hg.
      simpl in Hgen.
      destruct (py_eqb g (VStr "men")) eqn:E1;
        [apply py_eqb_str in E1; subst; auto|].
      destruct (py_eqb g (VStr "women")) eqn:E2;
        [apply py_eqb_str in E2; subst; auto|].
      destruct (py_eqb g (VStr "unisex")) eqn:E3;
        [apply py_eqb_str in E3; subst; auto|].
      discriminate. }
    split; [apply (proj1 (check_range_nil _ _ _ InvalidRating _) H1)|].
    split; [apply (proj1 (check_range_nil _ _ _ InvalidPrice _) H2)|].
    apply check_id_format_nil in H3 as [H3|[H3|H3]]; [| |exact H3].
    + destruct (Hreq' "id") as (v & Hv & _); [simpl; tauto|congruence].
    + destruct (Hreq' "brand_id") as (v & Hv & _); [simpl; tauto|congruence].
  - intros (Hreq & Hacc & Hgen & Hr & Hp & Hid).
    unfold validate_fragrance_data.
    rewrite (proj2 (check_range_nil "rating_value" _ _ InvalidRating _) Hr).
    rewrite (proj2 (check_range_nil "sample_price_usd" _ _ InvalidPrice _) Hp).
    rewrite (proj2 (check_id_format_nil f) (or_intror (or_intror Hid))).
    assert (check_required f = []) as ->.
    { apply check_required_nil. intros field Hin.
      destruct (Hreq field Hin) as (v & Hv & Ht). unfold missing.
      rewrite Hv, Ht. reflexivity. }
    assert (check_accords f = []) as ->.
    { unfold check_accords.
      destruct (f !! "main_accords"); [reflexivity|].
      destruct (f !! "accords"); [reflexivity|]. destruct Hacc; congruence. }
    assert (check_gender f = []) as ->.
    { unfold check_gender. destruct Hgen as [Hg|[Hg|Hg]]; rewrite Hg; reflexivity. }
    reflexivity.
Qed.

(** X1.  The fragrance validator accepts a record exactly when the five
    required fields are present and truthy, an [accords] or [main_accords]
    key is present, the gender is one of the three strings, the rating and
    the sample price are absent, [None] or numbers within their ranges, and
    the id is a string starting with the brand id string and ["__"]. *)
Theorem validate_fragrance_accepts_iff (f : record) :
  validate_fragrance_data f = Ok (true, []) <->
  (forall field, In field required_fields ->
     exists v, f !! field = Some v /\ truthy v = true)
  /\ (f !! "accords" <> None \/ f !! "main_accords" <> None)
  /\ (f !! "gender" = Some (VStr "men") \/ f !! "gender" = Some (VStr "women")
      \/ f !! "gender" = Some (VStr "unisex"))
  /\ (f !! "rating_value" = None \/ f !! "rating_value" = Some VNone
      \/ exists q, f !! "rating_value" = Some (VNum q) /\ in_range_Q 0 5 q)
  /\ (f !! "sample_price_usd" = None \/ f !! "sample_price_usd" = Some VNone
      \/ exists q, f !! "sample_price_usd" = Some (VNum q) /\ in_range_Q 0 100 q)
  /\ (exists id brand_id,
        f !! "id" = Some (VStr id) /\ f !! "brand_id" = Some (VStr brand_id)
        /\ startswith (brand_id +:+ "__") id = true).
Proof. apply accepted_conditions. Qed.

Lemma check_availability_nil (b : record) :
  check_availability b = Ok [] <->
  b !! "sample_availability_score" = None
  \/ b !! "sample_availability_score" = Some VNone
  \/ exists q, b !! "sample_availability_score" = Some (VNum q)
               /\ in_range_Q 0 100 q.
Proof.
  unfold check_availability.
  destruct (b !! "sample_availability_score") as [[|q|s|l]|]; simpl.
  - split; auto.
  - destruct (out_of_range_num 0 100 q) as [_ Hiff].
    destruct (negb (Qle_bool 0 q && Qle_bool q 100)) eqn:E.
    + split; [discriminate|]. intros [H|[H|(q' & [= <-] & Hq)]]; try discriminate.
      destruct (proj1 Hiff eq_refl Hq).
    + split; [|reflexivity]. intros _. right. right. exists q.
      split; [reflexivity|].
      unfold in_range_Q. apply negb_false_iff, andb_true_iff in E as [E1 E2].
      apply Qle_bool_iff in E1, E2. auto.
  - split; [discriminate|]. intros [H|[H|(q' & [=] & _)]]; discriminate.
  - split; [discriminate|]. intros [H|[H|(q' & [=] & _)]]; discriminate.
  - split; auto.
Qed.

Lemma check_brand_tier_nil (b : record) :
  check_brand_tier b = [] <->
  b !! "brand_tier" = None \/ b !! "brand_tier" = Some VNone
  \/ exists t, b !! "brand_tier" = Some t /\ In t valid_tiers.
Proof.
  unfold check_brand_tier.
  destruct (b !! "brand_tier") as [t|]; [|split; auto].
  assert (existsb (py_eqb t) valid_tiers = true <-> In t valid_tiers) as Hin.
  { rewrite existsb_exists. split.
    - intros (x & Hx & E). apply py_eqb_eq in E. subst. exact Hx.
    - intros H. exists t. split; [exact H|]. apply py_eqb_eq. reflexivity. }
  destruct t as [|q|s|l]; [split; auto| | |];
    (destruct (existsb (py_eqb _) valid_tiers) eqn:E;
     [split; [intros _; right; right; eexists; split; [reflexivity|];
              apply Hin; reflexivity|reflexivity]
     |split; [discriminate|];
      intros [H|[H|(t' & [= <-] & Ht)]]; try discriminate;
      apply Hin in Ht; congruence]).
Qed.

Lemma brand_accepted_conditions (b : record) :
  validate_brand_data b = Ok (true, []) <->
  (forall field, In field brand_required_fields ->
     exists v, b !! field = Some v /\ truthy v = true)
  /\ (b !! "brand_tier" = None \/ b !! "brand_tier" = Some VNone
      \/ exists t, b !! "brand_tier" = Some t /\ In t valid_tiers)
  /\ (b !! "sample_availability_score" = None
      \/ b !! "sample_availability_score" = Some VNone
      \/ exists q, b !! "sample_availability_score" = Some (VNum q)
                   /\ in_range_Q 0 100 q).
Proof.
  assert (check_brand_required b = [] <->
          forall field, In field brand_required_fields ->
            exists v, b !! field = Some v /\ truthy v = true) as Hreq.
  { unfold check_brand_required. split.
    - intros H field Hin. apply map_eq_nil in H. apply missing_false.
      destruct (missing b field) eqn:E; [|reflexivity].
      assert (In field (List.filter (missing b) brand_required_fields)) as Hf
        by (apply filter_In; auto).
      rewrite H in Hf. destruct Hf.
    - intros H. rewrite filter_none; [reflexivity|].
      intros field Hin. destruct (H field Hin) as (v & Hv & Ht).
      unfold missing. rewrite Hv, Ht. reflexivity. }
  unfold validate_brand_data. split.
  - intros H.
    destruct (check_availability b) as [e|] eqn:He; [|discriminate].
    simpl in H. injection H as _ H.
    apply app_eq_nil in H as [H ->]. apply app_eq_nil in H as [H1 H2].
    split; [apply Hreq, H1|]. split; [apply check_brand_tier_nil, H2|].
    apply check_availability_nil, He.
  - intros (H1 & H2 & H3).
    rewrite (proj2 (check_availability_nil b) H3).
    rewrite (proj2 Hreq H1), (proj2 (check_brand_tier_nil b) H2). reflexivity.
Qed.

(** X2.  The brand validator accepts a record exactly when [id], [name] and
    [slug] are present and truthy, the tier is absent, [None] or one of the
    six tier names, and the availability score is absent, [None] or a number
    from 0 to 100; and whenever it returns, it accepts exactly when its
    error list is empty. *)
Theorem validate_brand_accepts_iff (b : record) :
  (validate_brand_data b = Ok (true, []) <->
   (forall field, In field brand_required_fields ->
      exists v, b !! field = Some v /\ truthy v = true)
   /\ (b !! "brand_tier" = None \/ b !! "brand_tier" = Some VNone
       \/ exists t, b !! "brand_tier" = Some t /\ In t valid_tiers)
   /\ (b !! "sample_availability_score" = None
       \/ b !! "sample_availability_score" = Some VNone
       \/ exists q, b !! "sample_availability_score" = Some (VNum q)
                    /\ in_range_Q 0 100 q))
  /\ (forall ok errs, validate_brand_data b = Ok (ok, errs) ->
        (ok = true <-> errs = [])).
Proof.
  split; [apply brand_accepted_conditions|].
  intros ok errs H. unfold validate_brand_data in H.
  destruct (check_availability b) as [e|]; [|discriminate].
  simpl in H. injection H as <- <-.
  rewrite Nat.eqb_eq. apply length_zero_iff_nil.
Qed.

End ValidatorAcceptance.
(** ** [04_database_importer.py]: [transform_fragrance_for_db] *)

Module TransformFacts.
Import DatabaseImporter DatabaseImporterFacts ImportRun ValidatorAcceptance PyFacts.

Lemma lookup_rename_ne (old new k : string) (d : record) :
  k <> old -> k <> new -> rename_key old new d !! k = d !! k.
Proof.
  intros H1 H2. unfold rename_key.
  destruct (d !! old); [|reflexivity]. destruct (d !! new); [reflexivity|].
  rewrite lookup_delete_ne, lookup_insert_ne by congruence. reflexivity.
Qed.

Lemma lookup_rename_old (old new : string) (d : record) :
  old <> new ->
  rename_key old new d !! old
  = match d !! new with Some _ => d !! old | None => None end.
Proof.
  intros Hne. unfold rename_key.
  destruct (d !! old) as [v|] eqn:Ho.
  - destruct (d !! new) eqn:Hn; [exact Ho|]. apply lookup_delete_eq.
  - rewrite Ho. destruct (d !! new); reflexivity.
Qed.

Lemma lookup_rename_new (old new : string) (d : record) :
  old <> new ->
  rename_key old new d !! new
  = match d !! new with Some v => Some v | None => d !! old end.
Proof.
  intros Hne. unfold rename_key.
  destruct (d !! old) as [v|] eqn:Ho.
  - destruct (d !! new) eqn:Hn; [exact Hn|].
    rewrite lookup_delete_ne, lookup_insert_eq by congruence. reflexivity.
  - destruct (d !! new) eqn:Hn; rewrite ?Hn, ?Ho; reflexivity.
Qed.

Lemma lookup_set_default (k0 k : string) (v : value) (d : record) :
  set_default k0 v d !! k
  = if String.eqb k k0
    then match d !! k0 with Some w => Some w | None => Some v end
    else d !! k.
Proof.
  unfold set_default. destruct (String.eqb_spec k k0) as [->|Hne].
  - destruct (d !! k0) eqn:E; [exact E|apply lookup_insert_eq].
  - destruct (d !! k0); [reflexivity|].
    apply lookup_insert_ne. congruence.
Qed.

Lemma lookup_notes_to_list (field k : string) (d : record) :
  notes_to_list field d !! k
  = if String.eqb k field
    then match d !! field with
         | Some (VStr s) => Some (VList (notes_of_string s))
         | other => other
         end
    else d !! k.
Proof.
  unfold notes_to_list. destruct (String.eqb_spec k field) as [->|Hne].
  - destruct (d !! field) as [[| |s|]|] eqn:E; try exact E.
    apply lookup_insert_eq.
  - destruct (d !! field) as [[| |s|]|]; try reflexivity.
    apply lookup_insert_ne. congruence.
Qed.

Lemma lookup_perfumers_to_list (k : string) (d : record) :
  perfumers_to_list d !! k
  = if String.eqb k "perfumers"
    then match d !! "perfumers" with
         | Some (VStr s) => Some (VList [s])
         | other => other
         end
    else d !! k.
Proof.
  unfold perfumers_to_list. destruct (String.eqb_spec k "perfumers") as [->|Hne].
  - destruct (d !! "perfumers") as [[| |s|]|] eqn:E; try exact E.
    apply lookup_insert_eq.
  - destruct (d !! "perfumers") as [[| |s|]|]; try reflexivity.
    apply lookup_insert_ne. congruence.
Qed.

Lemma lookup_keep_fold (f : record) (fields : list string) :
  forall (db : record) (k : string),
    fold_left
      (fun db field =>
         match f !! field, db !! field with
         | Some v, None => <[field := v]> db
         | _, _ => db
         end)
      fields db !! k
    = match db !! k with
      | Some v => Some v
      | None => if existsb (String.eqb k) fields then f !! k else None
      end.
Proof.
  induction fields as [|a fields IH]; intros db k; simpl.
  - destruct (db !! k); reflexivity.
  - rewrite IH. destruct (String.eqb_spec k a) as [->|Hne]; simpl.
    + destruct (f !! a) as [v|] eqn:Hf.
      * destruct (db !! a) as [w|] eqn:Hd; [rewrite Hd; reflexivity|].
        rewrite lookup_insert_eq. reflexivity.
      * destruct (db !! a); [reflexivity|].
        destruct (existsb (String.eqb a) fields); reflexivity.
    + assert (forall v : value, <[a := v]> db !! k = db !! k) as Hins
        by (intros v; apply lookup_insert_ne; congruence).
      destruct (f !! a); [|reflexivity].
      destruct (db !! a); [reflexivity|]. rewrite Hins. reflexivity.
Qed.

Lemma lookup_keep_perfected (f db : record) (k : string) :
  keep_perfected f db !! k
  = match db !! k with
    | Some v => Some v
    | None => if existsb (String.eqb k) perfected_fields then f !! k else None
    end.
Proof. apply lookup_keep_fold. Qed.

Lemma transform_unfold (f : record) :
  transform_fragrance_for_db f
  = perfumers_to_list
      (notes_to_list "base_notes"
         (notes_to_list "middle_notes"
            (notes_to_list "top_notes"
               (keep_perfected f (before_perfected f))))).
Proof. reflexivity. Qed.

Lemma eqb_false (k k0 : string) : k <> k0 -> String.eqb k k0 = false.
Proof. apply String.eqb_neq. Qed.

Lemma lookup_before_perfected_frame (f : record) (k : string) :
  ~ In k transform_keys -> before_perfected f !! k = f !! k.
Proof.
  intros Hk. unfold before_perfected.
  assert (forall k0, In k0 transform_keys -> k <> k0) as Hne
    by (intros k0 Hin ->; contradiction).
  rewrite !lookup_set_default.
  rewrite !eqb_false by (apply Hne; simpl; tauto).
  rewrite lookup_delete_ne by (apply not_eq_sym, Hne; simpl; tauto).
  rewrite !lookup_rename_ne by (apply Hne; simpl; tauto).
  reflexivity.
Qed.

(** The loop over the perfected fields changes nothing: the working copy
    already has every field of the input that the loop looks for. *)
Lemma keep_perfected_noop (f : record) :
  keep_perfected f (before_perfected f) = before_perfected f.
Proof.
  apply map_eq. intros k. rewrite lookup_keep_perfected.
  destruct (before_perfected f !! k) eqn:E; [reflexivity|].
  destruct (existsb (String.eqb k) perfected_fields) eqn:Hp; [|reflexivity].
  rewrite <- E. symmetry. apply lookup_before_perfected_frame.
  apply existsb_exists in Hp as (x & Hx & Hk). apply String.eqb_eq in Hk.
  subst x. intros Hin. simpl in Hx, Hin.
  repeat (destruct Hx as [<-|Hx];
          [repeat (destruct Hin as [Hin|Hin]; [discriminate Hin|]); exact Hin|]).
  exact Hx.
Qed.

Lemma lookup_transform_frame (f : record) (k : string) :
  ~ In k transform_keys -> transform_fragrance_for_db f !! k = f !! k.
Proof.
  intros Hk. rewrite transform_unfold, keep_perfected_noop.
  assert (forall k0, In k0 transform_keys -> k <> k0) as Hne
    by (intros k0 Hin ->; contradiction).
  rewrite lookup_perfumers_to_list, !lookup_notes_to_list.
  rewrite !eqb_false by (apply Hne; simpl; tauto).
  apply lookup_before_perfected_frame, Hk.
Qed.

Ltac lookup_step :=
  match goal with
  | |- context [String.eqb ?a ?b] =>
      let r := eval vm_compute in (String.eqb a b) in
      change (String.eqb a b) with r; cbv iota
  | |- context [perfumers_to_list ?d !! ?k] =>
      rewrite (lookup_perfumers_to_list k d)
  | |- context [notes_to_list ?field ?d !! ?k] =>
      rewrite (lookup_notes_to_list field k d)
  | |- context [set_default ?k0 ?v ?d !! ?k] =>
      rewrite (lookup_set_default k0 k v d)
  | |- context [delete ?k ?d !! ?k] =>
      rewrite (lookup_delete_eq d k)
  | |- context [delete ?k0 ?d !! ?k] =>
      rewrite (lookup_delete_ne d k0 k) by discriminate
  | |- context [rename_key ?old ?new ?d !! ?old] =>
      rewrite (lookup_rename_old old new d) by discriminate
  | |- context [rename_key ?old ?new ?d !! ?new] =>
      rewrite (lookup_rename_new old new d) by discriminate
  | |- context [rename_key ?old ?new ?d !! ?k] =>
      rewrite (lookup_rename_ne old new k d) by discriminate
  end.

Ltac lookup_transform :=
  repeat first
    [ lookup_step
    | rewrite transform_unfold, keep_perfected_noop; unfold before_perfected ].

(** X3.  [transform_fragrance_for_db] leaves every key outside its own
    fourteen as it was.  It removes [brand_name]; it moves [accords] to
    [main_accords], [year] to [launch_year] and [priority_score] to
    [popularity_score] unless the target key is already there, in which case
    both keys stay; and the loop over the perfected fields never changes the
    record. *)
Theorem transform_fragrance_keys (f : record) :
  (forall k, ~ In k transform_keys -> transform_fragrance_for_db f !! k = f !! k)
  /\ transform_fragrance_for_db f !! "brand_name" = None
  /\ (forall old new,
        In (old, new) [("accords", "main_accords"); ("year", "launch_year");
                       ("priority_score", "popularity_score")] ->
        transform_fragrance_for_db f !! new
        = match f !! new with Some v => Some v | None => f !! old end
        /\ transform_fragrance_for_db f !! old
           = match f !! new with Some _ => f !! old | None => None end)
  /\ keep_perfected f (before_perfected f) = before_perfected f.
Proof.
  split; [apply lookup_transform_frame|].
  split; [lookup_transform; reflexivity|].
  split; [|apply keep_perfected_noop].
  intros old new [[= <- <-]|[[= <- <-]|[[= <- <-]|[]]]];
    split; lookup_transform; reflexivity.
Qed.

Lemma transform_accepted (f : record) :
  validate_fragrance_data f = Ok (true, []) ->
  validate_fragrance_data (transform_fragrance_for_db f) = Ok (true, []).
Proof.
  rewrite !accepted_conditions.
  intros (Hreq & Hacc & Hgen & Hr & Hp & Hid).
  assert (forall k, In k ["id"; "brand_id"; "name"; "slug"; "gender";
                          "rating_value"; "sample_price_usd"] ->
            transform_fragrance_for_db f !! k = f !! k) as Hsame.
  { intros k Hk. apply lookup_transform_frame. intros Hin.
    simpl in Hk, Hin.
    repeat (destruct Hk as [<-|Hk];
            [repeat (destruct Hin as [Hin|Hin]; [discriminate Hin|]); exact Hin|]).
    exact Hk. }
  split.
  { intros field Hin. rewrite Hsame; [apply Hreq, Hin|].
    simpl in Hin |- *. tauto. }
  split.
  { right. lookup_transform.
    destruct (f !! "main_accords"); [discriminate|].
    destruct Hacc as [H|H]; [exact H|congruence]. }
  rewrite !Hsame by (simpl; tauto). auto.
Qed.

(** X4.  A record the validator accepts is still accepted after
    [transform_fragrance_for_db]: the transformation never invalidates what
    was validated before it. *)
Theorem transform_preserves_validity (f : record) :
  validate_fragrance_data f = Ok (true, []) ->
  validate_fragrance_data (transform_fragrance_for_db f) = Ok (true, []).
Proof. apply transform_accepted. Qed.

Lemma transform_valid_witness :
  validate_fragrance_data (transform_fragrance_for_db test_valid_fragrance)
  = Ok (true, []).
Proof.
  apply transform_preserves_validity. vm_compute. reflexivity.
Defined.

(** X5.  [transform_fragrance_for_db] is idempotent: transforming a record
    that has already been transformed changes nothing. *)
Theorem transform_idempotent (f : record) :
  transform_fragrance_for_db (transform_fragrance_for_db f)
  = transform_fragrance_for_db f.
Proof.
  apply map_eq. intros k.
  destruct (in_dec string_dec k transform_keys) as [Hin|Hout];
    [|apply lookup_transform_frame, Hout].
  simpl in Hin.
  repeat (destruct Hin as [<-|Hin];
          [lookup_transform;
           repeat match goal with
                  | |- context [f !! ?key] => destruct (f !! key) as [[]|]
                  end; reflexivity|]).
  destruct Hin.
Qed.

End TransformFacts.
(** ** Stripping and splitting *)

Module NotesFacts.
Import ImportRun PyStrFacts PyFacts.

Lemma rstrip_by_idempotent (p : ascii -> bool) (s : string) :
  rstrip_by p (rstrip_by p s) = rstrip_by p s.
Proof.
  induction s as [|c s IH]; [reflexivity|].
  change (rstrip_by p (String c s))
    with (match rstrip_by p s with
          | "" => if p c then "" else String c ""
          | String d r => String c (String d r)
          end).
  destruct (rstrip_by p s) as [|d r] eqn:E.
  - destruct (p c) eqn:Hp; [reflexivity|]. simpl. rewrite Hp. reflexivity.
  - change (rstrip_by p (String c (String d r)))
      with (match rstrip_by p (String d r) with
            | "" => if p c then "" else String c ""
            | String d' r' => String c (String d' r')
            end).
    rewrite IH. reflexivity.
Qed.

Lemma lstrip_by_head (p : ascii -> bool) (s : string) :
  match lstrip_by p s with
  | "" => True
  | String c _ => p c = false
  end.
Proof.
  induction s as [|c s IH]; simpl; [exact I|].
  destruct (p c) eqn:Hp; [exact IH|exact Hp].
Qed.

(** Stripping twice is stripping once. *)
Lemma strip_by_idempotent (p : ascii -> bool) (s : string) :
  strip_by p (strip_by p s) = strip_by p s.
Proof.
  unfold strip_by. pose proof (lstrip_by_head p s) as Hh.
  destruct (lstrip_by p s) as [|c u]; [reflexivity|].
  destruct (rstrip_head p c u Hh) as (r & Hr & _). rewrite Hr.
  change (lstrip_by p (String c r)) with (if p c then lstrip_by p r else String c r).
  rewrite Hh, <- Hr. apply rstrip_by_idempotent.
Qed.

Lemma all_chars_lstrip (q p : ascii -> bool) (s : string) :
  all_chars q s = true -> all_chars q (lstrip_by p s) = true.
Proof.
  induction s as [|c s IH]; simpl; [auto|]. intros H.
  apply andb_true_iff in H as [Hc Hs].
  destruct (p c); [apply IH, Hs|]. simpl. rewrite Hc, Hs. reflexivity.
Qed.

Lemma all_chars_rstrip (q p : ascii -> bool) (s : string) :
  all_chars q s = true -> all_chars q (rstrip_by p s) = true.
Proof.
  induction s as [|c s IH]; simpl; [auto|]. intros H.
  apply andb_true_iff in H as [Hc Hs]. specialize (IH Hs).
  destruct (rstrip_by p s) as [|d r].
  - destruct (p c); [reflexivity|]. simpl. rewrite Hc. reflexivity.
  - simpl in IH |- *. rewrite Hc, IH. reflexivity.
Qed.

Lemma all_chars_rev_str (q : ascii -> bool) (s acc : string) :
  all_chars q (rev_str acc s) = all_chars q acc && all_chars q s.
Proof.
  revert acc. induction s as [|c s IH]; intros acc; simpl.
  - rewrite andb_true_r. reflexivity.
  - rewrite IH. simpl. destruct (q c), (all_chars q acc); reflexivity.
Qed.

Lemma split_comma_aux_pieces (s cur : string) :
  all_chars not_comma cur = true ->
  Forall (fun piece => all_chars not_comma piece = true) (split_comma_aux cur s).
Proof.
  revert cur. induction s as [|c s IH]; intros cur Hcur; simpl.
  - constructor; [|constructor]. rewrite all_chars_rev_str, Hcur. reflexivity.
  - destruct (Ascii.eqb c ",") eqn:E.
    + constructor; [rewrite all_chars_rev_str, Hcur; reflexivity|].
      apply IH. reflexivity.
    + apply IH. simpl. unfold not_comma at 1. rewrite E, Hcur. reflexivity.
Qed.

(** X6.  The list a comma-separated notes string becomes has only
    non-empty entries, without commas and without leading or trailing white
    space; a string with no note in it becomes the empty list. *)
Theorem notes_of_string_entries (s : string) :
  Forall (fun note =>
            note <> "" /\ all_chars not_comma note = true /\ strip note = note)
         (notes_of_string s)
  /\ (all_chars (fun c => is_space c || Ascii.eqb c ",") s = true ->
      notes_of_string s = []).
Proof.
  split.
  - unfold notes_of_string. apply List.Forall_forall. intros note Hin.
    apply filter_In in Hin as [Hin Hne].
    apply in_map_iff in Hin as (piece & <- & Hpiece).
    split; [|split].
    + intros E. rewrite E in Hne. discriminate.
    + pose proof (split_comma_aux_pieces s "" eq_refl) as Hall.
      apply (proj1 (List.Forall_forall _ _) Hall) in Hpiece.
      unfold strip, strip_by. apply all_chars_rstrip, all_chars_lstrip, Hpiece.
    + apply strip_by_idempotent.
  - intros Hs. unfold notes_of_string. apply filter_none.
    intros note Hin. apply in_map_iff in Hin as (piece & <- & Hpiece).
    apply negb_false_iff, String.eqb_eq, PyStrFacts.strip_by_empty.
    enough (forall cur, all_chars is_space cur = true ->
              Forall (fun x => all_chars is_space x = true) (split_comma_aux cur s))
      as H.
    { apply (proj1 (List.Forall_forall _ _) (H "" eq_refl)), Hpiece. }
    clear Hpiece piece. induction s as [|c s IH]; intros cur Hcur; simpl.
    + constructor; [|constructor]. rewrite all_chars_rev_str, Hcur. reflexivity.
    + simpl in Hs. apply andb_true_iff in Hs as [Hc Hs].
      destruct (Ascii.eqb c ",") eqn:E.
      * constructor; [rewrite all_chars_rev_str, Hcur; reflexivity|].
        apply IH; [exact Hs|reflexivity].
      * apply IH; [exact Hs|]. simpl. rewrite orb_false_r in Hc.
        rewrite Hc, Hcur. reflexivity.
Qed.

End NotesFacts.
(** ** [04_database_importer.py]: the import run *)

Module ImportRunFacts.
Import DatabaseImporter DatabaseImporterFacts ImportRun ValidatorAcceptance
       TransformFacts BatchUpsertFacts PyFacts.

Lemma validate_and_transform_spec (data : list record) :
  forall st valid st' valid',
    validate_and_transform data st valid = Ok (st', valid') ->
    valid' = (valid ++ (transform_fragrance_for_db
                          <$> List.filter is_accepted data))%list
    /\ fragrances_processed st' = fragrances_processed st + length data
    /\ validation_errors st' + length (List.filter is_accepted data)
       = validation_errors st + length data
    /\ fragrances_skipped st' = fragrances_skipped st
    /\ duplicates_detected st' = duplicates_detected st
    /\ fragrances_imported st' = fragrances_imported st
    /\ brands_processed st' = brands_processed st
    /\ brands_imported st' = brands_imported st
    /\ brands_skipped st' = brands_skipped st.
Proof.
  induction data as [|f data IH]; intros st valid st' valid' H; simpl in H.
  - injection H as <- <-. simpl. rewrite app_nil_r. repeat split; lia.
  - destruct (validate_fragrance_data f) as [[ok errs]|] eqn:Hv; [|discriminate].
    assert (is_accepted f = ok) as Hacc
      by (unfold is_accepted; rewrite Hv; reflexivity).
    cbn [List.filter]. rewrite Hacc.
    simpl in H. destruct ok.
    + apply IH in H as (-> & H1 & H2 & H3 & H4 & H5 & H6 & H7 & H8).
      simpl in *. rewrite <- app_assoc. simpl.
      repeat split; try assumption; lia.
    + apply IH in H as (-> & H1 & H2 & H3 & H4 & H5 & H6 & H7 & H8).
      simpl in *. repeat split; try assumption; lia.
Qed.

Lemma filter_existing_spec (existing : list value) (valid : list record) :
  forall st new st' new',
    filter_existing existing valid st new = Ok (st', new') ->
    new' = (new ++ List.filter (fun r => negb (known existing r)) valid)%list
    /\ fragrances_skipped st'
       + length (List.filter (fun r => negb (known existing r)) valid)
       = fragrances_skipped st + length valid
    /\ duplicates_detected st' + fragrances_skipped st
       = duplicates_detected st + fragrances_skipped st'
    /\ fragrances_processed st' = fragrances_processed st
    /\ validation_errors st' = validation_errors st
    /\ fragrances_imported st' = fragrances_imported st
    /\ brands_processed st' = brands_processed st
    /\ brands_imported st' = brands_imported st
    /\ brands_skipped st' = brands_skipped st.
Proof.
  induction valid as [|f valid IH]; intros st new st' new' H; simpl in H.
  - injection H as <- <-. simpl. rewrite app_nil_r. repeat split; lia.
  - unfold getitem in H.
    destruct (f !! "id") as [i|] eqn:Hi; [|discriminate]. simpl in H.
    destruct (hashable i) as [k|] eqn:Hk; [|discriminate]. simpl in H.
    assert (k = i) as -> by (destruct i; simpl in Hk; congruence).
    assert (known existing f = existsb (py_eqb i) existing) as Hkn
      by (unfold known; rewrite Hi; reflexivity).
    cbn [List.filter]. rewrite Hkn.
    destruct (existsb (py_eqb i) existing).
    + apply IH in H as (-> & H1 & H2 & H3 & H4 & H5 & H6 & H7 & H8).
      simpl in *. repeat split; try assumption; lia.
    + apply IH in H as (-> & H1 & H2 & H3 & H4 & H5 & H6 & H7 & H8).
      simpl in *. rewrite <- app_assoc. simpl.
      repeat split; try assumption; lia.
Qed.

Lemma accepted_count_le (log : list (list record * response)) :
  accepted_count log <= length (concat (fst <$> log))
  /\ (Forall (fun e => accepted (snd e) = true) log ->
      accepted_count log = length (concat (fst <$> log)))
  /\ (Forall (fun e => accepted (snd e) = false) log -> accepted_count log = 0).
Proof.
  unfold accepted_count. induction log as [|[b r] log (IH1 & IH2 & IH3)].
  - simpl. repeat split; auto.
  - cbn [fmap list_fmap fst snd concat].
    change (list_sum (?x :: ?l)) with (x + list_sum l).
    rewrite length_app. split; [|split].
    + destruct (accepted r); lia.
    + intros Hall. apply Forall_cons_1 in Hall as [Hr Hall]. simpl in Hr.
      rewrite Hr, (IH2 Hall). reflexivity.
    + intros Hall. apply Forall_cons_1 in Hall as [Hr Hall]. simpl in Hr.
      rewrite Hr, (IH3 Hall). reflexivity.
Qed.

Section Store.
Context {store : Type}.
Variable post : store -> string -> list record -> store * response.
Variable query : store -> string -> list value -> store * query_response.

Lemma batch_upsert_log (s : store) (table : string) (records : list record)
    s' inserted updated log :
  batch_upsert post s table records = (s', (inserted, updated), log) ->
  concat (fst <$> log) = records
  /\ (fst <$> log) = batches records
  /\ inserted = accepted_count log /\ updated = 0.
Proof.
  intros H.
  assert (batch_upsert post s table records
          = let pe := post_each post s table (batches records) in
            (fst pe, (accepted_count (zip (batches records) (snd pe)), 0),
             zip (batches records) (snd pe))) as E.
  { unfold batch_upsert. destruct records as [|r records]; [reflexivity|].
    rewrite fold_upsert. reflexivity. }
  rewrite E in H. cbn zeta in H.
  pose proof (length_post_each post table (batches records) s) as Hlen.
  destruct (post_each post s table (batches records)) as [s2 resps].
  cbn [fst snd] in *. injection H as <- <- <- <-.
  rewrite fst_zip by lia.
  split; [apply concat_batches|]. auto.
Qed.

Lemma all_answered (log : list (list record * response)) :
  Forall (fun e => snd e = Status 200 \/ snd e = Status 201) log ->
  Forall (fun e => accepted (snd e) = true) log.
Proof.
  intros H. eapply Forall_impl; [exact H|].
  intros [b r]. simpl. intros [->| ->]; reflexivity.
Qed.

Lemma none_answered (log : list (list record * response)) :
  Forall (fun e => snd e <> Status 200 /\ snd e <> Status 201) log ->
  Forall (fun e => accepted (snd e) = false) log.
Proof.
  intros H. eapply Forall_impl; [exact H|].
  intros [b r]. simpl. intros [H200 H201].
  destruct r as [code|]; [|reflexivity]. simpl.
  destruct (Z.eqb_spec code 200) as [->|_]; [congruence|].
  destruct (Z.eqb_spec code 201) as [->|_]; [congruence|]. reflexivity.
Qed.

(** X9.  The count [batch_upsert] returns as inserted is the number of
    records in the batches whose request was answered with status 200 or
    201; so it never exceeds the number of records given, it is that
    number when every request is answered 200 or 201, and zero when none is.
    The number of requests is the number of records divided by 100, rounded
    up, so an empty list makes no request. *)
Theorem batch_upsert_inserted_bounds (s : store) (table : string)
    (records : list record) :
  let '(s', (inserted, updated), log) := batch_upsert post s table records in
  inserted = list_sum ((fun e => match snd e with
                                 | Status 200 | Status 201 => length (fst e)
                                 | _ => 0
                                 end) <$> log)
  /\ inserted <= length records
  /\ (Forall (fun e => snd e = Status 200 \/ snd e = Status 201) log ->
      inserted = length records)
  /\ (Forall (fun e => snd e <> Status 200 /\ snd e <> Status 201) log ->
      inserted = 0)
  /\ length log = (length records + 99) / 100
  /\ (records = [] -> log = [] /\ s' = s).
Proof.
  destruct (batch_upsert post s table records) as [[s' [inserted updated]] log] eqn:H.
  destruct (batch_upsert_log _ _ _ _ _ _ _ H) as (Hc & Hb & -> & _).
  destruct (accepted_count_le log) as (H1 & H2 & H3).
  rewrite Hc in H1, H2.
  split; [apply accepted_count_statuses|].
  split; [exact H1|].
  split; [intros Hall; apply H2, all_answered, Hall|].
  split; [intros Hall; apply H3, none_answered, Hall|].
  split.
  - rewrite <- (length_fmap fst), Hb, length_batches. unfold batch_size.
    f_equal. lia.
  - intros ->. simpl in H. injection H as <- _ _ <-. auto.
Qed.

(** X7.  Whenever [import_fragrances] returns, its counters balance: every
    input record is counted as processed, and is either a validation error,
    or skipped as already in the Store (and counted once more as a detected
    duplicate), or one of the new records whose number is returned; the
    brand counters are untouched. *)
Theorem import_fragrances_accounting (s : store) (st : import_stats)
    (data : list record) s' st' n log
    (H : import_fragrances post query s st data = Ok (s', st', n, log)) :
  fragrances_processed st' = fragrances_processed st + length data
  /\ validation_errors st' + fragrances_skipped st' + n
     = validation_errors st + fragrances_skipped st + length data
  /\ duplicates_detected st' + fragrances_skipped st
     = duplicates_detected st + fragrances_skipped st'
  /\ brands_processed st' = brands_processed st
  /\ brands_imported st' = brands_imported st
  /\ brands_skipped st' = brands_skipped st.
Proof.
  unfold import_fragrances in H.
  destruct (validate_and_transform data st []) as [[st1 valid]|] eqn:Hv;
    [|discriminate].
  simpl in H.
  destruct (mapM _ valid) as [ids|]; [|discriminate]. simpl in H.
  destruct (check_existing_records query s "fragrances" ids) as [s1 existing].
  destruct (filter_existing existing valid st1 []) as [[st2 new]|] eqn:Hf;
    [|discriminate].
  simpl in H.
  apply validate_and_transform_spec in Hv
    as (-> & V1 & V2 & V3 & V4 & V5 & V6 & V7 & V8).
  apply filter_existing_spec in Hf
    as (-> & F1 & F2 & F3 & F4 & F5 & F6 & F7 & F8).
  rewrite !app_nil_l in *. rewrite length_map in F1.
  set (new := List.filter (fun r => negb (known existing r))
                (transform_fragrance_for_db <$> List.filter is_accepted data)) in *.
  destruct new as [|r new].
  - injection H as <- <- <- <-. simpl in *. repeat split; lia.
  - destruct (batch_upsert post s1 "fragrances" (r :: new)) as [[s2 [ins upd]] lg].
    injection H as <- <- <- <-. simpl in *. repeat split; lia.
Qed.

Lemma mapM_getitem_id (valid : list record) (ids : list value) :
  mapM (fun frag => getitem frag "id") valid = Ok ids ->
  ids = (fun r => get r "id") <$> valid.
Proof.
  intros H. apply mapM_Ok in H.
  induction H as [|r v valid ids Hr _ IH]; [reflexivity|].
  rewrite fmap_cons. f_equal; [|exact IH].
  unfold getitem in Hr. unfold get, get_default.
  destruct (r !! "id"); congruence.
Qed.

Lemma is_accepted_true (f : record) :
  is_accepted f = true <-> validate_fragrance_data f = Ok (true, []).
Proof.
  unfold is_accepted. split.
  - destruct (validate_fragrance_data f) as [[ok errs]|] eqn:Hv; [|discriminate].
    intros ->. apply validate_inv in Hv as (_ & _ & _ & _ & _ & _ & _ & Hok).
    symmetry in Hok. apply Nat.eqb_eq, length_zero_iff_nil in Hok. congruence.
  - intros ->. reflexivity.
Qed.

(** X8.  Whenever [import_fragrances] returns, the records it has posted
    are, in input order, the transformed records of the input that the
    validator accepted and whose id the Store did not report as existing;
    each of them is still valid; the number returned is their number; and
    the imported counter is set to the number accepted by the Store, or left
    alone when nothing was new, in which case no request is posted. *)
Theorem import_fragrances_posts_valid_new (s : store) (st : import_stats)
    (data : list record) s' st' n log
    (H : import_fragrances post query s st data = Ok (s', st', n, log)) :
  let valid := transform_fragrance_for_db <$> List.filter is_accepted data in
  let existing :=
    snd (check_existing_records query s "fragrances"
           ((fun r => get r "id") <$> valid)) in
  let posted := concat (fst <$> log) in
  posted = List.filter (fun r => negb (known existing r)) valid
  /\ n = length posted
  /\ Forall (fun r =>
               validate_fragrance_data r = Ok (true, [])
               /\ exists f, In f data
                            /\ validate_fragrance_data f = Ok (true, [])
                            /\ r = transform_fragrance_for_db f)
            posted
  /\ fragrances_imported st'
     = (if Nat.eqb n 0 then fragrances_imported st else accepted_count log)
  /\ (n = 0 -> log = []).
Proof.
  intros valid existing posted.
  unfold import_fragrances in H.
  destruct (validate_and_transform data st []) as [[st1 valid1]|] eqn:Hv;
    [|discriminate].
  simpl in H.
  destruct (mapM _ valid1) as [ids|] eqn:Hids; [|discriminate]. simpl in H.
  apply validate_and_transform_spec in Hv
    as (Hvalid & V1 & V2 & V3 & V4 & V5 & V6 & V7 & V8).
  rewrite app_nil_l in Hvalid. fold valid in Hvalid. subst valid1.
  apply mapM_getitem_id in Hids. subst ids.
  subst existing.
  destruct (check_existing_records query s "fragrances" _)
    as [s1 existing] eqn:Hex.
  cbn [snd].
  destruct (filter_existing existing valid st1 []) as [[st2 new]|] eqn:Hf;
    [|discriminate].
  simpl in H.
  apply filter_existing_spec in Hf
    as (Hnew & F1 & F2 & F3 & F4 & F5 & F6 & F7 & F8).
  rewrite app_nil_l in Hnew.
  assert (posted = new /\ n = length new
          /\ fragrances_imported st'
             = (if Nat.eqb n 0 then fragrances_imported st else accepted_count log)
          /\ (n = 0 -> log = [])) as (Hposted & Hn & Himp & Hlog).
  { destruct new as [|r new'] eqn:En.
    - injection H as <- <- <- <-. unfold posted. simpl.
      repeat split; congruence.
    - destruct (batch_upsert post s1 "fragrances" (r :: new'))
        as [[s2 [ins upd]] lg] eqn:Hb.
      injection H as <- <- <- <-.
      destruct (batch_upsert_log _ _ _ _ _ _ _ Hb) as (Hc & _ & -> & _).
      unfold posted. simpl. repeat split; [exact Hc|discriminate]. }
  rewrite Hposted, Hn. split; [exact Hnew|]. split; [reflexivity|].
  split; [|split; [rewrite <- Hn; exact Himp|rewrite <- Hn; exact Hlog]].
  rewrite Hnew. apply List.Forall_forall. intros r Hr.
  apply filter_In in Hr as [Hr _]. unfold valid in Hr.
  apply in_map_iff in Hr as (f & <- & Hf).
  apply filter_In in Hf as [Hin Hacc]. apply is_accepted_true in Hacc.
  split; [apply transform_accepted, Hacc|]. eauto.
Qed.

End Store.

Lemma import_sample_returns :
  exists r,
    import_fragrances holding_post holding_query import_sample_store
      zero_stats import_sample = Ok r.
Proof.
  assert (match import_fragrances holding_post holding_query
                 import_sample_store zero_stats import_sample with
          | Ok _ => true
          | Raise _ => false
          end = true) as E by (vm_compute; reflexivity).
  destruct (import_fragrances holding_post holding_query import_sample_store
              zero_stats import_sample) as [r|e].
  - exists r. reflexivity.
  - discriminate E.
Qed.

Lemma import_fragrances_accounting_witness :
  exists s' st' n log,
    import_fragrances holding_post holding_query import_sample_store
      zero_stats import_sample = Ok (s', st', n, log)
    /\ fragrances_processed st' = 0 + length import_sample
    /\ validation_errors st' + fragrances_skipped st' + n
       = 0 + 0 + length import_sample.
Proof.
  destruct import_sample_returns as ([[[s' st'] n] log] & H).
  exists s', st', n, log. split; [exact H|].
  pose proof (import_fragrances_accounting _ _ _ _ _ _ _ _ _ H) as (H1 & H2 & _).
  exact (conj H1 H2).
Defined.

Lemma import_fragrances_posts_witness :
  exists s' st' n log,
    import_fragrances holding_post holding_query import_sample_store
      zero_stats import_sample = Ok (s', st', n, log)
    /\ n = length (concat (fst <$> log)).
Proof.
  destruct import_sample_returns as ([[[s' st'] n] log] & H).
  exists s', st', n, log. split; [exact H|].
  exact (proj1 (proj2 (import_fragrances_posts_valid_new _ _ _ _ _ _ _ _ _ H))).
Defined.

End ImportRunFacts.
(** ** [remove_duplicates]: order, fixed points, exceptions *)

Module RemoveDuplicatesFacts.
Import FixDataForImport FixDataForImportFacts FixDataSteps PyFacts.

Lemma id_key_get (r : record) (k : value) : id_key r = Ok k -> get r "id" = k.
Proof.
  intros H. apply id_key_Ok in H as [H _]. unfold get, get_default.
  rewrite H. reflexivity.
Qed.

Lemma keys_of_records (l : list record) :
  Forall (fun r => exists k, id_key r = Ok k) l ->
  Forall2 (fun r k => id_key r = Ok k) l ((fun r => get r "id") <$> l).
Proof.
  induction 1 as [|r l [k Hk] _ IH]; [constructor|].
  rewrite fmap_cons. constructor; [|exact IH].
  rewrite (id_key_get _ _ Hk). exact Hk.
Qed.

Section Singletons.
Context {K A : Type} (eqb : K -> K -> bool) (key : A -> result K).
Hypothesis eqb_eq : forall x y, eqb x y = true <-> x = y.

Lemma group_insert_fresh (k : K) (a : A) (groups : list (K * list A)) :
  ~ In k (map fst groups) ->
  group_insert eqb k a groups = (groups ++ [(k, [a])])%list.
Proof.
  induction groups as [|[k' g] groups IH]; simpl; intros H; [reflexivity|].
  destruct (eqb k k') eqn:E.
  - apply eqb_eq in E. subst. tauto.
  - rewrite IH by tauto. reflexivity.
Qed.

(** Items with pairwise distinct keys are grouped one by one. *)
Lemma group_by_singletons (l : list A) (ks : list K) :
  Forall2 (fun a k => key a = Ok k) l ks ->
  forall groups0,
    List.NoDup (map fst groups0 ++ ks)%list ->
    group_by eqb key l groups0
    = Ok (groups0 ++ zip ks ((fun a => [a]) <$> l))%list.
Proof.
  induction 1 as [|r k l ks Hk _ IH]; intros groups0 Hnd; simpl.
  - rewrite app_nil_r. reflexivity.
  - rewrite Hk. simpl.
    rewrite group_insert_fresh.
    + rewrite IH.
      * rewrite <- app_assoc. reflexivity.
      * rewrite map_app. simpl. rewrite <- app_assoc. exact Hnd.
    + apply NoDup_remove_2 in Hnd. intros Hin. apply Hnd.
      apply in_or_app. left. exact Hin.
Qed.

End Singletons.

Lemma best_of_singletons (ks : list value) (l : list record) :
  length ks = length l ->
  mapM (fun kg : value * list record => best_of_group (snd kg))
       (zip ks ((fun r => [r]) <$> l))
  = Ok l.
Proof.
  revert ks. induction l as [|r l IH]; intros [|k ks] Hlen;
    try discriminate; [reflexivity|].
  rewrite fmap_cons. cbn [zip zip_with mapM snd best_of_group].
  simpl. rewrite IH by (simpl in Hlen; lia). reflexivity.
Qed.

Lemma distinct_is_fixed (l : list record) :
  Forall (fun r => exists k, id_key r = Ok k) l ->
  List.NoDup ((fun r => get r "id") <$> l) ->
  remove_duplicates l = Ok l.
Proof.
  intros Hk Hnd. unfold remove_duplicates.
  rewrite (group_by_singletons py_eqb id_key py_eqb_eq l _
             (keys_of_records l Hk) []) by exact Hnd.
  simpl. apply best_of_singletons. rewrite length_fmap. reflexivity.
Qed.

Lemma Forall2_impl_in {A B : Type} (R R' : A -> B -> Prop) l1 l2 :
  Forall2 R l1 l2 ->
  (forall x y, In x l1 -> R x y -> R' x y) ->
  Forall2 R' l1 l2.
Proof.
  induction 1 as [|x y l1 l2 HR _ IH]; intros H; [constructor|].
  constructor; [apply H; [left; reflexivity|exact HR]|].
  apply IH. intros x' y' Hin. apply H. right. exact Hin.
Qed.

(** The groups behind a result, and the key of each winner. *)
Lemma remove_duplicates_ids (fragrances out : list record) :
  remove_duplicates fragrances = Ok out ->
  exists groups,
    group_by py_eqb id_key fragrances [] = Ok groups
    /\ grouped py_eqb id_key fragrances groups
    /\ Forall2 (fun kg r => In r fragrances /\ id_key r = Ok (fst kg))
               groups out.
Proof.
  unfold remove_duplicates. intros H.
  destruct (group_by py_eqb id_key fragrances []) as [groups|] eqn:Hg;
    [|discriminate].
  simpl in H. exists groups. split; [reflexivity|].
  destruct (group_by_grouped py_eqb id_key py_eqb_eq _ [] _ _ Hg (grouped_nil _ _))
    as [Hgr _].
  simpl in Hgr. split; [exact Hgr|].
  apply mapM_Ok in H. apply (Forall2_impl_in _ _ _ _ H).
  intros [k g] r Hin Hb. simpl in Hb |- *.
  pose proof Hgr as (_ & Hgr' & _). destruct (Hgr' k g Hin) as [Hne Hg'].
  destruct (best_of_group_Ok g Hne) as (first & rest & E & Hbest).
  assert (r = max_by record_quality_score first rest) as -> by congruence.
  destruct (winner_in_group fragrances groups k g first rest Hgr Hin E)
    as [Hr _].
  split; [exact Hr|].
  pose proof (max_by_in record_quality_score first rest) as Hm.
  rewrite <- E, Hg' in Hm. apply filter_In in Hm as [_ Hm].
  apply has_key_id in Hm. exact Hm.
Qed.

Lemma Forall2_fmap_eq {A B C : Type} (R : A -> B -> Prop)
    (f : A -> C) (g : B -> C) l1 l2 :
  Forall2 R l1 l2 -> (forall x y, R x y -> g y = f x) ->
  g <$> l2 = f <$> l1.
Proof.
  induction 1 as [|x y l1 l2 HR _ IH]; intros H; [reflexivity|].
  rewrite !fmap_cons. f_equal; [apply H, HR|apply IH, H].
Qed.

Lemma out_ids (fragrances out : list record)
    (groups : list (value * list record)) :
  Forall2 (fun kg r => In r fragrances /\ id_key r = Ok (fst kg)) groups out ->
  (fun r => get r "id") <$> out = map fst groups.
Proof.
  intros H. change (map fst groups) with (fst <$> groups).
  apply (Forall2_fmap_eq _ _ _ _ _ H).
  intros kg r [_ Hk]. apply id_key_get, Hk.
Qed.

Lemma filter_filter_and {A : Type} (p q : A -> bool) (l : list A) :
  List.filter p (List.filter q l) = List.filter (fun x => q x && p x) l.
Proof.
  induction l as [|x l IH]; simpl; [reflexivity|].
  destruct (q x); simpl; [destruct (p x)|]; rewrite IH; reflexivity.
Qed.

(** The keys of the groups, in the order of their insertion. *)
Lemma group_by_keys (l : list record) (ks : list value) :
  Forall2 (fun r k => id_key r = Ok k) l ks ->
  forall groups0 groups,
    group_by py_eqb id_key l groups0 = Ok groups ->
    map fst groups
    = (map fst groups0
       ++ List.filter (fun k => negb (existsb (py_eqb k) (map fst groups0)))
            (first_ids ks))%list.
Proof.
  induction 1 as [|r k l ks Hk _ IH]; intros groups0 groups Hg; simpl in Hg.
  - injection Hg as <-. simpl. rewrite app_nil_r. reflexivity.
  - rewrite Hk in Hg. simpl in Hg. rewrite (IH _ _ Hg).
    rewrite group_insert_keys.
    cbn [first_ids List.filter].
    destruct (existsb (py_eqb k) (map fst groups0)) eqn:E; cbn [negb].
    + rewrite app_nil_r. f_equal. rewrite filter_filter_and.
      apply List.filter_ext. intros x.
      destruct (py_eqb x k) eqn:Ex; [|reflexivity].
      apply py_eqb_eq in Ex. subst. rewrite E. reflexivity.
    + rewrite <- app_assoc. simpl. do 2 f_equal. rewrite filter_filter_and.
      apply List.filter_ext. intros x. rewrite existsb_app. simpl.
      destruct (py_eqb x k), (existsb (py_eqb x) (map fst groups0)); reflexivity.
Qed.

Lemma first_ids_subset (ks : list value) (k : value) :
  In k (first_ids ks) -> In k ks.
Proof.
  induction ks as [|v ks IH]; simpl; [tauto|].
  intros [->|H]; [left; reflexivity|].
  apply filter_In in H as [H _]. right. apply IH, H.
Qed.

Lemma first_ids_NoDup (ks : list value) : List.NoDup (first_ids ks).
Proof.
  induction ks as [|v ks IH]; simpl; constructor.
  - intros H. apply filter_In in H as [_ H].
    assert (py_eqb v v = true) as E by (apply py_eqb_eq; reflexivity).
    rewrite E in H. discriminate.
  - apply List.NoDup_filter, IH.
Qed.

Lemma first_ids_distinct (ks : list value) :
  List.NoDup ks -> first_ids ks = ks.
Proof.
  induction 1 as [|v ks Hv _ IH]; simpl; [reflexivity|].
  rewrite IH. f_equal. apply forallb_filter_id, forallb_forall.
  intros w Hw. apply negb_true_iff, not_true_iff_false.
  rewrite py_eqb_eq. intros ->. exact (Hv Hw).
Qed.

Lemma result_ids (fragrances out : list record) :
  remove_duplicates fragrances = Ok out ->
  (fun r => get r "id") <$> out
  = first_ids ((fun r => get r "id") <$> fragrances).
Proof.
  intros H.
  destruct (remove_duplicates_ids _ _ H) as (groups & Hg & Hgr & Hout).
  rewrite (out_ids _ _ _ Hout).
  destruct (group_by_grouped py_eqb id_key py_eqb_eq _ [] _ _ Hg (grouped_nil _ _))
    as [_ Hkeys].
  rewrite (group_by_keys _ _ (keys_of_records _ Hkeys) _ _ Hg). simpl.
  apply forallb_filter_id, forallb_forall. reflexivity.
Qed.

(** X10.  Whenever [remove_duplicates] returns, the ids of the result are
    the distinct ids of the input in the order of their first occurrence:
    the result has one record for each id of the input and none for any
    other, in the order in which the ids first appear. *)
Theorem remove_duplicates_first_occurrence_order
    (fragrances out : list record)
    (H : remove_duplicates fragrances = Ok out) :
  (fun r => get r "id") <$> out
  = first_ids ((fun r => get r "id") <$> fragrances).
Proof. exact (result_ids _ _ H). Qed.

Lemma remove_duplicates_order_witness :
  [VStr "dior__sauvage"; VStr "creed__aventus"]
  = first_ids [VStr "dior__sauvage"; VStr "creed__aventus";
               VStr "dior__sauvage"].
Proof.
  assert (remove_duplicates [sauvage_unrated; aventus; sauvage_rated]
          = Ok [sauvage_rated; aventus]) as H by (vm_compute; reflexivity).
  exact (remove_duplicates_first_occurrence_order _ _ H).
Defined.

Lemma result_length (fragrances out : list record) :
  remove_duplicates fragrances = Ok out -> length out <= length fragrances.
Proof.
  intros H.
  destruct (remove_duplicates_ids _ _ H) as (groups & Hg & Hgr & Hout).
  rewrite <- (Forall2_length _ _ _ Hout).
  pose proof (group_by_length _ _ _ _ _ Hg) as Hlen. simpl in Hlen.
  rewrite <- Hlen. destruct Hgr as (_ & Hgr & _).
  clear -Hgr. induction groups as [|[k g] groups IH]; simpl; [lia|].
  rewrite length_app.
  destruct (Hgr k g (or_introl eq_refl)) as [Hne _].
  destruct g; [congruence|]. simpl.
  assert (length groups <= length (concat (map snd groups))).
  { apply IH. intros k' g' Hin. apply Hgr. right. exact Hin. }
  lia.
Qed.

(** X11.  [remove_duplicates] gives back, unchanged, a list in which every
    record has an id that can be hashed and no two records have the same
    id; its own results are such lists, so running it again on a result
    changes nothing; and a result is never longer than the input. *)
Theorem remove_duplicates_fixed_points (fragrances : list record) :
  (Forall has_id fragrances ->
   List.NoDup ((fun r => get r "id") <$> fragrances) ->
   remove_duplicates fragrances = Ok fragrances)
  /\ (forall out, remove_duplicates fragrances = Ok out ->
        remove_duplicates out = Ok out
        /\ length out <= length fragrances).
Proof.
  split.
  - intros Hid Hnd. apply distinct_is_fixed; [|exact Hnd].
    eapply Forall_impl; [exact Hid|]. intros r (v & Hv). exists v.
    apply id_key_Ok. exact Hv.
  - intros out H.
    destruct (remove_duplicates_ids _ _ H) as (groups & Hg & Hgr & Hout).
    split.
    + apply distinct_is_fixed.
      * apply List.Forall_forall. intros r Hr.
        destruct (Forall2_in_right _ _ _ _ Hout Hr) as (kg & _ & _ & Hk).
        eauto.
      * rewrite (result_ids _ _ H).
        apply first_ids_NoDup.
    + apply (result_length _ _ H).
Qed.

Lemma remove_duplicates_fixed_witness :
  remove_duplicates [sauvage_rated; aventus] = Ok [sauvage_rated; aventus].
Proof.
  apply (proj1 (remove_duplicates_fixed_points [sauvage_rated; aventus])).
  - repeat constructor.
    + exists (VStr "dior__sauvage"). split; [vm_compute; reflexivity|discriminate].
    + exists (VStr "creed__aventus"). split; [vm_compute; reflexivity|discriminate].
  - vm_compute. constructor; [intros [E|[]]; discriminate E|].
    constructor; [intros []|constructor].
Defined.

Lemma group_by_app (l1 l2 : list record) groups0 :
  group_by py_eqb id_key (l1 ++ l2) groups0
  = (groups ← group_by py_eqb id_key l1 groups0;
     group_by py_eqb id_key l2 groups).
Proof.
  revert groups0. induction l1 as [|r l1 IH]; intros groups0; simpl;
    [reflexivity|].
  destruct (id_key r) as [k|e]; simpl; [apply IH|reflexivity].
Qed.

(** X12.  [remove_duplicates] returns exactly when every record has an id
    that can be hashed; otherwise the first record that has none decides
    the exception: [KeyError] when it has no [id] key, [TypeError] when its
    id is a list. *)
Theorem remove_duplicates_raises (fragrances : list record) :
  ((exists out, remove_duplicates fragrances = Ok out)
   <-> Forall has_id fragrances)
  /\ (forall before r after,
        fragrances = (before ++ r :: after)%list ->
        Forall has_id before ->
        (r !! "id" = None -> remove_duplicates fragrances = Raise KeyError)
        /\ (forall l, r !! "id" = Some (VList l) ->
                      remove_duplicates fragrances = Raise TypeError)).
Proof.
  split.
  - split; [|apply remove_duplicates_total].
    intros [out H].
    destruct (remove_duplicates_inv _ _ H) as (groups & _ & _ & Hkeys).
    eapply Forall_impl; [exact Hkeys|]. intros r [k Hk].
    exists k. apply id_key_Ok, Hk.
  - intros before r after -> Hb.
    destruct (group_by_total py_eqb id_key before []) as [groups Hg].
    { eapply Forall_impl; [exact Hb|]. intros x (v & Hv). exists v.
      apply id_key_Ok. exact Hv. }
    unfold remove_duplicates. rewrite group_by_app, Hg. simpl.
    unfold id_key, getitem.
    split; [intros ->; reflexivity|intros l ->; reflexivity].
Qed.

End RemoveDuplicatesFacts.
(** ** [normalize_fragrance_record] *)

Module NormalizeFacts.
Import FixDataForImport FixDataForImportFacts FixDataSteps PyFacts.

Lemma NoDup_normalized_keys : List.NoDup normalized_keys.
Proof.
  apply (NoDup_count_occ' string_dec). intros k Hk.
  repeat (destruct Hk as [<-|Hk]; [vm_compute; reflexivity|]).
  destruct Hk.
Qed.

Lemma lookup_rec_of (k : string) (items : list (string * value)) :
  List.NoDup (map fst items) ->
  rec_of items !! k = assoc k items.
Proof.
  unfold rec_of. induction items as [|[k' v] items IH]; simpl; intros Hnd.
  - apply lookup_empty.
  - apply NoDup_cons_iff in Hnd as [Hk' Hnd].
    destruct (String.eqb k k') eqn:E.
    + apply String.eqb_eq in E. subst. apply lookup_insert_eq.
    + apply String.eqb_neq in E. rewrite lookup_insert_ne by congruence.
      apply IH, Hnd.
Qed.

Lemma assoc_is_Some (k : string) (items : list (string * value)) :
  is_Some (assoc k items) <-> In k (map fst items).
Proof.
  induction items as [|[k' v] items IH]; simpl.
  - split; [intros [x Hx]; discriminate|tauto].
  - destruct (String.eqb k k') eqn:E.
    + apply String.eqb_eq in E. subst. split; [auto|eauto].
    + apply String.eqb_neq in E. rewrite IH. split; [auto|].
      intros [->|H]; [congruence|exact H].
Qed.

Lemma normalized_items_keys (f : record) (p : value) :
  map fst (normalized_items f p) = normalized_keys.
Proof. reflexivity. Qed.

Lemma lookup_normalized (f : record) (p : value) (k : string) :
  rec_of (normalized_items f p) !! k = assoc k (normalized_items f p).
Proof.
  apply lookup_rec_of. rewrite normalized_items_keys.
  apply NoDup_normalized_keys.
Qed.

Lemma normalize_inv (f n : record) :
  normalize_fragrance_record f = Ok n ->
  exists p, priority_of f = Ok p /\ n = rec_of (normalized_items f p).
Proof.
  unfold normalize_fragrance_record.
  destruct (priority_of f) as [p|e];
    cbv beta iota delta [mbind result_bind]; [|discriminate].
  intros H. exists p. split; [reflexivity|]. congruence.
Qed.

Ltac assoc_eval :=
  cbv beta iota delta [assoc normalized_items String.eqb Ascii.eqb Bool.eqb].

Lemma normalized_fixed (f : record) (p : value) :
  normalize_fragrance_record (rec_of (normalized_items f p))
  = Ok (rec_of (normalized_items f p)).
Proof.
  unfold normalize_fragrance_record, priority_of.
  rewrite lookup_normalized.
  replace (assoc "priority_score" (normalized_items f p)) with (Some p)
    by reflexivity.
  cbv beta iota delta [mbind result_bind].
  apply (f_equal Ok), (f_equal rec_of).
  unfold normalized_items at 1.
  unfold get, first_of, get_default.
  rewrite !lookup_normalized.
  assoc_eval. reflexivity.
Qed.

(** X13.  A record returned by [normalize_fragrance_record] has exactly
    the eighteen keys of the normalized structure, whatever keys the input
    had, and normalizing it again returns it unchanged. *)
Theorem normalize_fixed_structure (f n : record)
    (H : normalize_fragrance_record f = Ok n) :
  (forall k, is_Some (n !! k) <-> In k normalized_keys)
  /\ normalize_fragrance_record n = Ok n.
Proof.
  destruct (normalize_inv _ _ H) as (p & _ & ->). split.
  - intros k. rewrite lookup_normalized, assoc_is_Some, normalized_items_keys.
    reflexivity.
  - apply normalized_fixed.
Qed.

Lemma normalize_fixed_structure_witness :
  exists n,
    normalize_fragrance_record sauvage_rated = Ok n
    /\ normalize_fragrance_record n = Ok n.
Proof.
  destruct (normalize_fragrance_record sauvage_rated) as [n|e] eqn:H.
  - exists n. split; [reflexivity|].
    exact (proj2 (normalize_fixed_structure _ _ H)).
  - exfalso.
    assert (match normalize_fragrance_record sauvage_rated with
            | Ok _ => true
            | Raise _ => false
            end = true) as E by (vm_compute; reflexivity).
    rewrite H in E. discriminate E.
Defined.

Lemma or_zero_number (f : record) (k : string) :
  match or_zero (get_default f k (num 0)) with
  | VNum _ => number_or_falsy (get f k) = true
  | _ => number_or_falsy (get f k) = false
  end.
Proof.
  unfold or_zero, get, get_default. destruct (f !! k) as [v|]; [|reflexivity].
  destruct v as [|q|s|l]; simpl.
  - reflexivity.
  - destruct (negb (Qeq_bool q 0)); reflexivity.
  - destruct (String.eqb s ""); reflexivity.
  - destruct l; reflexivity.
Qed.

(** X14.  On a record whose rating and review count, when they are
    numbers, are of magnitude at most [10^300], [normalize_fragrance_record]
    returns exactly when the record has a [priority_score] or a
    [popularity_score] key, or its rating and its review count are each a
    number or falsy (absent, null, empty); the only exception it raises is
    [TypeError]. *)
Theorem normalize_returns_iff (f : record)
    (Hrating : in_float_range (get f "rating_value"))
    (Hcount : in_float_range (get f "rating_count")) :
  ((exists n, normalize_fragrance_record f = Ok n)
   <-> (is_Some (f !! "priority_score") \/ is_Some (f !! "popularity_score")
        \/ (number_or_falsy (get f "rating_value") = true
            /\ number_or_falsy (get f "rating_count") = true)))
  /\ (forall e, normalize_fragrance_record f = Raise e -> e = TypeError).
Proof.
  clear Hrating Hcount.
  unfold normalize_fragrance_record, priority_of.
  destruct (f !! "priority_score") as [v|].
  { cbv beta iota delta [mbind result_bind].
    split; [split; eauto|discriminate]. }
  destruct (f !! "popularity_score") as [v|].
  { cbv beta iota delta [mbind result_bind].
    split; [split; eauto|discriminate]. }
  pose proof (or_zero_number f "rating_value") as Hr.
  pose proof (or_zero_number f "rating_count") as Hc.
  cbv zeta. unfold basic_priority.
  destruct (or_zero (get_default f "rating_value" (num 0)));
    destruct (or_zero (get_default f "rating_count" (num 0)));
    cbv beta iota delta [mbind result_bind];
    (split;
     [split;
      [intros [n Hn]; try discriminate Hn; right; right; split; assumption
      |intros [[x Hx]|[[x Hx]|[H1 H2]]]; try discriminate Hx;
       try congruence; eauto]
     |intros e He; try discriminate He; congruence]).
Qed.

Lemma normalize_returns_witness :
  exists n, normalize_fragrance_record sauvage_rated = Ok n.
Proof.
  assert (in_float_range (get sauvage_rated "rating_value")) as Hrating
    by (split; vm_compute; discriminate).
  assert (in_float_range (get sauvage_rated "rating_count")) as Hcount
    by (split; vm_compute; discriminate).
  apply (proj1 (normalize_returns_iff sauvage_rated Hrating Hcount)).
  right. right. split; reflexivity.
Defined.

Lemma remove_duplicates_exception (l : list record) (e : exn) :
  remove_duplicates l = Raise e -> exists r, In r l /\ id_key r = Raise e.
Proof.
  intros H.
  assert (forall groups0, group_by py_eqb id_key l groups0 = Raise e ->
            exists r, In r l /\ id_key r = Raise e) as Hgb.
  { clear H. induction l as [|r l IH]; intros groups0; simpl; [discriminate|].
    destruct (id_key r) as [k|e'] eqn:Hk; simpl.
    - intros Hg. destruct (IH _ Hg) as (r' & Hin & Hr'). eauto.
    - intros [= ->]. eauto. }
  destruct (group_by py_eqb id_key l []) as [groups|e'] eqn:Hg.
  - exfalso.
    destruct (group_by_grouped py_eqb id_key py_eqb_eq _ [] _ _ Hg
                (grouped_nil _ _)) as [_ Hkeys].
    destruct (remove_duplicates_total l) as [out Hout]; [|congruence].
    eapply Forall_impl; [exact Hkeys|]. intros r [k Hk]. exists k.
    apply id_key_Ok, Hk.
  - unfold remove_duplicates in H. rewrite Hg in H.
    change (Raise e' = Raise e :> result (list record)) in H.
    injection H as <-. apply (Hgb [] Hg).
Qed.

Lemma normalized_id (f n : record) :
  normalize_fragrance_record f = Ok n ->
  n !! "id" = Some (get_default f "id" (VStr "")).
Proof.
  intros H. destruct (normalize_inv _ _ H) as (p & _ & ->).
  rewrite lookup_normalized. reflexivity.
Qed.

(** X15.  After normalization every record has an [id] key, so
    [remove_duplicates] cannot raise [KeyError] on normalized records: it
    returns unless the id of some input record is a list, and then it
    raises [TypeError]. *)
Theorem remove_duplicates_after_normalize (fragrances normalized : list record)
    (H : mapM normalize_fragrance_record fragrances = Ok normalized) :
  ((exists out, remove_duplicates normalized = Ok out)
   <-> Forall (fun f => forall l, f !! "id" <> Some (VList l)) fragrances)
  /\ (forall e, remove_duplicates normalized = Raise e -> e = TypeError).
Proof.
  apply mapM_Ok in H. split; [split|].
  - intros [out Hout].
    destruct (remove_duplicates_inv _ _ Hout) as (groups & _ & _ & Hkeys).
    clear Hout. induction H as [|f n fs ns Hn _ IH]; [constructor|].
    apply Forall_cons_1 in Hkeys as [[k Hk] Hkeys].
    constructor; [|apply IH, Hkeys].
    intros l Hl. apply id_key_Ok in Hk as [Hk Hnl].
    rewrite (normalized_id _ _ Hn) in Hk. unfold get_default in Hk.
    rewrite Hl in Hk. injection Hk as <-. exact (Hnl l eq_refl).
  - intros Hall. apply remove_duplicates_total.
    induction H as [|f n fs ns Hn _ IH]; [constructor|].
    apply Forall_cons_1 in Hall as [Hf Hall].
    constructor; [|apply IH, Hall].
    exists (get_default f "id" (VStr "")).
    split; [apply (normalized_id _ _ Hn)|].
    intros l. unfold get_default. destruct (f !! "id") as [v|] eqn:E;
      [|discriminate].
    intros ->. exact (Hf l eq_refl).
  - intros e He. apply remove_duplicates_exception in He as (n & Hin & Hk).
    destruct (Forall2_in_right _ _ _ _ H Hin) as (f & _ & Hn).
    unfold id_key, getitem in Hk. rewrite (normalized_id _ _ Hn) in Hk.
    cbv beta iota delta [mbind result_bind] in Hk.
    destruct (get_default f "id" (VStr "")); simpl in Hk; congruence.
Qed.

Lemma remove_duplicates_after_normalize_witness :
  exists normalized,
    mapM normalize_fragrance_record [sauvage_unrated; aventus; sauvage_rated]
    = Ok normalized
    /\ forall e, remove_duplicates normalized = Raise e -> e = TypeError.
Proof.
  destruct (mapM normalize_fragrance_record
              [sauvage_unrated; aventus; sauvage_rated])
    as [normalized|e] eqn:H.
  - exists normalized. split; [reflexivity|].
    exact (proj2 (remove_duplicates_after_normalize _ _ H)).
  - exfalso.
    assert (match mapM normalize_fragrance_record
                    [sauvage_unrated; aventus; sauvage_rated] with
            | Ok _ => true
            | Raise _ => false
            end = true) as E by (vm_compute; reflexivity).
    rewrite H in E. discriminate E.
Defined.

End NormalizeFacts.
(** ** [fix_validation_errors] *)

Module FixValidationFacts.
Import FixDataForImport FixDataSteps PyFacts.

(** A record the loop has nothing to repair in. *)
Lemma fix_record_sound (r : record) :
  truthy (get r "name") = true -> truthy (get r "slug") = true ->
  fix_record r = Ok (Some r).
Proof.
  intros Hn Hs. unfold fix_record, fix_name. rewrite Hn. cbn [negb andb].
  cbv beta iota delta [mbind result_bind].
  unfold fix_slug. rewrite Hs. reflexivity.
Qed.

Lemma get_insert_eq (r : record) (k : string) (v : value) :
  get (<[k := v]> r) k = v.
Proof. unfold get, get_default. rewrite lookup_insert_eq. reflexivity. Qed.

Lemma get_insert_ne (r : record) (k k' : string) (v : value) :
  k <> k' -> get (<[k := v]> r) k' = get r k'.
Proof.
  intros H. unfold get, get_default. rewrite lookup_insert_ne by exact H.
  reflexivity.
Qed.

Lemma map_str_empty (f : ascii -> ascii) (s : string) :
  PyStr.map_str f s = "" -> s = "".
Proof. destruct s; [reflexivity|discriminate]. Qed.

Lemma truthy_str (s : string) : truthy (VStr s) = negb (String.eqb s "").
Proof. reflexivity. Qed.

Lemma truthy_get (r : record) (k : string) :
  truthy (get r k) = true -> exists v, r !! k = Some v /\ get r k = v.
Proof.
  unfold get, get_default. destruct (r !! k) as [v|]; [eauto|discriminate].
Qed.

(** The slug repair, on a record that has a name. *)
Lemma fix_slug_inv (r r' : record) :
  fix_slug r = Ok r' ->
  (forall k, k <> "slug" -> r' !! k = r !! k)
  /\ (forall k, is_Some (r !! k) -> is_Some (r' !! k))
  /\ (truthy (get r "name") = true -> truthy (get r' "slug") = true)
  /\ (truthy (get r "slug") = true \/ truthy (get r "name") = false -> r' = r).
Proof.
  unfold fix_slug.
  destruct (truthy (get r "slug")) eqn:Hs;
    [intros [= <-]; repeat split; auto|].
  destruct (truthy (get r "name")) eqn:Hn; cbn [negb andb];
    [|intros [= <-]; repeat split; auto; discriminate].
  destruct (truthy_get _ _ Hn) as (v & Hv & Hg).
  unfold getitem. rewrite Hv. cbv beta iota delta [mbind result_bind].
  rewrite Hg in Hn.
  destruct v as [|q|s|l]; cbv beta iota delta [slug_of_name];
    try discriminate.
  intros [= <-]. split; [|split; [|split]].
  - intros k Hk. apply lookup_insert_ne. congruence.
  - intros k Hk. destruct (decide (k = "slug")) as [->|Hne].
    + rewrite lookup_insert_eq. eauto.
    + rewrite lookup_insert_ne by congruence. exact Hk.
  - intros _. rewrite get_insert_eq, truthy_str.
    rewrite truthy_str in Hn. apply negb_true_iff in Hn.
    apply negb_true_iff, String.eqb_neq. apply String.eqb_neq in Hn.
    intros E. apply Hn. unfold PyStr.replace_char, PyStr.lower in E.
    apply map_str_empty in E. apply map_str_empty in E. exact E.
  - intros [H|H]; discriminate H.
Qed.

Lemma fix_slug_nameless (r : record) :
  truthy (get r "name") = false -> fix_slug r = Ok r.
Proof.
  intros H. unfold fix_slug. rewrite H, andb_false_r. reflexivity.
Qed.

Lemma fix_slug_slugged (r : record) :
  truthy (get r "slug") = true -> fix_slug r = Ok r.
Proof. intros H. unfold fix_slug. rewrite H. reflexivity. Qed.

Lemma fix_record_inv (r : record) (o : option record) :
  fix_record r = Ok o -> record_repaired r o.
Proof.
  unfold fix_record.
  destruct (truthy (get r "name")) eqn:Hn; cbn [negb andb].
  - unfold fix_name. rewrite Hn. cbn [negb andb].
    cbv beta iota delta [mbind result_bind].
    destruct (fix_slug r) as [r'|e] eqn:Hs; [|discriminate].
    intros [= <-]. apply fix_slug_inv in Hs as (H1 & H0 & H2 & H3).
    split; [|split; [|split; [|split]]].
    + intros k _ Hk. apply H1, Hk.
    + exact H0.
    + intros _. apply H2, Hn.
    + intros _. apply H1. discriminate.
    + congruence.
  - destruct (truthy (get r "id")) eqn:Hi; cbn [negb andb].
    + unfold fix_name. rewrite Hn, Hi. cbn [negb andb].
      destruct (truthy_get _ _ Hi) as (v & Hv & Hg).
      unfold getitem. rewrite Hv. cbv beta iota delta [mbind result_bind].
      rewrite Hg in Hi.
      destruct v as [|q|s|l]; cbv beta iota delta [split_of];
        try discriminate.
      assert (s <> "") as Hne.
      { rewrite truthy_str in Hi. apply negb_true_iff, String.eqb_neq in Hi.
        exact Hi. }
      assert (forall parts,
                match parts with
                | [_; _] => False
                | _ => True
                end ->
                PyStr.split_dunder s = parts ->
                fix_slug r = Ok r ->
                record_repaired r (Some r)) as Hsame.
      { intros parts Hp Hsplit _. split; [auto|]. split; [auto|].
        split; [congruence|]. split; [auto|]. intros _. exists s. split; [exact Hv|].
        split; [exact Hne|]. rewrite Hsplit.
        destruct parts as [|a [|b [|c parts]]]; tauto. }
      pose proof (fix_slug_nameless r Hn) as Hfs.
      destruct (PyStr.split_dunder s) as [|a [|b [|c parts]]] eqn:Hsplit.
      * rewrite Hfs. intros [= <-]. apply (Hsame []); auto.
      * rewrite Hfs. intros [= <-]. apply (Hsame [a]); auto.
      * destruct (String.eqb b "") eqn:Hb; cbn [negb].
        -- intros [= <-]. apply String.eqb_eq in Hb. subst b.
           split; [exact Hn|]. right. eauto.
        -- apply String.eqb_neq in Hb.
           rewrite fix_slug_slugged.
           2:{ rewrite get_insert_eq, truthy_str.
               apply negb_true_iff, String.eqb_neq, Hb. }
           intros [= <-]. split; [|split; [|split; [|split]]].
           ++ intros k Hk1 Hk2. rewrite !lookup_insert_ne by congruence.
              reflexivity.
           ++ intros k Hk. destruct (decide (k = "slug")) as [->|Hne1];
                [rewrite lookup_insert_eq; eauto|].
              rewrite lookup_insert_ne by congruence.
              destruct (decide (k = "name")) as [->|Hne2];
                [rewrite lookup_insert_eq; eauto|].
              rewrite lookup_insert_ne by congruence. exact Hk.
           ++ intros _. rewrite get_insert_eq, truthy_str.
              apply negb_true_iff, String.eqb_neq, Hb.
           ++ congruence.
           ++ intros _. exists s. split; [exact Hv|]. split; [exact Hne|].
              rewrite Hsplit. split; [exact Hb|reflexivity].
      * rewrite Hfs. intros [= <-]. apply (Hsame (a :: b :: c :: parts)); auto.
    + intros [= <-]. split; [exact Hn|]. left. exact Hi.
Qed.

Lemma fix_record_stable (r r' : record) :
  fix_record r = Ok (Some r') -> fix_record r' = Ok (Some r').
Proof.
  intros H.
  pose proof (fix_record_inv _ _ H) as (_ & _ & Hslug & Hname & Hnameless).
  destruct (truthy (get r' "name")) eqn:Hn'.
  - apply fix_record_sound; auto.
  - destruct (truthy (get r "name")) eqn:Hn.
    + exfalso. unfold get, get_default in Hn, Hn'.
      rewrite (Hname eq_refl), Hn in Hn'. discriminate.
    + destruct (Hnameless eq_refl) as (s & _ & _ & Hparts).
      destruct (PyStr.split_dunder s) as [|a [|b [|c parts]]];
        try (subst r'; exact H).
      destruct Hparts as [Hb ->]. exfalso.
      rewrite get_insert_ne, get_insert_eq, truthy_str in Hn' by discriminate.
      apply negb_false_iff, String.eqb_eq in Hn'. contradiction.
Qed.

#[local] Abbreviation kept := (omap (fun o : option record => o)).

Lemma fix_validation_errors_inv (l out : list record) :
  fix_validation_errors l = Ok out ->
  exists fixed,
    Forall2 (fun r o => fix_record r = Ok o) l fixed
    /\ out = kept fixed.
Proof.
  revert out. induction l as [|r l IH]; simpl; intros out H.
  - injection H as <-. exists []. split; [constructor|reflexivity].
  - destruct (fix_record r) as [o|e] eqn:Hr; [|discriminate].
    cbv beta iota delta [mbind result_bind] in H.
    destruct (fix_validation_errors l) as [rest|e] eqn:Hl; [|discriminate].
    destruct (IH _ eq_refl) as (fixed & Hf & ->).
    exists (o :: fixed). split; [constructor; assumption|].
    injection H as <-. destruct o; reflexivity.
Qed.

Lemma fix_validation_errors_all (l : list record) :
  Forall (fun r => fix_record r = Ok (Some r)) l ->
  fix_validation_errors l = Ok l.
Proof.
  induction 1 as [|r l Hr _ IH]; simpl; [reflexivity|].
  rewrite Hr, IH. reflexivity.
Qed.

Lemma in_omap_id (fixed : list (option record)) (r' : record) :
  In r' (kept fixed) <-> In (Some r') fixed.
Proof.
  induction fixed as [|[x|] fixed IH]; simpl; [tauto| |].
  - rewrite IH. split; (intros [H|H]; [left; congruence|right; exact H]).
  - rewrite IH. split; [auto|]. intros [H|H]; [discriminate|exact H].
Qed.

Lemma length_omap_id (fixed : list (option record)) :
  length (kept fixed) <= length fixed.
Proof.
  induction fixed as [|[x|] fixed IH]; cbn [omap list_omap length];
    [lia|apply le_n_S, IH|apply le_S, IH].
Qed.

(** X16.  Whenever [fix_validation_errors] returns, every record of the
    result comes from a record of the input that differs from it in its
    name and slug at most, and keeps its name if it had one; a record of
    the result that has a name has a slug; and the result is never longer
    than the input. *)
Theorem fix_validation_errors_repairs (fragrances out : list record)
    (H : fix_validation_errors fragrances = Ok out) :
  Forall (fun r' =>
            (truthy (get r' "name") = true -> truthy (get r' "slug") = true)
            /\ exists r,
                 In r fragrances
                 /\ (forall k, k <> "name" -> k <> "slug" -> r' !! k = r !! k)
                 /\ (truthy (get r "name") = true ->
                     r' !! "name" = r !! "name"))
         out
  /\ length out <= length fragrances.
Proof.
  destruct (fix_validation_errors_inv _ _ H) as (fixed & Hf & ->). split.
  - apply List.Forall_forall. intros r' Hr'. apply in_omap_id in Hr'.
    destruct (Forall2_in_right _ _ _ _ Hf Hr') as (r & Hin & Hr).
    apply fix_record_inv in Hr as (H1 & _ & H2 & H3 & _).
    split; [exact H2|]. exists r. auto.
  - rewrite (Forall2_length _ _ _ Hf). apply length_omap_id.
Qed.

Lemma fix_validation_errors_repairs_witness :
  Forall (fun r' : record => exists r, In r [nameless] /\ r' !! "id" = r !! "id")
         [ <["slug" := VStr "sauvage"]> (<["name" := VStr "sauvage"]> nameless) ].
Proof.
  assert (fix_validation_errors [nameless]
          = Ok [ <["slug" := VStr "sauvage"]>
                   (<["name" := VStr "sauvage"]> nameless) ]) as H
    by (vm_compute; reflexivity).
  pose proof (proj1 (fix_validation_errors_repairs _ _ H)) as Hall.
  eapply Forall_impl; [exact Hall|].
  intros r' (_ & r & Hin & Hk & _). exists r. split; [exact Hin|].
  apply Hk; discriminate.
Defined.

(** X17.  [fix_validation_errors] gives back, unchanged, a list in which
    every record has a name and a slug, and running it again on one of its
    results changes nothing. *)
Theorem fix_validation_errors_fixed_points (fragrances : list record) :
  (Forall (fun r => truthy (get r "name") = true
                    /\ truthy (get r "slug") = true) fragrances ->
   fix_validation_errors fragrances = Ok fragrances)
  /\ (forall out, fix_validation_errors fragrances = Ok out ->
        fix_validation_errors out = Ok out).
Proof.
  split.
  - intros Hall. apply fix_validation_errors_all.
    eapply Forall_impl; [exact Hall|]. intros r [Hn Hs].
    apply fix_record_sound; assumption.
  - intros out H.
    destruct (fix_validation_errors_inv _ _ H) as (fixed & Hf & ->).
    apply fix_validation_errors_all, List.Forall_forall.
    intros r' Hr'. apply in_omap_id in Hr'.
    destruct (Forall2_in_right _ _ _ _ Hf Hr') as (r & _ & Hr).
    apply (fix_record_stable _ _ Hr).
Qed.

(** X18.  The repair can leave a record without a name: whenever
    [fix_validation_errors] returns, the records of the result that have
    no name are the records of the input that have no name and whose id is
    a non-empty string that [split('__')] does not cut in exactly two. *)
Theorem fix_validation_errors_nameless_kept (fragrances out : list record)
    (H : fix_validation_errors fragrances = Ok out) (r : record) :
  (In r out /\ truthy (get r "name") = false)
  <-> (In r fragrances /\ truthy (get r "name") = false
       /\ exists s, r !! "id" = Some (VStr s) /\ s <> ""
                    /\ length (PyStr.split_dunder s) <> 2).
Proof.
  destruct (fix_validation_errors_inv _ _ H) as (fixed & Hf & ->).
  rewrite in_omap_id. split.
  - intros [Hin Hn'].
    destruct (Forall2_in_right _ _ _ _ Hf Hin) as (r0 & Hin0 & Hr).
    apply fix_record_inv in Hr as (_ & _ & _ & Hname & Hnameless).
    destruct (truthy (get r0 "name")) eqn:Hn0.
    { exfalso. unfold get, get_default in Hn0, Hn'.
      rewrite (Hname eq_refl), Hn0 in Hn'. discriminate. }
    destruct (Hnameless eq_refl) as (s & Hid & Hne & Hparts).
    destruct (PyStr.split_dunder s) as [|a [|b [|c parts]]] eqn:Hsplit;
      try (subst r0; split; [exact Hin0|]; split; [exact Hn'|];
           exists s; rewrite Hsplit; repeat split; auto; discriminate).
    destruct Hparts as [Hb ->]. exfalso.
    rewrite get_insert_ne, get_insert_eq, truthy_str in Hn' by discriminate.
    apply negb_false_iff, String.eqb_eq in Hn'. contradiction.
  - intros (Hin & Hn & s & Hid & Hne & Hlen). split; [|exact Hn].
    destruct (Forall2_in_left _ _ _ _ Hf Hin) as (o & Ho & Hr).
    pose proof (fix_record_inv _ _ Hr) as Hrep.
    destruct o as [r'|].
    + destruct Hrep as (_ & _ & _ & _ & Hnameless).
      destruct (Hnameless Hn) as (s' & Hid' & _ & Hparts).
      assert (s' = s) as -> by congruence.
      destruct (PyStr.split_dunder s) as [|a [|b [|c parts]]];
        try (subst r'; exact Ho).
      exfalso. apply Hlen. reflexivity.
    + exfalso. destruct Hrep as [_ [Hi|(s' & b & Hid' & Hsplit)]].
      * unfold get, get_default in Hi. rewrite Hid, truthy_str in Hi.
        apply negb_false_iff, String.eqb_eq in Hi. contradiction.
      * assert (s' = s) as -> by congruence.
        rewrite Hsplit in Hlen. apply Hlen. reflexivity.
Qed.

Lemma fix_validation_errors_nameless_witness :
  In no_separator [no_separator] /\ truthy (get no_separator "name") = false.
Proof.
  assert (fix_validation_errors [no_separator] = Ok [no_separator]) as H
    by (vm_compute; reflexivity).
  apply (proj2 (fix_validation_errors_nameless_kept _ _ H no_separator)).
  split; [left; reflexivity|]. split; [reflexivity|].
  exists "sauvage". split; [reflexivity|]. split; discriminate.
Defined.

Lemma fix_record_returns (r : record) :
  (exists o, fix_record r = Ok o) <-> repairable r = true.
Proof.
  unfold fix_record, repairable.
  destruct (truthy (get r "name")) eqn:Hn; cbn [negb andb].
  - unfold fix_name. rewrite Hn. cbn [negb andb].
    cbv beta iota delta [mbind result_bind]. unfold fix_slug. rewrite Hn.
    destruct (truthy (get r "slug")); cbn [negb andb orb]; [split; eauto|].
    destruct (truthy_get _ _ Hn) as (v & Hv & Hg).
    unfold getitem. rewrite Hv, Hg. rewrite Hg in Hn.
    destruct v as [|q|s|l]; try discriminate;
      cbv beta iota delta [mbind result_bind slug_of_name string_or_falsy];
      rewrite ?Hn; cbn [negb];
      (split; [intros [o Ho]; try discriminate Ho; reflexivity
              |intros Ho; try discriminate Ho; eauto]).
  - destruct (truthy (get r "id")) eqn:Hi; cbn [negb andb].
    + unfold fix_name. rewrite Hn, Hi. cbn [negb andb].
      destruct (truthy_get _ _ Hi) as (v & Hv & Hg).
      unfold getitem. rewrite Hv, Hg. rewrite Hg in Hi.
      pose proof (fix_slug_nameless r Hn) as Hfs.
      destruct v as [|q|s|l]; try discriminate;
        cbv beta iota delta [mbind result_bind split_of string_or_falsy];
        rewrite ?Hi; cbn [negb];
        try (split; [intros [o Ho]; discriminate Ho|discriminate]).
      split; [reflexivity|]. intros _.
      destruct (PyStr.split_dunder s) as [|a [|b [|c parts]]];
        rewrite ?Hfs; eauto.
      destruct (String.eqb b "") eqn:Hb; cbn [negb]; [eauto|].
      rewrite fix_slug_slugged; [eauto|].
      rewrite get_insert_eq, truthy_str, Hb. reflexivity.
    + split; [|eauto]. intros _. unfold string_or_falsy.
      destruct (get r "id"); try reflexivity; rewrite Hi; reflexivity.
Qed.

Lemma fix_slug_exception (r : record) (e : exn) :
  fix_slug r = Raise e -> e = AttributeError.
Proof.
  unfold fix_slug.
  destruct (negb (truthy (get r "slug"))); cbn [andb]; [|discriminate].
  destruct (truthy (get r "name")) eqn:Hn; [|discriminate].
  destruct (truthy_get _ _ Hn) as (v & Hv & _).
  unfold getitem. rewrite Hv.
  destruct v; cbv beta iota delta [mbind result_bind slug_of_name];
    congruence.
Qed.

Lemma fix_name_exception (r : record) (e : exn) :
  fix_name r = Raise e -> e = AttributeError.
Proof.
  unfold fix_name.
  destruct (negb (truthy (get r "name"))); cbn [andb]; [|discriminate].
  destruct (truthy (get r "id")) eqn:Hi; [|discriminate].
  destruct (truthy_get _ _ Hi) as (v & Hv & _).
  unfold getitem. rewrite Hv.
  destruct v as [|q|s|l]; cbv beta iota delta [mbind result_bind split_of];
    try congruence.
  destruct (PyStr.split_dunder s) as [|a [|b [|c parts]]]; try discriminate.
  destruct (negb (String.eqb b "")); discriminate.
Qed.

Lemma fix_record_exception (r : record) (e : exn) :
  fix_record r = Raise e -> e = AttributeError.
Proof.
  unfold fix_record.
  destruct (negb (truthy (get r "name")) && negb (truthy (get r "id")));
    [discriminate|].
  destruct (fix_name r) as [[g|]|e'] eqn:Hname;
    cbv beta iota delta [mbind result_bind].
  - destruct (fix_slug g) as [g'|e'] eqn:Hslug; [discriminate|].
    intros [= <-]. apply (fix_slug_exception _ _ Hslug).
  - discriminate.
  - intros [= <-]. apply (fix_name_exception _ _ Hname).
Qed.

(** X19.  [fix_validation_errors] returns exactly when no record has a
    name or id it cannot read: a missing name needs a string id or none, a
    missing slug needs a string name; the only exception it raises is
    [AttributeError]. *)
Theorem fix_validation_errors_returns_iff (fragrances : list record) :
  ((exists out, fix_validation_errors fragrances = Ok out)
   <-> Forall (fun r => repairable r = true) fragrances)
  /\ (forall e, fix_validation_errors fragrances = Raise e ->
                e = AttributeError).
Proof.
  induction fragrances as [|r l [IH1 IH2]]; simpl.
  - split; [split; [constructor|eauto]|discriminate].
  - pose proof (fix_record_returns r) as Hr.
    destruct (fix_record r) as [o|e'] eqn:Ho;
      cbv beta iota delta [mbind result_bind].
    + destruct (fix_validation_errors l) as [rest|e'].
      * split; [|discriminate]. split; [|eauto]. intros _.
        constructor; [apply Hr; eauto|apply IH1; eauto].
      * split.
        -- split; [intros [out Hout]; discriminate Hout|].
           intros Hall. apply Forall_cons_1 in Hall as [_ Hall].
           apply IH1 in Hall as [out Hout]. discriminate Hout.
        -- intros e [= <-]. apply IH2. reflexivity.
    + split.
      * split; [intros [out Hout]; discriminate Hout|].
        intros Hall. apply Forall_cons_1 in Hall as [Hrep _].
        apply Hr in Hrep as [o Ho']. discriminate Ho'.
      * intros e [= <-]. apply (fix_record_exception _ _ Ho).
Qed.

End FixValidationFacts.
(** ** The steps of [main] of [fix_data_for_import.py] *)

Module MainStepsFacts.
Import FixDataForImport FixDataForImportFacts FixDataSteps PyFacts.
Import RemoveDuplicatesFacts NormalizeFacts FixValidationFacts.

#[local] Abbreviation ids := (fmap (fun r : record => get r "id")).
#[local] Abbreviation kept := (omap (fun o : option record => o)).

Lemma repaired_id (r r' : record) :
  record_repaired r (Some r') -> get r' "id" = get r "id".
Proof.
  intros (H & _). unfold get, get_default. rewrite H by discriminate.
  reflexivity.
Qed.

(** The ids after the repair are among the ids before it, in order and
    without repetition. *)
Lemma kept_ids (l : list record) (fixed : list (option record)) :
  Forall2 (fun r o => fix_record r = Ok o) l fixed ->
  List.NoDup (ids l) ->
  List.NoDup (ids (kept fixed))
  /\ (forall v, In v (ids (kept fixed)) -> In v (ids l)).
Proof.
  induction 1 as [|r o l fixed Hr _ IH]; intros Hnd.
  - split; [constructor|intros v []].
  - rewrite fmap_cons in Hnd. apply NoDup_cons_iff in Hnd as [Hr' Hnd].
    destruct (IH Hnd) as [IH1 IH2].
    destruct o as [r'|]; cbn [omap list_omap].
    + apply fix_record_inv, repaired_id in Hr. rewrite !fmap_cons, Hr.
      split.
      * constructor; [|exact IH1]. intros Hin. apply Hr', IH2, Hin.
      * intros v [<-|Hv]; [left; reflexivity|right; apply IH2, Hv].
    + split; [exact IH1|]. intros v Hv. rewrite fmap_cons. right.
      apply IH2, Hv.
Qed.

Lemma repaired_keys (r r' : record) :
  (forall k, is_Some (r !! k) <-> In k normalized_keys) ->
  record_repaired r (Some r') ->
  forall k, is_Some (r' !! k) <-> In k normalized_keys.
Proof.
  intros Hkeys (Hsame & Hmono & _) k. split.
  - intros Hk. destruct (decide (k = "name")) as [->|Hn];
      [vm_compute; tauto|].
    destruct (decide (k = "slug")) as [->|Hs]; [vm_compute; tauto|].
    apply Hkeys. rewrite <- Hsame by assumption. exact Hk.
  - intros Hk. apply Hmono, Hkeys, Hk.
Qed.

(** X20.  Whenever the three steps of [main] (normalize, remove
    duplicates, repair) return, the records to be saved have pairwise
    distinct ids, each the id of an input record (or the empty string for
    an input without id); they are at most as many as the input records;
    each has exactly the keys of the normalized structure; and each that has
    a name has a slug. *)
Theorem main_steps_output (fragrances out : list record)
    (H : main_steps fragrances = Ok out) :
  List.NoDup ((fun r => get r "id") <$> out)
  /\ length out <= length fragrances
  /\ Forall (fun r =>
              (forall k, is_Some (r !! k) <-> In k normalized_keys)
              /\ (truthy (get r "name") = true ->
                  truthy (get r "slug") = true)
              /\ exists f, In f fragrances
                           /\ get r "id" = get_default f "id" (VStr ""))
            out.
Proof.
  unfold main_steps in H.
  destruct (mapM normalize_fragrance_record fragrances) as [ns|e] eqn:Hn;
    [|discriminate].
  cbv beta iota delta [mbind result_bind] in H.
  destruct (remove_duplicates ns) as [dd|e] eqn:Hd; [|discriminate].
  apply mapM_Ok in Hn.
  destruct (fix_validation_errors_inv _ _ H) as (fixed & Hf & ->).
  pose proof (result_ids _ _ Hd) as Hids.
  destruct (remove_duplicates_ids _ _ Hd) as (groups & _ & _ & Hwin).
  assert (List.NoDup (ids dd)) as Hnd
    by (rewrite Hids; apply first_ids_NoDup).
  destruct (kept_ids _ _ Hf Hnd) as [Hnd' _].
  split; [exact Hnd'|]. split.
  - pose proof (result_length _ _ Hd) as Hlen.
    rewrite (Forall2_length _ _ _ Hn).
    etransitivity; [|exact Hlen].
    rewrite (Forall2_length _ _ _ Hf). apply length_omap_id.
  - apply List.Forall_forall. intros r' Hr'. apply in_omap_id in Hr'.
    destruct (Forall2_in_right _ _ _ _ Hf Hr') as (r & Hin & Hr).
    apply fix_record_inv in Hr.
    destruct (Forall2_in_right _ _ _ _ Hwin Hin) as (kg & _ & Hns & _).
    destruct (Forall2_in_right _ _ _ _ Hn Hns) as (f & Hfin & Hnorm).
    destruct (normalize_inv _ _ Hnorm) as (p & _ & Hr0).
    split; [|split].
    + apply (repaired_keys r); [|exact Hr]. intros k. subst r.
      rewrite lookup_normalized, assoc_is_Some, normalized_items_keys.
      reflexivity.
    + destruct Hr as (_ & _ & Hslug & _). exact Hslug.
    + exists f. split; [exact Hfin|]. rewrite (repaired_id _ _ Hr).
      unfold get, get_default at 1. rewrite (normalized_id _ _ Hnorm).
      reflexivity.
Qed.

Lemma main_steps_output_witness :
  exists out,
    main_steps [sauvage_unrated; aventus; nameless; sauvage_rated] = Ok out
    /\ List.NoDup ((fun r => get r "id") <$> out)
    /\ length out <= 4.
Proof.
  destruct (main_steps [sauvage_unrated; aventus; nameless; sauvage_rated])
    as [out|e] eqn:H.
  - exists out. split; [reflexivity|].
    pose proof (main_steps_output _ _ H) as (H1 & H2 & _).
    exact (conj H1 H2).
  - exfalso.
    assert (match main_steps
                    [sauvage_unrated; aventus; nameless; sauvage_rated] with
            | Ok _ => true
            | Raise _ => false
            end = true) as E by (vm_compute; reflexivity).
    rewrite H in E. discriminate E.
Defined.

End MainStepsFacts.
(** ** [fix_duplicate_names]: input without duplicates *)

Module FixDuplicateNamesMoreFacts.
Import FixDuplicateNames FixDuplicateNamesFacts PyFacts RemoveDuplicatesFacts.

Section Formatting.
Variable str_other : value -> string.

Lemma fix_singletons (ks : list (value * value)) (l : list record) :
  length ks = length l ->
  mapM (fun kg : value * value * list record => fix_group str_other (snd kg))
       (zip ks ((fun r => [r]) <$> l))
  = Ok ((fun r => [r]) <$> l).
Proof.
  revert ks. induction l as [|r l IH]; intros [|k ks] Hlen;
    try discriminate; [reflexivity|].
  rewrite !fmap_cons. cbn [zip zip_with mapM snd fix_group].
  rewrite IH by (simpl in Hlen; lia). reflexivity.
Qed.

Lemma concat_singletons (l : list record) :
  concat ((fun r => [r]) <$> l) = l.
Proof.
  induction l as [|r l IH]; [reflexivity|].
  rewrite fmap_cons. simpl. rewrite IH. reflexivity.
Qed.

Lemma count_remaining_distinct (l : list record) (ks : list (value * value)) :
  Forall2 (fun f k => name_key f = Ok k) l ks ->
  forall seen,
    List.NoDup ks -> (forall k, In k ks -> ~ In k seen) ->
    count_remaining seen l = Ok 0.
Proof.
  induction 1 as [|f k l ks Hk _ IH]; intros seen Hnd Hseen; simpl;
    [reflexivity|].
  rewrite Hk. cbv beta iota delta [mbind result_bind].
  apply NoDup_cons_iff in Hnd as [Hk' Hnd].
  destruct (existsb (key_eqb k) seen) eqn:E.
  - exfalso. apply existsb_exists in E as (k' & Hin & E).
    apply key_eqb_eq in E. subst k'.
    apply (Hseen k); [left; reflexivity|exact Hin].
  - apply IH; [exact Hnd|]. intros k0 Hin [<-|Hs]; [exact (Hk' Hin)|].
    apply (Hseen k0); [right; exact Hin|exact Hs].
Qed.

(** X21.  On a list in which no two records have the same
    (brand_id, name) key, [fix_duplicate_names] changes nothing: it
    returns the input list itself, in the same order, and counts no
    remaining duplicate. *)
Theorem fix_duplicate_names_no_duplicates (fragrances : list record)
    (keys : list (value * value))
    (Hkeys : Forall2 (fun f k => name_key f = Ok k) fragrances keys)
    (Hdistinct : List.NoDup keys) :
  fix_duplicate_names str_other fragrances = Ok (fragrances, 0).
Proof.
  unfold fix_duplicate_names.
  rewrite (group_by_singletons key_eqb name_key key_eqb_eq _ _ Hkeys [])
    by exact Hdistinct.
  cbv beta iota delta [mbind result_bind]. rewrite app_nil_l.
  rewrite fix_singletons by (symmetry; apply (Forall2_length _ _ _ Hkeys)).
  rewrite concat_singletons.
  rewrite (count_remaining_distinct _ _ Hkeys []); [reflexivity|exact Hdistinct|].
  intros k _ [].
Qed.

End Formatting.

Lemma fix_duplicate_names_no_duplicates_witness :
  fix_duplicate_names no_repr [sauvage_edp; FixDataForImport.aventus]
  = Ok ([sauvage_edp; FixDataForImport.aventus], 0).
Proof.
  apply (fix_duplicate_names_no_duplicates no_repr _
           [ (VStr "dior", VStr "Sauvage"); (VStr "", VStr "Aventus") ]).
  - repeat constructor.
  - constructor; [intros [E|[]]; discriminate E|].
    constructor; [intros []|constructor].
Defined.

End FixDuplicateNamesMoreFacts.
(** ** [clean_fragrance_data]: ids and slugs *)

Module KaggleIdFacts.
Import KaggleProcessor KaggleProcessorFacts PyStrFacts NotesFacts.

Lemma append_assoc (a b c : string) : (a +:+ b) +:+ c = a +:+ (b +:+ c).
Proof.
  induction a as [|x a IH]; [reflexivity|].
  change (String x ((a +:+ b) +:+ c) = String x (a +:+ (b +:+ c))).
  f_equal. exact IH.
Qed.

Lemma append_empty_r (s : string) : s +:+ "" = s.
Proof.
  induction s as [|x s IH]; [reflexivity|].
  change (String x (s +:+ "") = String x s). f_equal. exact IH.
Qed.

Lemma rev_str_acc (acc s : string) : rev_str acc s = rev_str "" s +:+ acc.
Proof.
  revert acc. induction s as [|c s IH]; intros acc; simpl; [reflexivity|].
  rewrite (IH (String c acc)), (IH (String c "")), append_assoc. reflexivity.
Qed.

Lemma rev_str_cons (c : ascii) (cur : string) :
  rev_str "" (String c cur) = rev_str "" cur +:+ String c "".
Proof. apply (rev_str_acc (String c "")). Qed.

Lemma slug_char_not_underscore (c : ascii) :
  slug_char c = true -> Ascii.eqb c "_" = false.
Proof.
  intros H. destruct (Ascii.eqb_spec c "_") as [->|]; [|reflexivity].
  vm_compute in H. discriminate H.
Qed.

(** A piece without separator is read to its end. *)
Lemma split_dunder_aux_piece (s cur : string) :
  all_chars slug_char s = true ->
  split_dunder_aux cur s = [rev_str "" cur +:+ s].
Proof.
  revert cur. induction s as [|c s IH]; intros cur H.
  - cbn [split_dunder_aux]. rewrite append_empty_r. reflexivity.
  - simpl in H. apply andb_true_iff in H as [Hc Hs].
    apply slug_char_not_underscore in Hc.
    cbn [split_dunder_aux]. rewrite Hc. cbn [andb].
    destruct s as [|c' s'].
    + rewrite rev_str_cons. reflexivity.
    + rewrite (IH (String c cur) Hs), rev_str_cons, append_assoc.
      reflexivity.
Qed.

Lemma split_dunder_aux_pair (a b cur : string) :
  all_chars slug_char a = true ->
  split_dunder_aux cur (a +:+ "__" +:+ b)
  = (rev_str "" cur +:+ a) :: split_dunder_aux "" b.
Proof.
  revert cur. induction a as [|c a IH]; intros cur H.
  - rewrite append_empty_r. reflexivity.
  - simpl in H. apply andb_true_iff in H as [Hc Ha].
    apply slug_char_not_underscore in Hc.
    change (String c a +:+ "__" +:+ b) with (String c (a +:+ "__" +:+ b)).
    assert (exists c' s', a +:+ "__" +:+ b = String c' s') as (c' & s' & E).
    { destruct a; simpl; eauto. }
    cbn [split_dunder_aux]. rewrite E, Hc. cbn [andb]. rewrite <- E.
    rewrite (IH (String c cur) Ha), rev_str_cons, append_assoc.
    reflexivity.
Qed.

Lemma slugify_chars (s : string) : all_chars slug_char (slugify s) = true.
Proof.
  pose proof (slugify_cases s) as H.
  destruct (all_chars nonalnum (lower s)).
  - rewrite H. reflexivity.
  - apply slug_re_spec in H. tauto.
Qed.

(** X22.  The id [clean_fragrance_data] builds can be taken apart again:
    [id.split('__')] has exactly two parts, the brand id and the slug, for
    every row, also when one of the two is empty. *)
Theorem cleaned_id_splits (r : row) :
  split_dunder (id (clean_fragrance_data r))
  = [brand_id (clean_fragrance_data r); slug (clean_fragrance_data r)].
Proof.
  unfold clean_fragrance_data. cbn [id brand_id slug].
  unfold split_dunder.
  rewrite split_dunder_aux_pair by apply slugify_chars.
  rewrite split_dunder_aux_piece by apply slugify_chars.
  reflexivity.
Qed.

Lemma lower_slug_char (c : ascii) : slug_char c = true -> lower_char c = c.
Proof.
  destruct c as [[] [] [] [] [] [] [] []]; vm_compute; congruence.
Qed.

Lemma lower_slug (s : string) : all_chars slug_char s = true -> lower s = s.
Proof.
  unfold lower. induction s as [|c s IH]; simpl; [reflexivity|].
  intros H. apply andb_true_iff in H as [Hc Hs].
  rewrite (lower_slug_char c Hc), (IH Hs). reflexivity.
Qed.

Lemma re_sub_runs_alnum (in_run : bool) (c : ascii) (s : string) :
  is_alnum c = true ->
  re_sub_runs nonalnum "-" in_run (String c s)
  = String c (re_sub_runs nonalnum "-" false s).
Proof. intros H. simpl. unfold nonalnum. rewrite H. reflexivity. Qed.

Lemma re_sub_runs_class (c : ascii) (s : string) :
  is_alnum c = false ->
  re_sub_runs nonalnum "-" false (String c s)
  = String "-" (re_sub_runs nonalnum "-" true s).
Proof. intros H. simpl. unfold nonalnum. rewrite H. reflexivity. Qed.

Lemma re_sub_runs_slug_tail (s : string) :
  slug_tail s = true -> re_sub_runs nonalnum "-" false s = s.
Proof.
  induction s as [|c s IH]; [reflexivity|].
  rewrite slug_tail_cons. destruct (is_alnum c) eqn:Hc.
  - intros H. rewrite re_sub_runs_alnum, IH by assumption. reflexivity.
  - intros H. apply andb_true_iff in H as [H Hs].
    apply andb_true_iff in H as [Hh Hc'].
    apply is_hyphen_eq in Hh. subst c.
    destruct s as [|c' s']; [discriminate|].
    rewrite re_sub_runs_class by exact Hc.
    rewrite re_sub_runs_alnum by exact Hc'.
    rewrite <- (re_sub_runs_alnum false) by exact Hc'.
    rewrite (IH Hs). reflexivity.
Qed.

(** X23.  [slugify] leaves a slug alone: making the slug of a slug gives
    the same slug, so the brand id of a brand id, or the slug of a name
    already cleaned, is itself. *)
Theorem slugify_idempotent (s : string) : slugify (slugify s) = slugify s.
Proof.
  pose proof (slugify_cases s) as H.
  destruct (all_chars nonalnum (lower s)).
  - rewrite H. reflexivity.
  - unfold slugify at 1.
    rewrite lower_slug by apply slugify_chars.
    destruct (slugify s) as [|c t] eqn:E; [discriminate|].
    simpl in H. apply andb_true_iff in H as [Hc Ht].
    rewrite re_sub_runs_alnum, (re_sub_runs_slug_tail _ Ht) by exact Hc.
    rewrite <- E. unfold slugify, strip_hyphens.
    apply strip_by_idempotent.
Qed.

End KaggleIdFacts.
(** ** [kaggle_processor.py]: sample price and brand table *)

Module KaggleMainFacts.
Import KaggleMain KaggleProcessorFacts PyStrFacts KaggleIdFacts.

#[local] Abbreviation cleaned := KaggleProcessor.cleaned.
#[local] Abbreviation brand_id := KaggleProcessor.brand_id.
#[local] Abbreviation brand_name := KaggleProcessor.brand_name.
#[local] Abbreviation clean_fragrance_data := KaggleProcessor.clean_fragrance_data.

Lemma brand_id_chars (r : KaggleProcessor.row) :
  all_chars slug_char (brand_id (clean_fragrance_data r)) = true.
Proof. apply slugify_chars. Qed.

(** X24.  The sample price is 15, 16, 18 or 20, and it is 20 exactly for
    the brand ids [dior], [chanel], [tom-ford] and [creed]: the fifth
    luxury entry, [hermès], is never the brand id of a cleaned row, because
    a brand id has no letter outside [a-z]. *)
Theorem sample_price_luxury (r : KaggleProcessor.row) :
  In (sample_price r) [15; 16; 18; 20]%Z
  /\ (sample_price r = 20%Z
      <-> In (brand_id (clean_fragrance_data r))
             ["dior"; "chanel"; "tom-ford"; "creed"])
  /\ brand_id (clean_fragrance_data r) <> "herm" +:+ String e_grave "s".
Proof.
  pose proof (brand_id_chars r) as Hchars.
  unfold sample_price. cbv zeta.
  set (b := brand_id (clean_fragrance_data r)) in *.
  assert (b <> "herm" +:+ String e_grave "s") as Hnot.
  { intros E. rewrite E in Hchars. vm_compute in Hchars.
    discriminate Hchars. }
  assert (existsb (String.eqb b) luxury_brands = true
          <-> In b ["dior"; "chanel"; "tom-ford"; "creed"]) as Hlux.
  { rewrite existsb_exists. split.
    - intros (x & Hx & E). apply String.eqb_eq in E. subst x.
      unfold luxury_brands in Hx. simpl in Hx |- *.
      destruct Hx as [E|[E|[E|[E|[E|[]]]]]]; auto.
      exfalso. apply Hnot. symmetry. exact E.
    - intros Hin. exists b. split; [|apply String.eqb_refl].
      unfold luxury_brands. simpl in Hin |- *. tauto. }
  split; [|split; [|exact Hnot]].
  - destruct (existsb (String.eqb b) luxury_brands); [simpl; tauto|].
    destruct (Qle_bool _ _); [simpl; tauto|].
    destruct (Qle_bool _ _); simpl; tauto.
  - rewrite <- Hlux.
    destruct (existsb (String.eqb b) luxury_brands); [tauto|].
    destruct (Qle_bool _ _); [split; discriminate|].
    destruct (Qle_bool _ _); split; discriminate.
Qed.

Lemma increment_keys (k : string) (bd : list (string * brand)) :
  map fst (increment k bd) = map fst bd.
Proof.
  unfold increment. rewrite map_map. apply map_ext. intros kv.
  destruct (String.eqb (fst kv) k); reflexivity.
Qed.

Lemma tracked_spec (k : string) (bd : list (string * brand)) :
  tracked k bd = true <-> In k (map fst bd).
Proof.
  unfold tracked. rewrite existsb_exists, in_map_iff. split.
  - intros (kv & Hin & E). apply String.eqb_eq in E. eauto.
  - intros (kv & E & Hin). exists kv. split; [exact Hin|].
    apply String.eqb_eq, E.
Qed.

Lemma in_increment (k k' : string) (e' : brand) (bd : list (string * brand)) :
  In (k', e') (increment k bd) ->
  exists e, In (k', e) bd
            /\ id e' = id e /\ name e' = name e /\ slug e' = slug e
            /\ fragrance_count e'
               = if String.eqb k' k then S (fragrance_count e)
                 else fragrance_count e.
Proof.
  unfold increment. rewrite in_map_iff. intros ([k1 e1] & E & Hin).
  simpl in E. destruct (String.eqb k1 k) eqn:Ek; injection E as <- <-;
    exists e1; rewrite ?Ek; auto.
Qed.

Lemma sum_increment (k : string) (bd : list (string * brand)) :
  List.NoDup (map fst bd) ->
  list_sum (map (fun kv => fragrance_count (snd kv)) (increment k bd))
  = list_sum (map (fun kv => fragrance_count (snd kv)) bd)
    + (if tracked k bd then 1 else 0).
Proof.
  induction bd as [|[k1 e1] bd IH]; intros Hnd; [reflexivity|].
  simpl in Hnd. apply NoDup_cons_iff in Hnd as [Hk1 Hnd].
  cbn [increment map fst snd tracked existsb]. fold (increment k bd).
  fold (tracked k bd).
  change (list_sum (?x :: ?l)) with (x + list_sum l).
  rewrite (IH Hnd).
  destruct (String.eqb k1 k) eqn:E; cbn [fst snd fragrance_count orb].
  - apply String.eqb_eq in E. subst k1.
    destruct (tracked k bd) eqn:Et; [|lia].
    apply tracked_spec in Et. contradiction.
  - lia.
Qed.

Lemma NoDup_snoc {A : Type} (l : list A) (x : A) :
  List.NoDup l -> ~ In x l -> List.NoDup (l ++ [x]).
Proof.
  induction 1 as [|y l Hy Hl IH]; intros Hx; simpl.
  - constructor; [intros []|constructor].
  - constructor.
    + intros Hin. apply in_app_or in Hin as [Hin|[->|[]]]; [tauto|].
      apply Hx. left. reflexivity.
    + apply IH. intros Hin. apply Hx. right. exact Hin.
Qed.

Lemma filter_snoc (k : string) (done : list cleaned) (c : cleaned) :
  List.filter (of_brand k) (done ++ [c])
  = (List.filter (of_brand k) done
     ++ if String.eqb (brand_id c) k then [c] else [])%list.
Proof.
  rewrite List.filter_app. simpl. unfold of_brand at 2.
  destruct (String.eqb (brand_id c) k); reflexivity.
Qed.

Lemma table_step (done : list cleaned) (bd : list (string * brand))
    (c : cleaned) :
  table_of done bd -> table_of (done ++ [c]) (track_brand bd c).
Proof.
  intros (Hnd & Hent & Hall & Hsum). unfold track_brand. cbv zeta.
  set (k0 := brand_id c).
  set (new := {| id := k0; name := brand_name c; slug := k0;
                 fragrance_count := 0 |}).
  assert (tracked k0 bd = false -> List.filter (of_brand k0) done = []) as Hfresh.
  { intros Ht. apply PyFacts.filter_none. intros c' Hc'.
    unfold of_brand. apply String.eqb_neq. intros E.
    apply Hall in Hc'. rewrite E in Hc'. apply tracked_spec in Hc'.
    congruence. }
  set (bd1 := if tracked k0 bd then bd else (bd ++ [(k0, new)])%list).
  assert (List.NoDup (map fst bd1)) as Hnd1.
  { unfold bd1. destruct (tracked k0 bd) eqn:Ht; [exact Hnd|].
    rewrite map_app. simpl. apply NoDup_snoc; [exact Hnd|].
    intros Hx. apply tracked_spec in Hx. congruence. }
  assert (tracked k0 bd1 = true) as Ht1.
  { apply tracked_spec. unfold bd1. destruct (tracked k0 bd) eqn:Ht.
    - apply tracked_spec, Ht.
    - rewrite map_app. apply in_or_app. right. left. reflexivity. }
  split; [|split; [|split]].
  - rewrite increment_keys. exact Hnd1.
  - intros k e' Hin. apply in_increment in Hin
      as (e & Hin & Hid & Hname & Hslug & Hcount).
    rewrite Hid, Hname, Hslug, Hcount, filter_snoc. fold k0.
    rewrite (String.eqb_sym k k0).
    assert ((In (k, e) bd /\ (tracked k0 bd = false -> k <> k0))
            \/ (tracked k0 bd = false /\ k = k0 /\ e = new)) as [[Hold Hne]|(Ht & -> & ->)].
    { unfold bd1 in Hin. destruct (tracked k0 bd) eqn:Ht.
      - left. split; [exact Hin|discriminate].
      - apply in_app_or in Hin as [Hin|[[= <- <-]|[]]].
        + left. split; [exact Hin|]. intros _ ->.
          apply (in_map fst) in Hin. apply tracked_spec in Hin. simpl in Hin.
          congruence.
        + right. auto. }
    + destruct (Hent k e Hold) as (H1 & H2 & H3 & c1 & Hhead & H4).
      split; [exact H1|]. split; [exact H2|]. split.
      * rewrite length_app, <- H3.
        destruct (String.eqb k0 k); simpl; lia.
      * exists c1. split; [|exact H4].
        destruct (List.filter (of_brand k) done); [discriminate|exact Hhead].
    + rewrite (Hfresh Ht), String.eqb_refl. simpl.
      repeat split. exists c. split; reflexivity.
  - intros c' Hc'. rewrite increment_keys.
    apply in_app_or in Hc' as [Hc'|[<-|[]]].
    + apply Hall in Hc'. unfold bd1. destruct (tracked k0 bd); [exact Hc'|].
      rewrite map_app. apply in_or_app. left. exact Hc'.
    + apply tracked_spec, Ht1.
  - rewrite (sum_increment _ _ Hnd1), Ht1, length_app. simpl.
    assert (list_sum (map (fun kv => fragrance_count (snd kv)) bd1)
            = length done) as ->; [|lia].
    unfold bd1. destruct (tracked k0 bd); [exact Hsum|].
    rewrite map_app, list_sum_app. simpl. lia.
Qed.

Lemma table_fold (cs done : list cleaned) (bd : list (string * brand)) :
  table_of done bd -> table_of (done ++ cs) (fold_left track_brand cs bd).
Proof.
  revert done bd. induction cs as [|c cs IH]; intros done bd H; simpl.
  - rewrite app_nil_r. exact H.
  - replace (done ++ c :: cs)%list with ((done ++ [c]) ++ cs)%list
      by (rewrite <- app_assoc; reflexivity).
    apply IH, table_step, H.
Qed.

(** X25.  The brand table [main] builds beside the cleaned records has
    one entry for each brand id that occurs and none for any other; the
    entry's id and slug are the brand id, its name is the brand name of
    the first record of the brand, its count is the number of records of
    the brand, which is at least one; and the counts add up to the number
    of rows. *)
Theorem brand_table_counts (rows : list KaggleProcessor.row) :
  let '(cleaned_data, brand_data) := clean_rows rows in
  length cleaned_data = length rows
  /\ List.NoDup (map fst brand_data)
  /\ (forall k, In k (map fst brand_data)
                <-> exists c, In c cleaned_data /\ brand_id c = k)
  /\ (forall k e, In (k, e) brand_data ->
        id e = k /\ slug e = k
        /\ fragrance_count e = length (List.filter (of_brand k) cleaned_data)
        /\ 0 < fragrance_count e
        /\ exists c, head (List.filter (of_brand k) cleaned_data) = Some c
                     /\ name e = brand_name c)
  /\ list_sum (map (fun kv => fragrance_count (snd kv)) brand_data)
     = length rows.
Proof.
  unfold clean_rows. cbv zeta.
  set (cs := map clean_fragrance_data rows).
  assert (table_of [] []) as H0.
  { split; [constructor|]. split; [intros k e []|].
    split; [intros c []|reflexivity]. }
  apply (table_fold cs) in H0. rewrite app_nil_l in H0.
  destruct H0 as (Hnd & Hent & Hall & Hsum).
  assert (length cs = length rows) as Hlen by apply length_map.
  split; [exact Hlen|]. split; [exact Hnd|]. split; [|split].
  - intros k. split.
    + intros Hk. apply in_map_iff in Hk as ([k' e] & <- & Hin).
      destruct (Hent k' e Hin) as (_ & _ & _ & c & Hhead & _).
      exists c. simpl.
      assert (In c (List.filter (of_brand k') cs)) as Hc.
      { destruct (List.filter (of_brand k') cs); [discriminate|].
        injection Hhead as ->. left. reflexivity. }
      apply filter_In in Hc as [Hc E]. split; [exact Hc|].
      apply String.eqb_eq, E.
    + intros (c & Hc & <-). apply Hall, Hc.
  - intros k e Hin. destruct (Hent k e Hin) as (H1 & H2 & H3 & c & Hhead & H4).
    split; [exact H1|]. split; [exact H2|]. split; [exact H3|].
    split; [|eauto]. rewrite H3.
    destruct (List.filter (of_brand k) cs); [discriminate|simpl; lia].
  - rewrite Hsum. exact Hlen.
Qed.

End KaggleMainFacts.
(** ** [calculate_priority_score]: sign and monotonicity *)

Module KaggleScoreMoreFacts.
Import KaggleProcessor KaggleMain.

Local Open Scope R_scope.

Lemma Q2R_pos (q : Q) : (0 < q)%Q -> 0 < Q2R q.
Proof.
  intros H. apply Qreals.Qlt_Rlt in H. rewrite RMicromega.Q2R_0 in H. exact H.
Qed.

Lemma recency_boost_pos (year : Z) : (0 < recency_boost year)%Q.
Proof.
  unfold recency_boost.
  destruct (2020 <=? year)%Z; [reflexivity|].
  destruct (2015 <=? year)%Z; [reflexivity|].
  destruct (2010 <=? year)%Z; reflexivity.
Qed.

Lemma brand_boost_pos (cfg : config) (brand : string) :
  positive_boosts cfg -> (0 < brand_boost cfg brand)%Q.
Proof.
  intros (Ht & _). unfold brand_boost.
  destruct (List.find _ (tiers cfg)) as [t|] eqn:E; [|reflexivity].
  apply find_some in E as [Hin _].
  apply (proj1 (List.Forall_forall _ _) Ht t Hin).
Qed.

Lemma classic_boost_pos (cfg : config) (name : string) :
  positive_boosts cfg -> (0 < classic_boost cfg name)%Q.
Proof.
  intros (_ & _ & Hc). unfold classic_boost.
  destruct (classic_fragrances cfg) as [[names b]|] eqn:E; [|reflexivity].
  destruct (existsb _ names); [apply (Hc names b eq_refl)|reflexivity].
Qed.

Lemma bestseller_boost_pos (cfg : config) (name : string) (b : Q) :
  positive_boosts cfg -> bestseller_boost cfg name = Some b -> (0 < b)%Q.
Proof.
  intros (_ & Hb & _). unfold bestseller_boost.
  destruct (true_bestsellers cfg) as [names|]; [|intros [= <-]; reflexivity].
  destruct (existsb _ names); [apply Hb|intros [= <-]; reflexivity].
Qed.

Lemma ln_reviews_pos (reviews : Z) : (0 < reviews)%Z -> 0 < ln (IZR (reviews + 1)).
Proof.
  intros H. rewrite <- ln_1. apply ln_increasing; [lra|].
  apply IZR_lt. lia.
Qed.

Lemma rated (rating : Q) : negb (Qle_bool rating 0) = true <-> (0 < rating)%Q.
Proof.
  rewrite negb_true_iff, <- not_true_iff_false, Qle_bool_iff.
  split; [apply Qnot_le_lt|apply Qlt_not_le].
Qed.

(** The product of the four multipliers, when the bestseller boost can be
    looked up. *)
Lemma score_unfold (r : row) (cfg : config) :
  calculate_priority_score r cfg
  = if ((0 <? default 0%Z (Rating_Count r))%Z
        && negb (Qle_bool (default 0%Q (Rating_Value r)) 0))%bool
    then match bestseller_boost cfg (lower (Perfume r)) with
         | Some bestseller =>
             Q2R (default 0%Q (Rating_Value r))
             * ln (IZR (default 0%Z (Rating_Count r) + 1))
             * Q2R (brand_boost cfg (strip (lower (Brand r))))
             * Q2R (recency_boost (parse_year (Year r)))
             * Q2R bestseller
             * Q2R (classic_boost cfg (lower (Perfume r)))
         | None => 0
         end
    else 0.
Proof. reflexivity. Qed.

Lemma boosts_pos (r : row) (cfg : config) (b : Q) :
  positive_boosts cfg ->
  bestseller_boost cfg (lower (Perfume r)) = Some b ->
  0 < Q2R (brand_boost cfg (strip (lower (Brand r))))
  /\ 0 < Q2R (recency_boost (parse_year (Year r)))
  /\ 0 < Q2R b
  /\ 0 < Q2R (classic_boost cfg (lower (Perfume r))).
Proof.
  intros Hcfg Hb. repeat split; apply Q2R_pos.
  - apply brand_boost_pos, Hcfg.
  - apply recency_boost_pos.
  - apply (bestseller_boost_pos cfg _ b Hcfg Hb).
  - apply classic_boost_pos, Hcfg.
Qed.

Lemma score_sign (r : row) (cfg : config) :
  positive_boosts cfg ->
  0 <= calculate_priority_score r cfg
  /\ (0 < calculate_priority_score r cfg
      <-> exists rating reviews,
            Rating_Value r = Some rating /\ (0 < rating)%Q
            /\ Rating_Count r = Some reviews /\ (0 < reviews)%Z
            /\ bestseller_boost cfg (lower (Perfume r)) <> None).
Proof.
  intros Hcfg.
  rewrite score_unfold.
  destruct (0 <? default 0%Z (Rating_Count r))%Z eqn:Hc; cbn [andb].
  2:{ split; [lra|]. split; [lra|].
      intros (rating & reviews & _ & _ & E & Hpos & _). rewrite E in Hc.
      simpl in Hc. apply Z.ltb_ge in Hc. lia. }
  destruct (negb (Qle_bool (default 0%Q (Rating_Value r)) 0)) eqn:Hr.
  2:{ split; [lra|]. split; [lra|].
      intros (rating & reviews & E & Hpos & _). rewrite E in Hr.
      simpl in Hr. apply rated in Hpos. congruence. }
  apply Z.ltb_lt in Hc. apply rated in Hr.
  destruct (bestseller_boost cfg (lower (Perfume r))) as [b|] eqn:Hb.
  2:{ split; [lra|]. split; [lra|]. intros (? & ? & _ & _ & _ & _ & H).
      congruence. }
  destruct (boosts_pos r cfg b Hcfg Hb) as (H1 & H2 & H3 & H4).
  pose proof (Q2R_pos _ Hr) as H5.
  pose proof (ln_reviews_pos _ Hc) as H6.
  assert (0 < Q2R (default 0%Q (Rating_Value r))
              * ln (IZR (default 0%Z (Rating_Count r) + 1))
              * Q2R (brand_boost cfg (strip (lower (Brand r))))
              * Q2R (recency_boost (parse_year (Year r)))
              * Q2R b
              * Q2R (classic_boost cfg (lower (Perfume r)))) as Hpos.
  { repeat (apply Rmult_lt_0_compat; [|assumption]). assumption. }
  split; [lra|]. split; [|intros _; exact Hpos].
  intros _.
  destruct (Rating_Value r) as [rating|]; [|simpl in Hr; discriminate Hr].
  destruct (Rating_Count r) as [reviews|]; [|simpl in Hc; lia].
  exists rating, reviews. simpl in Hr, Hc. repeat split; auto.
Qed.

(** X26.  With a configuration whose multipliers are all positive, the
    score is never negative, and it is positive, so that [main] keeps the
    row, only if the row has a positive rating and a positive review count
    and the bestseller boost can be looked up: every other row scores
    exactly 0. *)
Theorem score_positive_only_if_rated (r : row) (cfg : config)
    (Hcfg : positive_boosts cfg) :
  0 <= calculate_priority_score r cfg
  /\ (0 < calculate_priority_score r cfg ->
      exists rating reviews,
        Rating_Value r = Some rating /\ (0 < rating)%Q
        /\ Rating_Count r = Some reviews /\ (0 < reviews)%Z
        /\ bestseller_boost cfg (lower (Perfume r)) <> None)
  /\ ((forall rating reviews,
         Rating_Value r = Some rating -> Rating_Count r = Some reviews ->
         (0 < rating)%Q -> (0 < reviews)%Z ->
         bestseller_boost cfg (lower (Perfume r)) = None)
      -> calculate_priority_score r cfg = 0).
Proof.
  destruct (score_sign r cfg Hcfg) as [Hnn Hiff].
  split; [exact Hnn|]. split; [apply Hiff|].
  intros Hnone.
  destruct (Rle_lt_or_eq_dec _ _ Hnn) as [Hpos|Hzero]; [|symmetry; exact Hzero].
  exfalso. apply Hiff in Hpos
    as (rating & reviews & Hr & Hrp & Hc & Hcp & Hb).
  apply Hb, (Hnone rating reviews Hr Hc Hrp Hcp).
Qed.

Lemma score_positive_witness :
  0 <= calculate_priority_score scenario_D sample_config.
Proof.
  apply (score_positive_only_if_rated scenario_D sample_config).
  split; [repeat constructor|].
  split; [intros b [= <-]; reflexivity|intros names b [= _ <-]; reflexivity].
Defined.

(** X27.  With a configuration whose multipliers are all positive, more
    reviews never lower the score: the score of a row does not decrease
    when its review count is replaced by a larger one. *)
Theorem score_monotone_in_reviews (r : row) (cfg : config)
    (reviews reviews' : Z)
    (Hcfg : positive_boosts cfg) (Hle : (reviews <= reviews')%Z) :
  calculate_priority_score (with_reviews r reviews) cfg
  <= calculate_priority_score (with_reviews r reviews') cfg.
Proof.
  pose proof (score_sign (with_reviews r reviews') cfg Hcfg) as [Hnn' _].
  rewrite score_unfold in Hnn' |- *. rewrite (score_unfold (with_reviews r reviews')) in *.
  cbn [with_reviews Rating_Count Rating_Value Perfume Brand Year default] in *.
  change (Datatypes.id reviews') with reviews' in *.
  change (Datatypes.id reviews) with reviews in *.
  destruct (0 <? reviews)%Z eqn:Hc; cbn [andb]; [|exact Hnn'].
  apply Z.ltb_lt in Hc.
  assert ((0 <? reviews')%Z = true) as -> by (apply Z.ltb_lt; lia).
  cbn [andb] in *.
  destruct (negb (Qle_bool (default 0%Q (Rating_Value r)) 0)) eqn:Hr; [|lra].
  apply rated in Hr.
  destruct (bestseller_boost cfg (lower (Perfume r))) as [b|] eqn:Hb; [|lra].
  destruct (boosts_pos r cfg b Hcfg Hb) as (H1 & H2 & H3 & H4).
  pose proof (Q2R_pos _ Hr) as H5.
  assert (ln (IZR (reviews + 1)) <= ln (IZR (reviews' + 1))) as Hln.
  { destruct (Z.eq_dec reviews reviews') as [->|Hne]; [lra|].
    left. apply ln_increasing; [apply IZR_lt; lia|apply IZR_lt; lia]. }
  repeat (apply Rmult_le_compat_r; [lra|]).
  apply Rmult_le_compat_l; [lra|exact Hln].
Qed.

Lemma score_monotone_witness :
  calculate_priority_score (with_reviews scenario_D 850) no_boosts
  <= calculate_priority_score (with_reviews scenario_D 19581) no_boosts.
Proof.
  apply score_monotone_in_reviews; [|lia].
  split; [constructor|]. split; discriminate.
Defined.

End KaggleScoreMoreFacts.
(** ** [transform_brand_for_db] *)

Module BrandTransformFacts.
Import DatabaseImporter ImportRun BrandTransform ValidatorAcceptance
       TransformFacts.

Section Title.
Variable str_title : string -> string.

#[local] Abbreviation transform_brand_for_db :=
  (transform_brand_for_db str_title).

(** The record before the display name is set. *)
Lemma lookup_defaults (b : record) (k : string) :
  k <> "fragrance_count" -> k <> "is_active" -> k <> "affiliate_supported" ->
  k <> "sample_availability_score" ->
  set_default "sample_availability_score" (num 50)
    (set_default "affiliate_supported" (num 0)
       (set_default "is_active" (num 1) (delete "fragrance_count" b))) !! k
  = b !! k.
Proof.
  intros H1 H2 H3 H4.
  rewrite !lookup_set_default.
  repeat match goal with
         | |- context [String.eqb ?a ?b] =>
             rewrite (proj2 (String.eqb_neq a b)) by congruence
         end.
  apply lookup_delete_ne. congruence.
Qed.

#[local] Abbreviation defaults b :=
  (set_default "sample_availability_score" (num 50)
     (set_default "affiliate_supported" (num 0)
        (set_default "is_active" (num 1) (delete "fragrance_count" b)))).

Lemma lookup_defaults_score (b : record) :
  defaults b !! "sample_availability_score"
  = match b !! "sample_availability_score" with
    | Some w => Some w
    | None => Some (num 50)
    end.
Proof.
  repeat lookup_step. reflexivity.
Qed.

Lemma lookup_defaults_count (b : record) :
  defaults b !! "fragrance_count" = None.
Proof.
  repeat lookup_step. reflexivity.
Qed.

Lemma display_name_inv (b db0 db1 : record) :
  display_name str_title b db0 = Ok db1 ->
  is_Some (db1 !! "display_name")
  /\ forall k, k <> "display_name" -> db1 !! k = db0 !! k.
Proof.
  unfold display_name. destruct (db0 !! "display_name") as [w|] eqn:E.
  - intros [= <-]. split; [rewrite E; eauto|reflexivity].
  - assert (forall v, is_Some (<["display_name" := v]> db0 !! "display_name")
                      /\ forall k, k <> "display_name" ->
                           <["display_name" := v]> db0 !! k = db0 !! k) as Hset.
    { intros v. split; [rewrite lookup_insert_eq; eauto|].
      intros k Hk. apply lookup_insert_ne. congruence. }
    destruct (b !! "brand_name") as [v|]; [intros [= <-]; apply Hset|].
    destruct (title_of str_title _) as [v|e];
      cbv beta iota delta [mbind result_bind]; [|discriminate].
    intros [= <-]. apply Hset.
Qed.

(** What [transform_brand_for_db] returns, key by key. *)
Lemma transform_brand_inv (b db : record) :
  transform_brand_for_db b = Ok db ->
  db !! "fragrance_count" = None
  /\ is_Some (db !! "display_name")
  /\ db !! "brand_tier" = b !! "brand_tier"
  /\ db !! "sample_availability_score"
     = match b !! "sample_availability_score" with
       | Some w => Some w
       | None => Some (num 50)
       end
  /\ (forall k, ~ In k ["fragrance_count"; "is_active"; "affiliate_supported";
                        "sample_availability_score"; "display_name";
                        "brand_tier"; "prestige_score"] ->
        db !! k = b !! k)
  /\ match b !! "brand_tier" with
     | Some tier => exists p, prestige_of tier = Ok p
                              /\ db !! "prestige_score" = Some p
     | None => db !! "prestige_score" = b !! "prestige_score"
     end.
Proof.
  unfold BrandTransform.transform_brand_for_db. cbv zeta.
  destruct (display_name str_title b (defaults b)) as [db1|e] eqn:Hd;
    cbv beta iota delta [mbind result_bind]; [|discriminate].
  apply display_name_inv in Hd as [Hdisp Hsame].
  assert (forall k, ~ In k ["fragrance_count"; "is_active";
                            "affiliate_supported";
                            "sample_availability_score"; "display_name";
                            "brand_tier"; "prestige_score"] ->
            db1 !! k = b !! k) as Hframe.
  { intros k Hk. simpl in Hk. rewrite Hsame by (intros ->; tauto).
    apply lookup_defaults; intros ->; tauto. }
  assert (db1 !! "brand_tier" = b !! "brand_tier") as Htier.
  { rewrite Hsame by discriminate. apply lookup_defaults; discriminate. }
  assert (db1 !! "prestige_score" = b !! "prestige_score") as Hprest.
  { rewrite Hsame by discriminate. apply lookup_defaults; discriminate. }
  assert (db1 !! "fragrance_count" = None) as Hcount.
  { rewrite Hsame by discriminate. apply lookup_defaults_count. }
  assert (db1 !! "sample_availability_score"
          = match b !! "sample_availability_score" with
            | Some w => Some w
            | None => Some (num 50)
            end) as Hscore.
  { rewrite Hsame by discriminate. apply lookup_defaults_score. }
  destruct (b !! "brand_tier") as [tier|] eqn:Et.
  - destruct (prestige_of tier) as [p|e] eqn:Hp; [|discriminate].
    intros [= <-].
    split; [rewrite !lookup_insert_ne by discriminate; exact Hcount|].
    split; [rewrite !lookup_insert_ne by discriminate; exact Hdisp|].
    split.
    { rewrite lookup_insert_ne by discriminate. apply lookup_insert_eq. }
    split; [rewrite !lookup_insert_ne by discriminate; exact Hscore|].
    split.
    + intros k Hk. simpl in Hk.
      rewrite !lookup_insert_ne by (intros <-; tauto). apply Hframe.
      simpl. exact Hk.
    + exists p. split; [reflexivity|]. apply lookup_insert_eq.
  - intros [= <-]. auto 10.
Qed.

Lemma valid_tier_prestige (t : value) :
  In t valid_tiers ->
  exists s q, t = VStr s /\ In (s, q) prestige_scores
              /\ prestige_of t = Ok (num q).
Proof.
  intros Hin. simpl in Hin.
  repeat (destruct Hin as [<-|Hin];
          [eexists _, _; split; [reflexivity|];
           split; [|reflexivity]; simpl; tauto|]).
  destruct Hin.
Qed.

Lemma transform_brand_accepted (b db : record) :
  validate_brand_data b = Ok (true, []) ->
  transform_brand_for_db b = Ok db ->
  validate_brand_data db = Ok (true, []).
Proof.
  rewrite !brand_accepted_conditions. intros (Hreq & Htier & Hscore) Ht.
  apply transform_brand_inv in Ht as (_ & _ & Et & Es & Hframe & _).
  split; [|split].
  - intros field Hin. rewrite Hframe; [apply Hreq, Hin|].
    simpl in Hin |- *.
    intros Hk. repeat (destruct Hin as [<-|Hin];
      [repeat (destruct Hk as [Hk|Hk]; [discriminate Hk|]); exact Hk|]).
    exact Hin.
  - rewrite Et. exact Htier.
  - rewrite Es. destruct Hscore as [->|[->|(q & -> & Hq)]]; eauto.
    right. right. exists (Q2Qc 50). split; [reflexivity|].
    split; vm_compute; discriminate.
Qed.

(** X28.  Whenever [transform_brand_for_db] returns on a brand the
    validator accepts, the result is still accepted; it has no
    [fragrance_count] and has a display name; its id, name, slug and tier
    are those of the input; and when the input has a tier name, the
    prestige score is the entry of that tier in the table, never the
    default. *)
Theorem transform_brand_preserves_validity (b db : record)
    (Hvalid : validate_brand_data b = Ok (true, []))
    (Hdb : transform_brand_for_db b = Ok db) :
  validate_brand_data db = Ok (true, [])
  /\ db !! "fragrance_count" = None
  /\ is_Some (db !! "display_name")
  /\ (forall k, In k ["id"; "name"; "slug"; "brand_tier"] ->
        db !! k = b !! k)
  /\ (forall s, b !! "brand_tier" = Some (VStr s) ->
        exists q, In (s, q) prestige_scores
                  /\ db !! "prestige_score" = Some (num q)).
Proof.
  split; [apply (transform_brand_accepted b db Hvalid Hdb)|].
  pose proof (transform_brand_inv _ _ Hdb)
    as (Hcount & Hdisp & Et & _ & Hframe & Hprest).
  split; [exact Hcount|]. split; [exact Hdisp|]. split.
  - intros k Hin. simpl in Hin.
    destruct Hin as [<-|[<-|[<-|[<-|[]]]]]; try exact Et;
      apply Hframe; simpl;
      intros Hk; repeat (destruct Hk as [Hk|Hk]; [discriminate Hk|]);
      exact Hk.
  - intros s Es. rewrite Es in Hprest. destruct Hprest as (p & Hp & Hdbp).
    apply brand_accepted_conditions in Hvalid as (_ & Htier & _).
    destruct Htier as [H|[H|(t & Ht & Hin)]]; try congruence.
    assert (t = VStr s) as -> by congruence.
    destruct (valid_tier_prestige _ Hin) as (s' & q & [= <-] & Hq & Hpq).
    exists q. split; [exact Hq|]. congruence.
Qed.

(** X29.  On a brand the validator accepts, [transform_brand_for_db]
    returns exactly when the brand has a display name, a brand name, or a
    name that is a string; otherwise taking the title of the name raises
    [AttributeError]. *)
Theorem transform_brand_returns_iff (b : record)
    (Hvalid : validate_brand_data b = Ok (true, [])) :
  ((exists db, transform_brand_for_db b = Ok db)
   <-> (is_Some (b !! "display_name") \/ is_Some (b !! "brand_name")
        \/ exists s, b !! "name" = Some (VStr s)))
  /\ (forall e, transform_brand_for_db b = Raise e -> e = AttributeError).
Proof.
  apply brand_accepted_conditions in Hvalid as (Hreq & Htier & _).
  destruct (Hreq "name") as (n & Hn & Hnt); [simpl; tauto|].
  assert (match b !! "brand_tier" with
          | Some tier => exists p, prestige_of tier = Ok p
          | None => True
          end) as Hp.
  { destruct Htier as [->|[->|(t & -> & Hin)]]; [exact I|eexists; reflexivity|].
    destruct (valid_tier_prestige _ Hin) as (s & q & _ & _ & Hq). eauto. }
  unfold BrandTransform.transform_brand_for_db. cbv zeta.
  assert (defaults b !! "display_name" = b !! "display_name") as Hd
    by (apply lookup_defaults; discriminate).
  unfold display_name. rewrite Hd.
  destruct (b !! "brand_tier") as [tier|];
    [destruct Hp as [p Hp]; rewrite Hp|];
    (destruct (b !! "display_name") as [w|];
     [cbv beta iota delta [mbind result_bind];
      split; [split; eauto|discriminate]|]);
    (destruct (b !! "brand_name") as [w|];
     [cbv beta iota delta [mbind result_bind];
      split; [split; eauto|discriminate]|]);
    replace (get_default b "name" (get_default b "id" (VStr ""))) with n
      by (unfold get_default at 1; rewrite Hn; reflexivity);
    (destruct n as [|q|s|l]; cbv beta iota delta [mbind result_bind title_of];
     [discriminate Hnt
     |split; [|intros e [= <-]; reflexivity];
      split; [intros [db Hdb]; discriminate Hdb|];
      intros [[x Hx]|[[x Hx]|[s Hs]]];
        [discriminate Hx|discriminate Hx|congruence]
     |split; [split; [intros _; right; right; eauto|intros _; eauto]
             |intros e He; discriminate He]
     |split; [|intros e [= <-]; reflexivity];
      split; [intros [db Hdb]; discriminate Hdb|];
      intros [[x Hx]|[[x Hx]|[s Hs]]];
        [discriminate Hx|discriminate Hx|congruence]]).
Qed.

End Title.

Lemma transform_brand_valid_witness :
  exists db,
    transform_brand_for_db PyStr.title dior_brand = Ok db
    /\ validate_brand_data db = Ok (true, []).
Proof.
  destruct (transform_brand_for_db PyStr.title dior_brand) as [db|e] eqn:H.
  - exists db. split; [reflexivity|].
    assert (validate_brand_data dior_brand = Ok (true, [])) as Hv
      by (vm_compute; reflexivity).
    exact (proj1 (transform_brand_preserves_validity _ _ _ Hv H)).
  - exfalso.
    assert (match transform_brand_for_db PyStr.title dior_brand with
            | Ok _ => true
            | Raise _ => false
            end = true) as E by (vm_compute; reflexivity).
    rewrite H in E. discriminate E.
Defined.

Lemma transform_brand_returns_witness :
  exists db, transform_brand_for_db PyStr.title dior_brand = Ok db.
Proof.
  assert (validate_brand_data dior_brand = Ok (true, [])) as Hv
    by (vm_compute; reflexivity).
  apply (proj1 (transform_brand_returns_iff PyStr.title dior_brand Hv)).
  right. right. exists "Dior". reflexivity.
Defined.

End BrandTransformFacts.
